(** * botup: the instance lifecycle manager of [bot.py]

    A shallow embedding of the record store, the access policy, the
    connection capture loop, the deploy and controller commands and the expiry
    sweeper of [src/bot.py], followed by the properties of the
    specification that are about them.

    Conventions of the embedding.
    - A Python [str] is a [string]; a character is an [ascii] read as the code
      point of the same number, so the model covers text whose code points
      are below 256.  On that range [str.lower], [str.strip] and [int] are
      as the interpreter has them.
    - The file [database.txt] is the field [db] of the [world]: [None] while
      the file does not exist, [Some text] otherwise.  Everything the
      program does to its collaborators (the docker command line, the
      chat gateway, the file) is appended to the [trace] of the world.
    - What the collaborators answer (the output of [docker run], the lines
      [tmate -F] prints and when, whether a direct message can be
      delivered, the reading of the clock) is an argument of the command
      that consumes it. *)

From Stdlib Require Import Bool Arith ZArith NArith List Ascii String Lia.
From Stdlib Require Import DecimalString DecimalPos DecimalZ.
Import ListNotations.

Local Open Scope list_scope.
Local Open Scope string_scope.

(* ================================================================== *)
(** * Python's [str] and [int] primitives, as [bot.py] uses them *)
(* ================================================================== *)

Module Py.

Definition LF : ascii := "010"%char.
Definition CR : ascii := "013"%char.

Definition code (c : ascii) : N := N_of_ascii c.

Definition between (lo hi n : N) : bool := (lo <=? n)%N && (n <=? hi)%N.

(** [c.isspace()] for a code point below 256: TAB..CR, FS..US, space,
    NEL and NBSP. *)
Definition isspace (c : ascii) : bool :=
  let n := code c in
  between 9 13 n || between 28 32 n || (n =? 133)%N || (n =? 160)%N.

(** The characters [int()] skips around a literal: those of [isspace] less
    FS..US. *)
Definition int_space (c : ascii) : bool :=
  let n := code c in
  between 9 13 n || (n =? 32)%N || (n =? 133)%N || (n =? 160)%N.

(** [c.lower()]: A..Z and the Latin-1 capitals (U+00C0..U+00DE but the
    multiplication sign) move up by 32. *)
Definition lower_char (c : ascii) : ascii :=
  let n := code c in
  if between 65 90 n || (between 192 222 n && negb (n =? 215)%N)
  then ascii_of_N (n + 32) else c.

Fixpoint lower (s : string) : string :=
  match s with
  | EmptyString => EmptyString
  | String c r => String (lower_char c) (lower r)
  end.

(** [s.replace(" ", "")] *)
Fixpoint remove_spaces (s : string) : string :=
  match s with
  | EmptyString => EmptyString
  | String c r =>
      if Ascii.eqb c " " then remove_spaces r else String c (remove_spaces r)
  end.

Section Strip.
Variable ws : ascii -> bool.

Fixpoint lstrip_by (s : string) : string :=
  match s with
  | EmptyString => EmptyString
  | String c r => if ws c then lstrip_by r else s
  end.

Fixpoint rstrip_by (s : string) : string :=
  match s with
  | EmptyString => EmptyString
  | String c r =>
      match rstrip_by r with
      | EmptyString => if ws c then EmptyString else String c EmptyString
      | r' => String c r'
      end
  end.

Definition strip_by (s : string) : string := lstrip_by (rstrip_by s).
End Strip.

(** [s.strip()] *)
Definition strip : string -> string := strip_by isspace.

(** [s.split(sep)] for a separator of one character: never the empty
    list, [""] splits into [[""]]. *)
Fixpoint split (sep : ascii) (s : string) : list string :=
  match s with
  | EmptyString => [EmptyString]
  | String c r =>
      if Ascii.eqb c sep then EmptyString :: split sep r
      else match split sep r with
           | [] => [String c EmptyString]
           | p :: ps => String c p :: ps
           end
  end.

(** [sep.join(parts)] *)
Fixpoint join (sep : string) (parts : list string) : string :=
  match parts with
  | [] => EmptyString
  | [p] => p
  | p :: ps => p ++ sep ++ join sep ps
  end.

Fixpoint startswith (p s : string) : bool :=
  match p, s with
  | EmptyString, _ => true
  | String _ _, EmptyString => false
  | String a p', String b s' => Ascii.eqb a b && startswith p' s'
  end.

(** [needle in hay] *)
Fixpoint contains (needle hay : string) : bool :=
  startswith needle hay ||
  match hay with
  | EmptyString => false
  | String _ r => contains needle r
  end.

(** [str(n)] and the [{n}] of an f-string, for an [int]. *)
Definition str_of_int (n : Z) : string := NilZero.string_of_int (Z.to_int n).

Definition digit_value (c : ascii) : option Z :=
  let n := code c in
  if between 48 57 n then Some (Z.of_N (n - 48)) else None.

(** The digits of an [int()] literal: at least one digit, single underscores
    between digits only.  [after_digit] tells whether the character before
    was a digit. *)
Fixpoint parse_digits (acc : Z) (after_digit : bool) (s : string) : option Z :=
  match s with
  | EmptyString => if after_digit then Some acc else None
  | String c r =>
      match digit_value c with
      | Some d => parse_digits (10 * acc + d) true r
      | None =>
          if Ascii.eqb c "_" && after_digit then parse_digits acc false r
          else None
      end
  end.

(** [int(s)]: [None] stands for [ValueError].  The interpreter's optional
    ceiling on the number of digits of a literal is not part of the model. *)
Definition int (s : string) : option Z :=
  match strip_by int_space s with
  | String "-" r => option_map Z.opp (parse_digits 0 false r)
  | String "+" r => parse_digits 0 false r
  | t => parse_digits 0 false t
  end.

(** Text mode with universal newlines: on reading, CR LF and a lone CR
    become LF. *)
Fixpoint universal_newlines (s : string) : string :=
  match s with
  | EmptyString => EmptyString
  | String c r =>
      if Ascii.eqb c CR then
        String LF (match r with
                   | String c' r' =>
                       if Ascii.eqb c' LF then universal_newlines r'
                       else universal_newlines r
                   | EmptyString => EmptyString
                   end)
      else String c (universal_newlines r)
  end.

(** The lines of a text, each with its LF but possibly the last one. *)
Fixpoint splitlines_keepends (s : string) : list string :=
  match s with
  | EmptyString => []
  | String c r =>
      if Ascii.eqb c LF then String LF EmptyString :: splitlines_keepends r
      else match splitlines_keepends r with
           | [] => [String c EmptyString]
           | l :: ls => String c l :: ls
           end
  end.

(** [f.readlines()] of a file opened with [open(path, "r")]. *)
Definition readlines (content : string) : list string :=
  splitlines_keepends (universal_newlines content).

End Py.

Import Py.

(* ================================================================== *)
(** * Configuration *)
(* ================================================================== *)

Definition SERVER_LIMIT_PER_USER : nat := 12.

Definition INSTANCE_TTL_SECONDS : Z := 30 * 24 * 60 * 60.

(** A [dict] with [str] keys written as a literal: the pairs in source
    order (the order [items()] iterates in). *)
Definition dict (V : Type) : Type := list (string * V).

Fixpoint dict_lookup {V : Type} (d : dict V) (key : string) : option V :=
  match d with
  | [] => None
  | (k, v) :: rest => if String.eqb k key then Some v else dict_lookup rest key
  end.

Definition PLANS : dict Z :=
  [ ("basic", 1); ("second", 2); ("tritium", 3); ("loudclass", 4);
    ("growsof", 5); ("akama", 6); ("curious", 7); ("prembasic", 8);
    ("premsecond", 9); ("premtritium", 10); ("kaze", 11); ("null", 12) ]%Z.

(** [None] as a value: the plan is open to anyone. *)
Definition PLAN_ROLE_REQUIREMENTS : dict (option string) :=
  [ ("basic", None); ("second", Some "Basic"); ("tritium", Some "Basic");
    ("loudclass", Some "Basic"); ("growsof", Some "Basic");
    ("akama", Some "Basic"); ("curious", Some "Basic");
    ("prembasic", Some "Premium"); ("premsecond", Some "Premium");
    ("premtritium", Some "Premium"); ("kaze", Some "Premium");
    ("null", Some "Premium") ].

Definition plan_key (plan_name : string) : string :=
  remove_spaces (lower plan_name).

Definition plan_to_memory_str (plan_name : string) : option string :=
  match plan_name with
  | EmptyString => None
  | _ =>
      match dict_lookup PLANS (plan_key plan_name) with
      | Some gb => Some (str_of_int gb ++ "g")
      | None => None
      end
  end.

(* ================================================================== *)
(** * The world: the database file and what the program did *)
(* ================================================================== *)

(** Exceptions the modelled code can meet. *)
Inductive exn : Type :=
| IndexError
| CalledProcessError (output : string)
| OtherException (detail : string).

(** The console blocks the commands send, by what they report. *)
Inductive message : Type :=
| MsgUnknownPlan (plan_name : string)
| MsgPermissionDenied (plan_name : string) (required_role : option string)
| MsgDeploying (os_label plan_name mem_str : string)
| MsgLimitReached
| MsgCreateFailed (err : string)
| MsgUnexpectedError (e : exn)
| MsgTmateFailed (e : exn)
| MsgInstanceCreated (os_label container_id ssh_line plan_name mem_str : string)
| MsgCheckYourDMs
| MsgCaptureFailed
| MsgNoInstanceFound
| MsgSession (container_id ssh_line : string)
| MsgNoSessionCaptured
| MsgInstanceStopped (container_id : string)
| MsgCommandError (e : exn).

Inductive effect : Type :=
| DockerRun (memory image : string)          (* docker run -d --memory m --privileged ... *)
| DockerExecTmate (container_id : string)    (* docker exec cid tmate -F *)
| DockerStart (container_id : string)
| DockerStop (container_id : string)
| DockerRestart (container_id : string)
| DockerRm (container_id : string)           (* docker rm -f cid *)
| FileAppend (text : string)                 (* open(DATABASE_FILE, "a").write(text) *)
| FileRewrite (text : string)                (* open(DATABASE_FILE, "w").write(text) *)
| NotifyDeletion (user container_id ssh_cmd : string)
| Respond (ephemeral : bool) (m : message)   (* interaction.response / followup *)
| DirectMessage (m : message)                (* interaction.user.send *)
| Print (what : string).

Record world : Type := mkWorld {
  db : option string;
  trace : list effect
}.

Definition emit (e : effect) (w : world) : world :=
  {| db := db w; trace := (trace w ++ [e])%list |}.

(** Computations that may raise: the world they leave, and either the
    exception that escaped or the value returned. *)
Definition M (A : Type) : Type := world -> (exn + A) * world.

Definition ret {A : Type} (a : A) : M A := fun w => (inr a, w).

Definition raise {A : Type} (e : exn) : M A := fun w => (inl e, w).

Definition bind {A B : Type} (m : M A) (k : A -> M B) : M B :=
  fun w =>
    match m w with
    | (inl e, w') => (inl e, w')
    | (inr a, w') => k a w'
    end.

Definition try_except {A : Type} (m : M A) (handler : exn -> M A) : M A :=
  fun w =>
    match m w with
    | (inl e, w') => handler e w'
    | (inr a, w') => (inr a, w')
    end.

Definition gets {A : Type} (f : world -> A) : M A := fun w => (inr (f w), w).

Definition modify (f : world -> world) : M unit := fun w => (inr tt, f w).

Definition lift {A : Type} (r : exn + A) : M A := fun w => (r, w).

Declare Scope py_scope.
Delimit Scope py_scope with py.
Notation "x <- m ;; k" := (bind m (fun x => k))
  (at level 61, m at next level, right associativity) : py_scope.
Notation "m ;;; k" := (bind m (fun _ => k))
  (at level 61, right associativity) : py_scope.

(** What [subprocess.run(cmd, check=False)] does with a docker command,
    given the calls made before it: it returns, whatever the exit status
    of the command, or it raises (the program cannot be started). *)
Definition runner : Type := list effect -> effect -> exn + unit.

(** One such call: the call is recorded, then it returns or raises. *)
Definition subprocess_run (run : runner) (cmd : effect) : M unit :=
  fun w => (run (trace w) cmd, emit cmd w).

(* ================================================================== *)
(** * DB helpers *)
(* ================================================================== *)

Definition PIPE : ascii := "|"%char.

Definition NL : string := String LF EmptyString.

(** [f"{user}|{container_id}|{ssh_command}|{ts}"] *)
Definition record_line (user container_id ssh_command : string) (ts : Z)
  : string :=
  user ++ "|" ++ container_id ++ "|" ++ ssh_command ++ "|" ++ str_of_int ts.

(** [now] is what [int(time.time())] evaluates to during the call. *)
Definition add_to_database (now : Z) (user container_id ssh_command : string)
  (w : world) : world :=
  let ts := now in
  let line := record_line user container_id ssh_command ts ++ NL in
  {| db := Some (match db w with
                 | None => line
                 | Some old => old ++ line
                 end);
     trace := (trace w ++ [FileAppend line])%list |}.

Definition nonempty (s : string) : bool :=
  match s with
  | EmptyString => false
  | String _ _ => true
  end.

Definition read_database_lines (w : world) : list string :=
  match db w with
  | None => []
  | Some content => filter nonempty (map strip (readlines content))
  end.

Definition database_text (lines : list string) : string :=
  join NL lines ++ match lines with [] => EmptyString | _ => NL end.

Definition write_database_lines (lines : list string) (w : world) : world :=
  {| db := Some (database_text lines);
     trace := (trace w ++ [FileRewrite (database_text lines)])%list |}.

(** [l.split("|")[1]] *)
Definition second_field (l : string) : exn + string :=
  match split PIPE l with
  | _ :: f :: _ => inr f
  | _ => inl IndexError
  end.

(** [[l for l in lines if not (l.split("|")[1] == container_id)]] *)
Fixpoint lines_without_container (container_id : string) (lines : list string)
  : exn + list string :=
  match lines with
  | [] => inr []
  | l :: rest =>
      match second_field l with
      | inl e => inl e
      | inr f =>
          match lines_without_container container_id rest with
          | inl e => inl e
          | inr kept =>
              inr (if String.eqb f container_id then kept else l :: kept)
          end
      end
  end.

Definition remove_from_database_by_container (container_id : string) : M unit :=
  (lines <- gets read_database_lines ;;
   new_lines <- lift (lines_without_container container_id lines) ;;
   modify (write_database_lines new_lines))%py.

Definition int_or_zero (ts : string) : Z :=
  match int ts with
  | Some n => n
  | None => 0%Z
  end.

(** The body of the loop of [get_user_servers] for one line. *)
Definition user_server_of_line (user line : string)
  : list (string * string * Z) :=
  match split PIPE line with
  | [u; cid; ssh_cmd; ts] =>
      if String.eqb u user then [(cid, ssh_cmd, int_or_zero ts)] else []
  | _ => []
  end.

Fixpoint user_servers_of_lines (user : string) (lines : list string)
  : list (string * string * Z) :=
  match lines with
  | [] => []
  | line :: rest =>
      (user_server_of_line user line ++ user_servers_of_lines user rest)%list
  end.

Definition get_user_servers (user : string) (w : world)
  : list (string * string * Z) :=
  user_servers_of_lines user (read_database_lines w).

Definition count_user_servers (user : string) (w : world) : nat :=
  List.length (get_user_servers user w).

Fixpoint first_matching_container (container_name_or_ssh : string)
  (servers : list (string * string * Z)) : option string :=
  match servers with
  | [] => None
  | (cid, ssh_cmd, _) :: rest =>
      if String.eqb container_name_or_ssh cid
         || contains container_name_or_ssh ssh_cmd
      then Some cid
      else first_matching_container container_name_or_ssh rest
  end.

Definition find_container_for_user_by_name (user container_name_or_ssh : string)
  (w : world) : option string :=
  first_matching_container container_name_or_ssh (get_user_servers user w).

(* ================================================================== *)
(** * Capturing the connection line *)
(* ================================================================== *)

(** What one turn of the loop finds when it waits for a line of the
    helper's output. *)
Inductive read_event : Type :=
| ReadTimeout                        (* no line within 1.0 s: asyncio.TimeoutError *)
| ReadEof                            (* readline() gave b"": the loop sleeps 0.1 s *)
| ReadLine (ms : N) (text : string). (* a line after ms milliseconds, decoded *)

(** The helper process: the reads still to come.  A process with no read
    left stays silent, every further wait times out. *)
Definition process : Type := list read_event.

Definition looks_like_session (s : string) : bool :=
  let low := lower s in
  if contains "ssh session" low
     || (contains "ssh" low && (contains "@" s || contains "-p" s))
  then true
  else if contains "forwarding" low || contains "http" low
  then true
  else false.

(** The loop [while time.time() < deadline], with the time since the call
    in milliseconds. *)
Fixpoint capture_loop (deadline elapsed : N) (proc : process)
  : option string * process :=
  if (elapsed <? deadline)%N then
    match proc with
    | [] => (None, [])
    | ReadTimeout :: rest => capture_loop deadline (elapsed + 1000) rest
    | ReadEof :: rest => capture_loop deadline (elapsed + 100) rest
    | ReadLine ms text :: rest =>
        let s := strip text in
        if negb (nonempty s) then capture_loop deadline (elapsed + ms) rest
        else if looks_like_session s then (Some s, rest)
        else capture_loop deadline (elapsed + ms) rest
    end
  else (None, proc).

Definition capture_ssh_session_line_from_process (proc : process)
  (timeout : N) : option string * process :=
  capture_loop (1000 * timeout) 0 proc.

(** Truth value of an [Optional[str]]. *)
Definition truthy (o : option string) : bool :=
  match o with
  | Some s => nonempty s
  | None => false
  end.

(* ================================================================== *)
(** * Expiry sweeper *)
(* ================================================================== *)

Definition removed_item : Type := (string * string * string)%type.

(** [try: subprocess.run(stop); subprocess.run(rm)]
    [except Exception: pass]: a stop that raises skips the removal. *)
Definition stop_and_remove (run : runner) (cid : string) : M unit :=
  try_except
    (subprocess_run run (DockerStop cid) ;;;
     subprocess_run run (DockerRm cid))%py
    (fun _ => ret tt).

(** The scan [for line in lines] of [cleanup_old_instances]: for every
    record that is too old, the two docker calls, then the record is
    collected whatever became of them. *)
Fixpoint scan_lines (run : runner) (now : Z) (lines : list string)
  (removed_items : list removed_item) (w : world)
  : list removed_item * world :=
  match lines with
  | [] => (removed_items, w)
  | line :: rest =>
      match split PIPE line with
      | [user; cid; ssh_cmd; ts] =>
          let created := int_or_zero ts in
          let age := (now - created)%Z in
          if (INSTANCE_TTL_SECONDS <=? age)%Z then
            scan_lines run now rest
                       (removed_items ++ [(user, cid, ssh_cmd)])%list
                       (snd (stop_and_remove run cid w))
          else scan_lines run now rest removed_items w
      | _ => scan_lines run now rest removed_items w
      end
  end.

(** [any((l.split("|")[1] == cid) for (_, cid, _) in removed_items)] *)
Fixpoint any_removed (l : string) (removed_items : list removed_item)
  : exn + bool :=
  match removed_items with
  | [] => inr false
  | (_, cid, _) :: rest =>
      match second_field l with
      | inl e => inl e
      | inr f => if String.eqb f cid then inr true else any_removed l rest
      end
  end.

(** [[l for l in lines if not any(...)]] *)
Fixpoint remaining_lines (lines : list string)
  (removed_items : list removed_item) : exn + list string :=
  match lines with
  | [] => inr []
  | l :: rest =>
      match any_removed l removed_items with
      | inl e => inl e
      | inr gone =>
          match remaining_lines rest removed_items with
          | inl e => inl e
          | inr kept => inr (if gone then kept else l :: kept)
          end
      end
  end.

(** [for user, cid, ssh_cmd in removed_items: await notify_deletion(...)].
    One [NotifyDeletion] is one call of [notify_deletion], which writes to
    the owner and to the log channels through the chat gateway. *)
Fixpoint notify_removed (removed_items : list removed_item) (w : world)
  : world :=
  match removed_items with
  | [] => w
  | (user, cid, ssh_cmd) :: rest =>
      notify_removed rest (emit (NotifyDeletion user cid ssh_cmd) w)
  end.

(** One run of the periodic task; [now] is [int(time.time())], [run] what
    becomes of the docker calls. *)
Definition cleanup_old_instances (run : runner) (now : Z) (w : world) : world :=
  let lines := read_database_lines w in
  match lines with
  | [] => w
  | _ =>
      let (removed_items, w1) := scan_lines run now lines [] w in
      match removed_items with
      | [] => w1
      | _ =>
          match remaining_lines lines removed_items with
          | inl e => emit (Print "Cleanup error:") w1
          | inr remain_lines =>
              notify_removed removed_items
                             (write_database_lines remain_lines w1)
          end
      end
  end.

(* ================================================================== *)
(** * Role check *)
(* ================================================================== *)

(** What a command sees of the interaction: the requester's name
    ([str(interaction.user)]), the role names of the member resolved in the
    guild of the request ([None] when no member can be resolved), and
    whether a direct message to the requester gets through. *)
Record interaction : Type := mkInteraction {
  user_str : string;
  member_roles : option (list string);
  dm_ok : bool
}.

(** [for r in member.roles: if r.name.lower() == required.lower(): ...] *)
Fixpoint has_role (required : string) (roles : list string) : bool :=
  match roles with
  | [] => false
  | r :: rest =>
      if String.eqb (lower r) (lower required) then true
      else has_role required rest
  end.

(** [PLAN_ROLE_REQUIREMENTS.get(key)]: [None] for a key that is absent
    and for a key bound to [None]. *)
Definition required_role_of (plan_name : string) : option string :=
  match dict_lookup PLAN_ROLE_REQUIREMENTS (plan_key plan_name) with
  | Some (Some required) => Some required
  | _ => None
  end.

Definition user_has_required_role_for_plan (i : interaction)
  (plan_name : string) : bool * option string :=
  match required_role_of plan_name with
  | None => (true, None)
  | Some required =>
      match member_roles i with
      | Some roles =>
          if has_role required roles then (true, Some required)
          else (false, Some required)
      | None => (false, Some required)
      end
  end.

(* ================================================================== *)
(** * Commands *)
(* ================================================================== *)

Definition respond (ephemeral : bool) (m : message) : M unit :=
  modify (emit (Respond ephemeral m)).

(** [try: await interaction.user.send(m); respond(check your DMs)]
    [except Exception: respond(m) to the channel] *)
Definition tell_owner (i : interaction) (m : message) : M unit :=
  if dm_ok i
  then (modify (emit (DirectMessage m)) ;;; respond true MsgCheckYourDMs)%py
  else respond false m.

(** Deploy.  [run] is the outcome of [docker run] (its output, or the
    exception [check_output] raised), [exec] the outcome of starting
    [tmate -F] in the container, [now] the clock when the record is
    written. *)
Definition create_instance_task (i : interaction)
  (image os_label plan_name : string)
  (run : exn + string) (exec : exn + process) (now : Z) (w : world) : world :=
  match plan_to_memory_str plan_name with
  | None => emit (Respond true (MsgUnknownPlan plan_name)) w
  | Some mem_str =>
      let (allowed, required_role) :=
        user_has_required_role_for_plan i plan_name in
      if negb allowed then
        emit (Respond true (MsgPermissionDenied plan_name required_role)) w
      else
        let w := emit (Respond true (MsgDeploying os_label plan_name mem_str)) w in
        let user := user_str i in
        if (SERVER_LIMIT_PER_USER <=? count_user_servers user w)%nat then
          emit (Respond true MsgLimitReached) w
        else
          let w := emit (DockerRun mem_str image) w in
          match run with
          | inl (CalledProcessError err) =>
              emit (Respond true (MsgCreateFailed err)) w
          | inl e => emit (Respond true (MsgUnexpectedError e)) w
          | inr out =>
              let container_id := strip out in
              let w := emit (DockerExecTmate container_id) w in
              match exec with
              | inl e =>
                  emit (Respond true (MsgTmateFailed e))
                       (emit (DockerRm container_id) w)
              | inr proc =>
                  let (ssh_line, proc) :=
                    capture_ssh_session_line_from_process proc 25 in
                  let ssh_line :=
                    if negb (truthy ssh_line)
                    then fst (capture_ssh_session_line_from_process proc 10)
                    else ssh_line in
                  match ssh_line with
                  | Some (String _ _ as ssh_line) =>
                      let db_ssh := ssh_line ++ " | plan=" ++ plan_name in
                      let w := add_to_database now user container_id db_ssh w in
                      snd (tell_owner i
                             (MsgInstanceCreated os_label container_id ssh_line
                                                 plan_name mem_str) w)
                  | _ =>
                      emit (Respond true MsgCaptureFailed)
                           (emit (DockerRm container_id) w)
                  end
              end
          end
  end.

(** The loop that start, restart and regen-ssh run over the lines once a
    new session line is captured: the third field of every four-field line
    of the container is replaced. *)
Fixpoint lines_with_session (cid ssh_line : string) (lines : list string)
  : exn + list string :=
  match lines with
  | [] => inr []
  | l :: rest =>
      match second_field l with
      | inl e => inl e
      | inr f =>
          let l' :=
            if String.eqb f cid then
              match split PIPE l with
              | [p0; p1; _; p3] => join "|" [p0; p1; ssh_line; p3]
              | _ => l
              end
            else l in
          match lines_with_session cid ssh_line rest with
          | inl e => inl e
          | inr new => inr (l' :: new)
          end
      end
  end.

Definition store_session (cid ssh_line : string) : M unit :=
  (lines <- gets read_database_lines ;;
   new <- lift (lines_with_session cid ssh_line lines) ;;
   modify (write_database_lines new))%py.

(** [docker exec cid tmate -F], a capture of 15 s, and on success the
    rewrite of the store and the word to the owner. *)
Definition recapture (i : interaction) (cid : string) (exec : exn + process)
  (on_failure : message) : M unit :=
  (modify (emit (DockerExecTmate cid)) ;;;
   proc <- lift exec ;;
   match fst (capture_ssh_session_line_from_process proc 15) with
   | Some (String _ _ as ssh_line) =>
       store_session cid ssh_line ;;;
       tell_owner i (MsgSession cid ssh_line)
   | _ => respond true on_failure
   end)%py.

Definition except_CalledProcessError (m : M unit) : M unit :=
  try_except m (fun e =>
    match e with
    | CalledProcessError _ => respond true (MsgCommandError e)
    | _ => raise e
    end).

Definition except_Exception (m : M unit) : M unit :=
  try_except m (fun e => respond true (MsgCommandError e)).

(** [started]: what [subprocess.run(["docker", "start", cid], check=True)]
    does, return or raise. *)
Definition cmd_start (i : interaction) (container_name : string)
  (started : exn + unit) (exec : exn + process) : M unit :=
  fun w =>
    match find_container_for_user_by_name (user_str i) container_name w with
    | Some (String _ _ as cid) =>
        except_CalledProcessError
          (modify (emit (DockerStart cid)) ;;;
           lift started ;;;
           recapture i cid exec MsgNoSessionCaptured)%py w
    | _ => respond true MsgNoInstanceFound w
    end.

Definition cmd_stop (i : interaction) (container_name : string)
  (stopped : exn + unit) : M unit :=
  fun w =>
    match find_container_for_user_by_name (user_str i) container_name w with
    | Some (String _ _ as cid) =>
        except_CalledProcessError
          (modify (emit (DockerStop cid)) ;;;
           lift stopped ;;;
           respond true (MsgInstanceStopped cid))%py w
    | _ => respond true MsgNoInstanceFound w
    end.

Definition cmd_restart (i : interaction) (container_name : string)
  (restarted : exn + unit) (exec : exn + process) : M unit :=
  fun w =>
    match find_container_for_user_by_name (user_str i) container_name w with
    | Some (String _ _ as cid) =>
        except_CalledProcessError
          (modify (emit (DockerRestart cid)) ;;;
           lift restarted ;;;
           recapture i cid exec MsgNoSessionCaptured)%py w
    | _ => respond true MsgNoInstanceFound w
    end.

Definition cmd_regen_ssh (i : interaction) (container_name : string)
  (exec : exn + process) : M unit :=
  fun w =>
    match find_container_for_user_by_name (user_str i) container_name w with
    | Some (String _ _ as cid) =>
        except_Exception (recapture i cid exec MsgCaptureFailed) w
    | _ => respond true MsgNoInstanceFound w
    end.

(* ================================================================== *)
(** * Utilities and console blocks *)
(* ================================================================== *)

(** The probes of [get_public_ip], in the order they are tried. *)
Definition probes : list string :=
  [ "curl -s ifconfig.me";
    "curl -s icanhazip.com";
    "dig +short myip.opendns.com @resolver1.opendns.com" ].

(** [for cmd in probes: ...], with [check_output cmd] what running the
    command gives: its output decoded, or the exception raised (non-zero
    exit, time-out, undecodable output). *)
Fixpoint first_answer (check_output : string -> exn + string)
  (cmds : list string) : string :=
  match cmds with
  | [] => "0.0.0.0"
  | cmd :: rest =>
      match check_output cmd with
      | inr out =>
          let ip := strip out in
          if nonempty ip then ip else first_answer check_output rest
      | inl _ => first_answer check_output rest
      end
  end.

Definition get_public_ip (check_output : string -> exn + string) : string :=
  first_answer check_output probes.

Definition FENCE : string := "```".

(** [console_block(lines)]: the lines, each after ["| "], between the
    fences of a text block. *)
Definition console_block (lines : list string) : string :=
  let body := join NL (map (fun l => "| " ++ l) lines) in
  FENCE ++ "text" ++ NL ++ body ++ NL ++ FENCE.

(* ================================================================== *)
(** * Notifications and manual removal *)
(* ================================================================== *)

(** What the chat gateway knows when a notification is sent.  A send that
    raises is a [false] in [accepts_dm] or [accepts_post]. *)
Record member : Type := mkMember {
  member_id : Z;
  accepts_dm : bool
}.

Record text_channel : Type := mkTextChannel {
  channel_id : Z;
  channel_name : string;
  accepts_post : bool
}.

(** What [bot.get_channel] may return. *)
Inductive any_channel : Type :=
| TextChannel (c : text_channel)
| OtherChannel.

Record guild : Type := mkGuild {
  get_member_named : string -> option member;
  text_channels : list text_channel
}.

Record gateway : Type := mkGateway {
  LOG_CHANNEL_ID : option Z;
  get_channel : Z -> option any_channel;
  guilds : list guild
}.

(** [for guild in bot.guilds: for ch in guild.text_channels:]
    [if ch.name == "instance-logs": channels.append(ch)] *)
Fixpoint channels_named_instance_logs (gs : list guild) : list text_channel :=
  match gs with
  | [] => []
  | g :: rest =>
      (filter (fun ch => String.eqb (channel_name ch) "instance-logs")
              (text_channels g)
       ++ channels_named_instance_logs rest)%list
  end.

Definition find_log_channels (bot : gateway) : list text_channel :=
  let channels :=
    match LOG_CHANNEL_ID bot with
    | Some id =>
        if (id =? 0)%Z then []
        else match get_channel bot id with
             | Some (TextChannel ch) => [ch]
             | _ => []
             end
    | None => []
    end in
  match channels with
  | [] => channels_named_instance_logs (guilds bot)
  | _ => channels
  end.

(** The texts sent about a deletion or a removal, by what they say. *)
Inductive note : Type :=
| AutoDeletedToOwner (container_id ssh_cmd reason : string)
| AutoDeletedToLog (owner container_id ssh_cmd : string)
| RemovedToOwner (container_id : string)
| RemovedToLog (owner container_id : string)
| RemovedAnswer (container_id : string)
| RemoveErrorAnswer (e : exn)
| NotFoundAnswer.

(** A message that got through, or a line printed. *)
Inductive delivery : Type :=
| ToMember (m : member) (n : note)
| ToRequester (n : note)
| ToChannel (ch : text_channel) (n : note)
| ToStdout (n : note)
| Answer (ephemeral : bool) (n : note).

(** The first guild that knows the name: [for guild in bot.guilds:]
    [member = guild.get_member_named(user_str); if member: ...; break] *)
Fixpoint first_member_named (user : string) (gs : list guild) : option member :=
  match gs with
  | [] => None
  | g :: rest =>
      match get_member_named g user with
      | Some m => Some m
      | None => first_member_named user rest
      end
  end.

(** [for ch in channels: try: await ch.send(...) except: pass] *)
Definition post_to (channels : list text_channel) (n : note) : list delivery :=
  map (fun ch => ToChannel ch n) (filter accepts_post channels).

Definition notify_deletion (bot : gateway)
  (user container_id ssh_cmd reason : string) : list delivery :=
  let dm :=
    match first_member_named user (guilds bot) with
    | Some m =>
        if accepts_dm m
        then [ToMember m (AutoDeletedToOwner container_id ssh_cmd reason)]
        else []
    | None => []
    end in
  let dm_sent := match dm with [] => false | _ => true end in
  let log := AutoDeletedToLog user container_id ssh_cmd in
  let channels := find_log_channels bot in
  (dm ++ post_to channels log
   ++ match channels with
      | [] => if dm_sent then [] else [ToStdout log]
      | _ => []
      end)%list.

(** /remove.  The docker calls and the rewrite go to the trace of the
    world; the messages that follow them (or the lone answer when nothing
    resolves, or when a call or the rewrite raises) are the deliveries
    returned.  [run] is what becomes of the two docker calls. *)
Definition cmd_remove (run : runner) (bot : gateway) (i : interaction)
  (container_name : string) (w : world) : world * list delivery :=
  match find_container_for_user_by_name (user_str i) container_name w with
  | Some (String _ _ as cid) =>
      match (subprocess_run run (DockerStop cid) ;;;
             subprocess_run run (DockerRm cid) ;;;
             remove_from_database_by_container cid)%py w with
      | (inr _, w2) =>
          (w2,
           ((if dm_ok i then [ToRequester (RemovedToOwner cid)] else [])
            ++ post_to (find_log_channels bot)
                       (RemovedToLog (user_str i) cid)
            ++ [Answer true (RemovedAnswer cid)])%list)
      | (inl e, w2) => (w2, [Answer true (RemoveErrorAnswer e)])
      end
  | _ => (w, [Answer true NotFoundAnswer])
  end.

(* ================================================================== *)
(** * Start-up: the file and the configured log channel *)
(* ================================================================== *)

(** [ensure_database_file_exists()]: [with open(DATABASE_FILE, "a"): pass].
    [DATABASE_FILE] is a global read when the function runs: where it is
    not bound yet, reading it raises [NameError] in the [try], and again in
    the handler, whose message reads it too; that one escapes.  Where it
    is bound, opening for append creates a missing file and leaves an
    existing one as it is, and an open that raises is printed. *)
Definition NameError : exn :=
  OtherException "NameError: name 'DATABASE_FILE' is not defined".

Definition ensure_database_file_exists (DATABASE_FILE_bound can_open : bool)
  : M unit :=
  if DATABASE_FILE_bound then
    if can_open then
      modify (fun w => {| db := Some (match db w with
                                      | None => EmptyString
                                      | Some old => old
                                      end);
                          trace := trace w |})
    else modify (emit (Print "Warning: failed to ensure database.txt exists:"))
  else raise NameError.

(** The module, as far as it is executed when it is loaded: the function
    is defined at line 23 and called at line 32, the assignment
    [DATABASE_FILE = "database.txt"] is at line 45.  What follows an
    exception that escapes is not executed. *)
Definition module_load (can_open : bool) : M unit :=
  ensure_database_file_exists false can_open.

(** The module-level [LOG_CHANNEL_ID], from the environment variable of
    that name ([None] when it is not set):
    [_raw_log_id = os.getenv("LOG_CHANNEL_ID", "").strip()], then
    [int(_raw_log_id)] if that is not empty, [None] if [int] raises. *)
Definition LOG_CHANNEL_ID_of_env (env : option string) : option Z :=
  let _raw_log_id :=
    strip (match env with Some v => v | None => EmptyString end) in
  if nonempty _raw_log_id then int _raw_log_id else None.

(* ================================================================== *)
(** * Vocabulary of the statements *)
(* ================================================================== *)

(** [c in s] for one character. *)
Fixpoint has_char (c : ascii) (s : string) : bool :=
  match s with
  | EmptyString => false
  | String a r => Ascii.eqb a c || has_char c r
  end.

Fixpoint count_char (c : ascii) (s : string) : nat :=
  match s with
  | EmptyString => 0
  | String a r => (if Ascii.eqb a c then 1 else 0) + count_char c r
  end.

Fixpoint all_chars (p : ascii -> bool) (s : string) : bool :=
  match s with
  | EmptyString => true
  | String a r => p a && all_chars p r
  end.

Definition decimal_char (c : ascii) : bool :=
  between 48 57 (code c) || Ascii.eqb c "-".

(** [needle] occurs in [hay]. *)
Definition substring_of (needle hay : string) : Prop :=
  exists before after, hay = before ++ needle ++ after.

(** Two names match without regard to case. *)
Definition same_ignoring_case (a b : string) : Prop := lower a = lower b.

(** A line as the store keeps it: not empty, no blank at either end, no
    line break inside. *)
Definition clean_line (l : string) : bool :=
  nonempty l && String.eqb (strip l) l
  && negb (has_char LF l) && negb (has_char CR l).

(** A record in the sense of the data model. *)
Record record : Type := mkRecord {
  owner : string;
  instance_id : string;
  connection_string : string;
  created_at : Z
}.

Definition line_of_record (r : record) : string :=
  record_line (owner r) (instance_id r) (connection_string r) (created_at r).

Definition plain_field (s : string) : bool :=
  negb (has_char PIPE s) && negb (has_char LF s) && negb (has_char CR s).

(** A record the four-field format can hold: no separator and no line break
    in a text field, and no blank in front of the owner (the first thing
    on its line). *)
Definition well_formed (r : record) : bool :=
  plain_field (owner r) && plain_field (instance_id r)
  && plain_field (connection_string r)
  && String.eqb (lstrip_by isspace (owner r)) (owner r).

Definition view (r : record) : string * string * Z :=
  (instance_id r, connection_string r, created_at r).

Definition owned_by (user : string) (r : record) : bool :=
  String.eqb (owner r) user.

(** The capability tags of the requester where the request was made. *)
Definition capability_tags (i : interaction) : list string :=
  match member_roles i with
  | Some roles => roles
  | None => []
  end.

(** The words of the claim for a connection descriptor, with
    "case-insensitively" read over the whole sentence: every key word is
    looked for without regard to case. *)
Definition descriptor_as_claimed (s : string) : Prop :=
  substring_of "ssh session" (lower s)
  \/ (substring_of "ssh" (lower s)
      /\ (substring_of "@" (lower s) \/ substring_of "-p" (lower s)))
  \/ substring_of "forwarding" (lower s)
  \/ substring_of "http" (lower s).

(** The same words with "case-insensitively" read over "ssh session"
    alone: the other key words are looked for as they are written. *)
Definition descriptor_as_claimed_narrowly (s : string) : Prop :=
  substring_of "ssh session" (lower s)
  \/ (substring_of "ssh" s /\ (substring_of "@" s \/ substring_of "-p" s))
  \/ substring_of "forwarding" s
  \/ substring_of "http" s.

(** The claim as amended: the four key words are looked for without
    regard to case, ["@"] and ["-p"] in the line as it is. *)
Definition descriptor (s : string) : Prop :=
  substring_of "ssh session" (lower s)
  \/ (substring_of "ssh" (lower s)
      /\ (substring_of "@" s \/ substring_of "-p" s))
  \/ substring_of "forwarding" (lower s)
  \/ substring_of "http" (lower s).

(** Milliseconds one turn of the capture loop takes. *)
Definition wait_of (e : read_event) : N :=
  match e with
  | ReadTimeout => 1000
  | ReadEof => 100
  | ReadLine ms _ => ms
  end.

Fixpoint waited (events : list read_event) : N :=
  match events with
  | [] => 0
  | e :: rest => wait_of e + waited rest
  end.

(** A read the capture goes past: anything but a descriptor line. *)
Definition passed_over (e : read_event) : Prop :=
  match e with
  | ReadLine _ text => ~ descriptor (strip text)
  | _ => True
  end.

(** The words of the claim for an operation that rewrites the connection
    string of the record of owner [user] and instance id [cid]: the
    records of every other owner are listed as they were, and so are the
    records of that owner, but for the connection string of the records
    of that instance id. *)
Definition frame_as_claimed (user cid : string) (w w' : world) : Prop :=
  (forall u, u <> user -> get_user_servers u w' = get_user_servers u w)
  /\ Forall2 (fun r r' : string * string * Z =>
                fst (fst r') = fst (fst r) /\ snd r' = snd r
                /\ (fst (fst r) <> cid -> r' = r))
             (get_user_servers user w) (get_user_servers user w').

(** No other owner has a record with the instance id [cid]. *)
Definition sole_owner (user cid : string) (w : world) : Prop :=
  forall u, u <> user ->
  forall r, In r (get_user_servers u w) -> fst (fst r) <> cid.

(** A stored record with the connection string of container [cid]
    replaced. *)
Definition with_session (cid ssh_line : string) (server : string * string * Z)
  : string * string * Z :=
  let '(c, old, ts) := server in
  if String.eqb c cid then (c, ssh_line, ts) else server.

(** A line before and after a rewrite of the session of [cid]: kept as it
    is, or a four-field line of [cid] whose first, second and fourth field are
    kept. *)
Definition line_frame (cid ssh_line l l' : string) : Prop :=
  l' = l
  \/ exists o old ts,
       split PIPE l = [o; cid; old; ts]
       /\ l' = o ++ "|" ++ cid ++ "|" ++ ssh_line ++ "|" ++ ts.

(** The store before and after a rewrite of the session of [cid], as
    the commands have it: line by line, and record by record when the
    new line is a plain field. *)
Definition session_frame (cid ssh_line : string) (w w' : world) : Prop :=
  exists new,
    db w' = Some (database_text new)
    /\ Forall2 (line_frame cid ssh_line) (read_database_lines w) new
    /\ (plain_field ssh_line = true ->
        forall user,
          get_user_servers user w'
          = map (with_session cid ssh_line) (get_user_servers user w)).

(** The line a controller command captures (15 s). *)
Definition recaptured (exec : exn + process) : option string :=
  match exec with
  | inr proc => fst (capture_ssh_session_line_from_process proc 15)
  | inl _ => None
  end.

(** What a controller command may do to the store: nothing, or rewrite the
    session of the container it resolved with the line it captured. *)
Definition controller_frame_of (i : interaction) (container_name : string)
  (exec : exn + process) (w w' : world) : Prop :=
  db w' = db w
  \/ exists cid ssh_line,
       find_container_for_user_by_name (user_str i) container_name w = Some cid
       /\ recaptured exec = Some ssh_line
       /\ session_frame cid ssh_line w w'.

(** The instance id a line carries: its second field. *)
Definition line_cid (l : string) : string :=
  match split PIPE l with
  | _ :: cid :: _ => cid
  | _ => EmptyString
  end.

(** A record whose age, [now - created_at], has reached the TTL; the
    creation time of a record whose fourth field is no integer counts
    as 0. *)
Definition expired_line (now : Z) (l : string) : bool :=
  match split PIPE l with
  | [_; _; _; ts] => (INSTANCE_TTL_SECONDS <=? now - int_or_zero ts)%Z
  | _ => false
  end.

Definition item_of_line (l : string) : removed_item :=
  match split PIPE l with
  | [user; cid; ssh_cmd; _] => (user, cid, ssh_cmd)
  | _ => (EmptyString, line_cid l, EmptyString)
  end.

Definition teardown_of (l : string) : list effect :=
  [DockerStop (line_cid l); DockerRm (line_cid l)].

(** The docker calls of one run for the lines [gone], made after the
    calls [t]: for each line [docker stop], and [docker rm -f] when the
    stop returned. *)
Fixpoint teardown (run : runner) (t : list effect) (gone : list string)
  : list effect :=
  match gone with
  | [] => []
  | l :: rest =>
      let calls :=
        DockerStop (line_cid l)
        :: match run t (DockerStop (line_cid l)) with
           | inr _ => [DockerRm (line_cid l)]
           | inl _ => []
           end in
      (calls ++ teardown run (t ++ calls) rest)%list
  end.

(** No [docker stop] raises. *)
Definition stops_return (run : runner) : Prop :=
  forall t cid, run t (DockerStop cid) = inr tt.

(** Two runners: every call returns; every call raises, as when there is
    no docker program to start. *)
Definition docker_runs : runner := fun _ _ => inr tt.

Definition docker_missing : runner :=
  fun _ _ => inl (OtherException "FileNotFoundError").

Definition notification_of (l : string) : effect :=
  let '(user, cid, ssh_cmd) := item_of_line l in
  NotifyDeletion user cid ssh_cmd.

(** The line carries the instance id of one of the lines [gone]. *)
Definition shares_instance (gone : list string) (l : string) : bool :=
  existsb (fun g => String.eqb (line_cid l) (line_cid g)) gone.

Fixpoint count_rewrites (t : list effect) : nat :=
  match t with
  | [] => 0
  | FileRewrite _ :: rest => S (count_rewrites rest)
  | _ :: rest => count_rewrites rest
  end.

(** The words of the claim on the sweeper, one by one.
    "Issues stop/destroy for each such record's instance." *)
Definition destroys_each_expired (run : runner) (now : Z) (w : world) : Prop :=
  forall l,
    In l (read_database_lines w) -> expired_line now l = true ->
    In (DockerStop (line_cid l)) (trace (cleanup_old_instances run now w))
    /\ In (DockerRm (line_cid l)) (trace (cleanup_old_instances run now w)).

(** "Removes exactly those records ...": a record that is not expired
    stays. *)
Definition keeps_all_non_expired (run : runner) (now : Z) (w : world) : Prop :=
  forall l,
    In l (read_database_lines w) -> expired_line now l = false ->
    In l (read_database_lines (cleanup_old_instances run now w)).

(** "Every sweeper run rewrites the store exactly once." *)
Definition rewrites_exactly_once (run : runner) (now : Z) (w : world) : Prop :=
  count_rewrites (trace (cleanup_old_instances run now w))
  = S (count_rewrites (trace w)).

(** The text of the file; none for a file that does not exist. *)
Definition file_text (w : world) : string :=
  match db w with
  | Some text => text
  | None => EmptyString
  end.

(** The file is absent, empty, or ends with a line break: what is appended
    to it starts a line of its own. *)
Definition tidy (w : world) : Prop :=
  db w = None \/ db w = Some "" \/ exists text, db w = Some (text ++ NL).

(** The container of a stored record is not [cid]. *)
Definition other_container (cid : string) (server : string * string * Z)
  : bool :=
  negb (String.eqb (fst (fst server)) cid).

(** A text without line break. *)
Definition no_break (s : string) : bool :=
  negb (has_char LF s) && negb (has_char CR s).

(** The container a docker command is about, but for [docker run], which
    names none. *)
Definition docker_target (e : effect) : option string :=
  match e with
  | DockerExecTmate cid | DockerStart cid | DockerStop cid
  | DockerRestart cid | DockerRm cid => Some cid
  | _ => None
  end.

(** The lines the helper prints hold no line break once stripped. *)
Definition prints_single_lines (proc : process) : Prop :=
  forall ms text, In (ReadLine ms text) proc -> no_break (strip text) = true.

(** The store has a four-field line of that owner for that container. *)
Definition owns (user cid : string) (w : world) : Prop :=
  exists l ssh ts,
    In l (read_database_lines w) /\ split PIPE l = [user; cid; ssh; ts].


(** The owner's direct message about a deletion gets through. *)
Definition dm_delivered (bot : gateway) (user : string) : bool :=
  match first_member_named user (guilds bot) with
  | Some m => accepts_dm m
  | None => false
  end.

(** One probe gives no address: it fails, or prints only blanks. *)
Definition no_answer (r : exn + string) : Prop :=
  match r with
  | inr out => strip out = EmptyString
  | inl _ => True
  end.

Fixpoint count_member_messages (ds : list delivery) : nat :=
  match ds with
  | [] => 0
  | ToMember _ _ :: rest => S (count_member_messages rest)
  | _ :: rest => count_member_messages rest
  end.

(* ================================================================== *)
(** * Lemmas on the string primitives *)
(* ================================================================== *)

Section StringFacts.

Lemma append_empty_r (s : string) : s ++ "" = s.
Proof. induction s as [|c s IH]; simpl; [reflexivity | now rewrite IH]. Qed.

Lemma append_assoc (a b c : string) : (a ++ b) ++ c = a ++ (b ++ c).
Proof. induction a as [|x a IH]; simpl; [reflexivity | now rewrite IH]. Qed.

Lemma has_char_app (c : ascii) (a b : string) :
  has_char c (a ++ b) = has_char c a || has_char c b.
Proof.
  induction a as [|x a IH]; simpl; [reflexivity|].
  rewrite IH. now rewrite orb_assoc.
Qed.

Lemma count_char_app (c : ascii) (a b : string) :
  count_char c (a ++ b) = count_char c a + count_char c b.
Proof.
  induction a as [|x a IH]; simpl; [reflexivity|]. rewrite IH. lia.
Qed.

Lemma has_char_count (c : ascii) (s : string) :
  has_char c s = true -> 1 <= count_char c s.
Proof.
  induction s as [|x s IH]; simpl; [discriminate|].
  destruct (Ascii.eqb x c); simpl; intros H; [lia | auto].
Qed.

Lemma count_char_zero (c : ascii) (s : string) :
  has_char c s = false -> count_char c s = 0.
Proof.
  induction s as [|x s IH]; simpl; [reflexivity|].
  destruct (Ascii.eqb x c); simpl; [discriminate | auto].
Qed.

(** ** [split] *)

Lemma split_not_nil (sep : ascii) (s : string) : split sep s <> [].
Proof.
  induction s as [|c s IH]; simpl; [discriminate|].
  destruct (Ascii.eqb c sep); [discriminate|].
  destruct (split sep s); discriminate.
Qed.

Lemma split_length (sep : ascii) (s : string) :
  List.length (split sep s) = S (count_char sep s).
Proof.
  induction s as [|c s IH]; simpl; [reflexivity|].
  destruct (Ascii.eqb c sep); simpl; [now rewrite IH|].
  destruct (split sep s); simpl in *; [discriminate | exact IH].
Qed.

Lemma split_plain (sep : ascii) (s : string) :
  has_char sep s = false -> split sep s = [s].
Proof.
  induction s as [|c s IH]; simpl; [reflexivity|].
  destruct (Ascii.eqb c sep); simpl; [discriminate|].
  intros H. now rewrite (IH H).
Qed.

Lemma split_app_sep (sep : ascii) (a b : string) :
  has_char sep a = false ->
  split sep (a ++ String sep b) = a :: split sep b.
Proof.
  induction a as [|c a IH]; simpl.
  - intros _. now rewrite Ascii.eqb_refl.
  - destruct (Ascii.eqb c sep); simpl; [discriminate|].
    intros H. now rewrite (IH H).
Qed.

Lemma split_pieces_plain (sep : ascii) (s : string) :
  Forall (fun p => has_char sep p = false) (split sep s).
Proof.
  induction s as [|c s IH]; simpl.
  - constructor; [reflexivity | constructor].
  - destruct (Ascii.eqb c sep) eqn:E.
    + constructor; [reflexivity | exact IH].
    + destruct (split sep s) as [|p ps]; inversion IH; subst.
      * constructor; [simpl; now rewrite E | constructor].
      * constructor; [simpl; now rewrite E | assumption].
Qed.

Lemma join_split (sep : ascii) (s : string) :
  join (String sep "") (split sep s) = s.
Proof.
  induction s as [|c s IH]; simpl; [reflexivity|].
  destruct (Ascii.eqb c sep) eqn:E.
  - apply Ascii.eqb_eq in E; subst c.
    pose proof (split_not_nil sep s) as Hn.
    destruct (split sep s) as [|p ps]; [contradiction|].
    simpl in *. now rewrite IH.
  - pose proof (split_not_nil sep s) as Hn.
    destruct (split sep s) as [|p ps]; [contradiction|].
    destruct ps as [|q qs]; simpl in *; now rewrite <- IH.
Qed.

Lemma split_four (a b c d : string) :
  has_char PIPE a = false -> has_char PIPE b = false ->
  has_char PIPE c = false -> has_char PIPE d = false ->
  split PIPE (a ++ "|" ++ b ++ "|" ++ c ++ "|" ++ d) = [a; b; c; d].
Proof.
  intros Ha Hb Hc Hd. change "|" with (String PIPE "").
  simpl. rewrite !split_app_sep by assumption.
  now rewrite split_plain.
Qed.

(** ** [startswith] and [contains] *)

Lemma startswith_spec (p s : string) :
  startswith p s = true <-> exists t, s = p ++ t.
Proof.
  revert s. induction p as [|a p IH]; intros s; simpl.
  - split; [intros _; now exists s | reflexivity].
  - destruct s as [|b s].
    + split; [discriminate | intros [t H]; discriminate].
    + rewrite andb_true_iff, Ascii.eqb_eq, IH. split.
      * intros [-> [t ->]]. now exists t.
      * intros [t H]. injection H as -> ->. split; [reflexivity | now exists t].
Qed.

Lemma contains_spec (needle hay : string) :
  contains needle hay = true <-> substring_of needle hay.
Proof.
  unfold substring_of. induction hay as [|c hay IH].
  - simpl. rewrite orb_false_r, startswith_spec. split.
    + intros [t H]. exists "", t. exact H.
    + intros [a [b H]]. destruct a; [now exists b | discriminate].
  - simpl. rewrite orb_true_iff, startswith_spec, IH. split.
    + intros [[t H] | [a [b H]]].
      * exists "", t. exact H.
      * exists (String c a), b. simpl. now rewrite H.
    + intros [a [b H]]. destruct a as [|x a].
      * left. now exists b.
      * right. simpl in H. injection H as _ H. now exists a, b.
Qed.

Lemma contains_false (needle hay : string) :
  contains needle hay = false <-> ~ substring_of needle hay.
Proof.
  rewrite <- contains_spec. destruct (contains needle hay); split;
    intros H; try reflexivity; try discriminate; auto.
  exfalso. now apply H.
Qed.

Lemma has_char_contains (c : ascii) (s : string) :
  has_char c s = contains (String c "") s.
Proof.
  induction s as [|a s IH]; simpl; [reflexivity|].
  rewrite IH, Ascii.eqb_sym. now rewrite andb_true_r.
Qed.

End StringFacts.

(** ** [strip] *)

Section StripFacts.

Variable ws : ascii -> bool.

Lemma rstrip_by_snoc (s : string) (c : ascii) :
  ws c = true -> rstrip_by ws (s ++ String c "") = rstrip_by ws s.
Proof.
  intros Hc. induction s as [|a s IH]; simpl.
  - now rewrite Hc.
  - now rewrite IH.
Qed.

Lemma lstrip_by_idem (s : string) :
  lstrip_by ws (lstrip_by ws s) = lstrip_by ws s.
Proof.
  induction s as [|c s IH]; simpl; [reflexivity|].
  destruct (ws c) eqn:E; [exact IH | simpl; now rewrite E].
Qed.

Lemma rstrip_by_tail (c : ascii) (r : string) :
  rstrip_by ws (String c r) = String c r -> rstrip_by ws r = r.
Proof.
  simpl. destruct (rstrip_by ws r) as [|x y] eqn:E.
  - destruct (ws c); [discriminate|]. now intros [= <-].
  - now intros [= <-].
Qed.

Lemma rstrip_by_idem (s : string) :
  rstrip_by ws (rstrip_by ws s) = rstrip_by ws s.
Proof.
  induction s as [|c s IH]; simpl; [reflexivity|].
  destruct (rstrip_by ws s) as [|x y] eqn:E.
  - destruct (ws c) eqn:Ec; simpl; [reflexivity | now rewrite Ec].
  - change (rstrip_by ws (String c (String x y)))
      with (match rstrip_by ws (String x y) with
            | "" => if ws c then "" else String c ""
            | r' => String c r'
            end).
    now rewrite IH.
Qed.

Lemma rstrip_by_lstrip (s : string) :
  rstrip_by ws s = s -> rstrip_by ws (lstrip_by ws s) = lstrip_by ws s.
Proof.
  induction s as [|c s IH]; [reflexivity|].
  intros H. simpl lstrip_by. destruct (ws c); [|exact H].
  apply IH. now apply rstrip_by_tail with c.
Qed.

Lemma strip_by_idem (s : string) :
  strip_by ws (strip_by ws s) = strip_by ws s.
Proof.
  unfold strip_by.
  rewrite (rstrip_by_lstrip (rstrip_by ws s) (rstrip_by_idem s)).
  apply lstrip_by_idem.
Qed.

Lemma strip_by_snoc (s : string) (c : ascii) :
  ws c = true -> strip_by ws (s ++ String c "") = strip_by ws s.
Proof. intros H. unfold strip_by. now rewrite rstrip_by_snoc. Qed.

Lemma has_char_lstrip_by (c : ascii) (s : string) :
  has_char c s = false -> has_char c (lstrip_by ws s) = false.
Proof.
  induction s as [|a s IH]; simpl; [reflexivity|].
  intros H. apply orb_false_iff in H as [H1 H2].
  destruct (ws a); [auto | simpl; now rewrite H1, H2].
Qed.

Lemma has_char_rstrip_by (c : ascii) (s : string) :
  has_char c s = false -> has_char c (rstrip_by ws s) = false.
Proof.
  induction s as [|a s IH]; simpl; [reflexivity|].
  intros H. apply orb_false_iff in H as [H1 H2]. specialize (IH H2).
  destruct (rstrip_by ws s) as [|x y].
  - destruct (ws a); simpl; [reflexivity | now rewrite H1].
  - simpl in *. now rewrite H1, IH.
Qed.

Lemma has_char_strip_by (c : ascii) (s : string) :
  has_char c s = false -> has_char c (strip_by ws s) = false.
Proof.
  intros H. unfold strip_by. now apply has_char_lstrip_by, has_char_rstrip_by.
Qed.

Lemma rstrip_by_app (a b : string) :
  rstrip_by ws b <> "" -> rstrip_by ws (a ++ b) = a ++ rstrip_by ws b.
Proof.
  intros Hb. induction a as [|c a IH]; simpl; [reflexivity|].
  rewrite IH. destruct (a ++ rstrip_by ws b) as [|x y] eqn:E; [|reflexivity].
  destruct a; simpl in E; [contradiction | discriminate].
Qed.

Lemma lstrip_by_app (a b : string) :
  a <> "" -> lstrip_by ws a = a -> lstrip_by ws (a ++ b) = a ++ b.
Proof.
  destruct a as [|c a]; [contradiction|]. intros _. simpl.
  destruct (ws c) eqn:E; [|reflexivity].
  intros H. exfalso.
  assert (L : forall s, String.length (lstrip_by ws s) <= String.length s).
  { induction s as [|x s IHs]; simpl; [lia|].
    destruct (ws x); simpl; lia. }
  specialize (L a). rewrite H in L. simpl in L. lia.
Qed.

Lemma rstrip_by_plain (s : string) :
  all_chars (fun c => negb (ws c)) s = true -> rstrip_by ws s = s.
Proof.
  induction s as [|c s IH]; simpl; [reflexivity|].
  intros H. apply andb_true_iff in H as [Hc Hs]. rewrite (IH Hs).
  destruct s; [|reflexivity].
  apply negb_true_iff in Hc. now rewrite Hc.
Qed.

Lemma strip_by_plain (s : string) :
  all_chars (fun c => negb (ws c)) s = true -> strip_by ws s = s.
Proof.
  intros H. unfold strip_by. rewrite (rstrip_by_plain s H).
  destruct s as [|c s]; simpl in *; [reflexivity|].
  apply andb_true_iff in H as [Hc _]. apply negb_true_iff in Hc.
  now rewrite Hc.
Qed.

Lemma lstrip_by_length (s : string) :
  String.length (lstrip_by ws s) <= String.length s.
Proof.
  induction s as [|x s IH]; simpl; [lia|]. destruct (ws x); simpl; lia.
Qed.

(** Whether [lstrip] leaves a text alone is a matter of its first
    character. *)
Lemma lstrip_by_fixed (c : ascii) (r : string) :
  lstrip_by ws (String c r) = String c r <-> ws c = false.
Proof.
  simpl. destruct (ws c); split; try reflexivity; try discriminate.
  intros H. pose proof (lstrip_by_length r) as L. rewrite H in L.
  simpl in L. lia.
Qed.

Lemma strip_by_fixed (s : string) :
  strip_by ws s = s <-> lstrip_by ws s = s /\ rstrip_by ws s = s.
Proof.
  split.
  - intros H. split.
    + rewrite <- H. unfold strip_by. apply lstrip_by_idem.
    + rewrite <- H at 1. unfold strip_by.
      rewrite (rstrip_by_lstrip _ (rstrip_by_idem s)). exact H.
  - intros [L R]. unfold strip_by. now rewrite R.
Qed.

End StripFacts.

Lemma all_chars_impl (p q : ascii -> bool) (s : string) :
  (forall c, p c = true -> q c = true) ->
  all_chars p s = true -> all_chars q s = true.
Proof.
  intros Hpq. induction s as [|c s IH]; simpl; [reflexivity|].
  rewrite !andb_true_iff. intros [H1 H2]. split; auto.
Qed.

Lemma all_chars_has_char (p : ascii -> bool) (c : ascii) (s : string) :
  all_chars p s = true -> p c = false -> has_char c s = false.
Proof.
  intros H Hc. induction s as [|a s IH]; simpl in *; [reflexivity|].
  apply andb_true_iff in H as [Ha Hs]. rewrite (IH Hs), orb_false_r.
  destruct (Ascii.eqb_spec a c); [subst; congruence | reflexivity].
Qed.

(** ** [str] and [int] of an integer *)

Lemma decimal_char_not_space (c : ascii) :
  decimal_char c = true -> negb (isspace c) = true /\ negb (int_space c) = true.
Proof.
  destruct c as [[|] [|] [|] [|] [|] [|] [|] [|]]; vm_compute; intros H;
    try discriminate; auto.
Qed.

Lemma string_of_uint_decimal (d : Decimal.uint) :
  all_chars decimal_char (NilEmpty.string_of_uint d) = true.
Proof. induction d; simpl; auto. Qed.

Lemma str_of_int_decimal (n : Z) : all_chars decimal_char (str_of_int n) = true.
Proof.
  unfold str_of_int. destruct (Z.to_int n) as [d|d]; simpl.
  - destruct d; simpl; try reflexivity; apply string_of_uint_decimal.
  - destruct d; simpl; try reflexivity; apply string_of_uint_decimal.
Qed.

Lemma str_of_int_nonempty (n : Z) : str_of_int n <> "".
Proof.
  unfold str_of_int. destruct (Z.to_int n) as [d|d]; simpl;
    destruct d; simpl; discriminate.
Qed.

Lemma str_of_int_plain (c : ascii) (n : Z) :
  decimal_char c = false -> has_char c (str_of_int n) = false.
Proof. apply all_chars_has_char, str_of_int_decimal. Qed.

Lemma strip_str_of_int (n : Z) : strip (str_of_int n) = str_of_int n.
Proof.
  apply strip_by_plain.
  apply all_chars_impl with (p := decimal_char); [|apply str_of_int_decimal].
  intros c H. now apply decimal_char_not_space.
Qed.

Lemma int_strip_str_of_int (n : Z) :
  strip_by int_space (str_of_int n) = str_of_int n.
Proof.
  apply strip_by_plain.
  apply all_chars_impl with (p := decimal_char); [|apply str_of_int_decimal].
  intros c H. now apply decimal_char_not_space.
Qed.

Ltac eval_digit :=
  match goal with
  | |- context [digit_value ?c] =>
      let v := eval vm_compute in (digit_value c) in
      change (digit_value c) with v
  end; cbv iota beta.

Lemma parse_digits_acc (d : Decimal.uint) (acc : positive) :
  parse_digits (Z.pos acc) true (NilEmpty.string_of_uint d)
  = Some (Z.pos (Pos.of_uint_acc d acc)).
Proof.
  revert acc. induction d; intros acc;
    cbn [NilEmpty.string_of_uint parse_digits Pos.of_uint_acc];
    try reflexivity; eval_digit; rewrite <- IHd; f_equal;
    lia.
Qed.

Lemma parse_digits_uint (d : Decimal.uint) (b : bool) :
  d <> Decimal.Nil ->
  parse_digits 0 b (NilEmpty.string_of_uint d) = Some (Z.of_N (Pos.of_uint d)).
Proof.
  revert b. induction d; intros b Hd; try contradiction;
    cbn [NilEmpty.string_of_uint parse_digits Pos.of_uint]; eval_digit;
    try (cbn [Z.of_N]; rewrite <- parse_digits_acc; reflexivity).
  change (10 * 0 + 0)%Z with 0%Z.
  destruct d; try (apply IHd; discriminate). reflexivity.
Qed.

Lemma int_str_of_int (n : Z) : int (str_of_int n) = Some n.
Proof.
  unfold int. rewrite int_strip_str_of_int. unfold str_of_int.
  destruct n as [|p|p].
  - reflexivity.
  - cbn [Z.to_int NilZero.string_of_int].
    pose proof (DecimalPos.Unsigned.to_uint_nonnil p) as Hn.
    pose proof (DecimalPos.Unsigned.of_to p) as Hp.
    assert (E : NilZero.string_of_uint (Pos.to_uint p)
                = NilEmpty.string_of_uint (Pos.to_uint p)).
    { destruct (Pos.to_uint p); [contradiction | reflexivity ..]. }
    rewrite E.
    assert (P : parse_digits 0 false (NilEmpty.string_of_uint (Pos.to_uint p))
                = Some (Z.pos p)).
    { rewrite parse_digits_uint by assumption. now rewrite Hp. }
    pose proof (string_of_uint_decimal (Pos.to_uint p)) as Hd.
    destruct (NilEmpty.string_of_uint (Pos.to_uint p)) as [|c s] eqn:Es.
    + exact P.
    + destruct (Ascii.eqb_spec c "-") as [->|Hm].
      * simpl in P. discriminate.
      * destruct (Ascii.eqb_spec c "+") as [->|Hq].
        -- simpl in Hd. discriminate.
        -- revert P. clear -Hm Hq.
           destruct c as [[|] [|] [|] [|] [|] [|] [|] [|]]; try congruence;
             intros P; exact P.
  - cbn [Z.to_int NilZero.string_of_int].
    pose proof (DecimalPos.Unsigned.to_uint_nonnil p) as Hn.
    pose proof (DecimalPos.Unsigned.of_to p) as Hp.
    assert (E : NilZero.string_of_uint (Pos.to_uint p)
                = NilEmpty.string_of_uint (Pos.to_uint p)).
    { destruct (Pos.to_uint p); [contradiction | reflexivity ..]. }
    rewrite E. cbv iota beta.
    rewrite parse_digits_uint by assumption. now rewrite Hp.
Qed.

(** ** Lines of a text *)

Lemma universal_newlines_id (s : string) :
  has_char CR s = false -> universal_newlines s = s.
Proof.
  induction s as [|c s IH]; simpl; [reflexivity|].
  destruct (Ascii.eqb c CR); simpl; [discriminate|].
  intros H. now rewrite (IH H).
Qed.

Lemma universal_newlines_no_CR (s : string) :
  has_char CR (universal_newlines s) = false.
Proof.
  enough (H : has_char CR (universal_newlines s) = false
              /\ forall c, has_char CR (universal_newlines (String c s)) = false)
    by apply H.
  induction s as [|a s [IH1 IH2]].
  - split; [reflexivity|]. intros c. simpl.
    destruct (Ascii.eqb_spec c CR) as [->|Hc]; simpl; [reflexivity|].
    now rewrite (proj2 (Ascii.eqb_neq c CR) Hc).
  - split; [apply IH2|]. intros c.
    cbn [universal_newlines].
    destruct (Ascii.eqb_spec c CR) as [->|Hc].
    + destruct (Ascii.eqb a LF).
      * cbn [has_char]. now rewrite IH1.
      * cbn [has_char]. specialize (IH2 a). cbn [universal_newlines] in IH2.
        now rewrite IH2.
    + cbn [has_char]. rewrite (proj2 (Ascii.eqb_neq c CR) Hc).
      specialize (IH2 a). cbn [universal_newlines] in IH2. now rewrite IH2.
Qed.

Lemma splitlines_keepends_line (l rest : string) :
  has_char LF l = false ->
  splitlines_keepends (l ++ NL ++ rest) = (l ++ NL) :: splitlines_keepends rest.
Proof.
  change (NL ++ rest) with (String LF rest).
  induction l as [|c l IH]; simpl.
  - reflexivity.
  - destruct (Ascii.eqb c LF); simpl; [discriminate|].
    intros H. now rewrite (IH H).
Qed.

(** Every line is a text free of LF, followed by LF but possibly for the
    last one, and made of characters of the text it comes from. *)
Lemma splitlines_keepends_shape (t x : string) :
  In x (splitlines_keepends t) ->
  (exists body, (x = body ++ NL \/ x = body) /\ has_char LF body = false)
  /\ (forall c, has_char c t = false -> has_char c x = false).
Proof.
  revert x. induction t as [|a t IH]; simpl; [contradiction|].
  intros x. destruct (Ascii.eqb a LF) eqn:E.
  - intros [<- | Hin].
    + split.
      * exists "". split; [now left | reflexivity].
      * intros c Hc. apply orb_false_iff in Hc as [Hc _].
        apply Ascii.eqb_eq in E. subst a. cbn [has_char]. now rewrite Hc.
    + destruct (IH x Hin) as [Hb Hc]. split; [exact Hb|].
      intros c H. apply orb_false_iff in H as [_ H]. auto.
  - destruct (splitlines_keepends t) as [|l ls] eqn:El.
    + intros [<- | []]. split.
      * exists (String a ""). split; [now right | simpl; now rewrite E].
      * intros c H. apply orb_false_iff in H as [H _]. simpl. now rewrite H.
    + intros [<- | Hin].
      * destruct (IH l (or_introl eq_refl)) as [[body [Hb Hf]] Hc]. split.
        -- exists (String a body). split.
           ++ destruct Hb as [-> | ->]; [now left | now right].
           ++ simpl. now rewrite E, Hf.
        -- intros c H. apply orb_false_iff in H as [H1 H2]. simpl.
           now rewrite H1, (Hc c H2).
      * destruct (IH x (or_intror Hin)) as [Hb Hc]. split; [exact Hb|].
        intros c H. apply orb_false_iff in H as [_ H]. auto.
Qed.

Lemma isspace_LF : isspace LF = true.
Proof. reflexivity. Qed.

Lemma isspace_PIPE : isspace PIPE = false.
Proof. reflexivity. Qed.

(** ** The store file *)

Lemma clean_line_spec (l : string) :
  clean_line l = true <->
  l <> "" /\ strip l = l /\ has_char LF l = false /\ has_char CR l = false.
Proof.
  unfold clean_line.
  rewrite !andb_true_iff, !negb_true_iff, String.eqb_eq.
  destruct l; simpl; intuition congruence.
Qed.

Lemma read_database_lines_clean (w : world) :
  Forall (fun l => clean_line l = true) (read_database_lines w).
Proof.
  unfold read_database_lines. destruct (db w) as [content|]; [|constructor].
  apply Forall_forall. intros l Hl.
  apply filter_In in Hl as [Hin Hne]. apply in_map_iff in Hin as [x [<- Hx]].
  unfold readlines in Hx.
  destruct (splitlines_keepends_shape _ _ Hx) as [[body [Hb Hf]] Hc].
  apply clean_line_spec. repeat split.
  - destruct (strip x); [discriminate | discriminate].
  - apply strip_by_idem.
  - destruct Hb as [-> | ->].
    + unfold strip, NL. rewrite strip_by_snoc by apply isspace_LF.
      now apply has_char_strip_by.
    + now apply has_char_strip_by.
  - apply has_char_strip_by, Hc, universal_newlines_no_CR.
Qed.

Lemma readlines_database_text (lines : list string) :
  Forall (fun l => clean_line l = true) lines ->
  readlines (database_text lines) = map (fun l => l ++ NL) lines.
Proof.
  intros H. unfold readlines.
  assert (T : forall ls, Forall (fun l => clean_line l = true) ls ->
              has_char CR (join NL ls) = false).
  { induction 1 as [|l ls Hl Hls IH]; [reflexivity|].
    apply clean_line_spec in Hl as (_ & _ & _ & Hcr).
    destruct ls as [|l' ls']; [exact Hcr|].
    change (join NL (l :: l' :: ls')) with (l ++ NL ++ join NL (l' :: ls')).
    rewrite !has_char_app, Hcr, IH. reflexivity. }
  rewrite universal_newlines_id.
  2:{ unfold database_text. rewrite has_char_app, (T _ H).
      destruct lines; reflexivity. }
  unfold database_text. induction H as [|l ls Hl Hls IH]; [reflexivity|].
  apply clean_line_spec in Hl as (_ & _ & Hlf & _).
  destruct ls as [|l' ls'].
  - simpl join. rewrite <- (append_empty_r (l ++ NL)) at 1.
    rewrite append_assoc, splitlines_keepends_line by assumption. reflexivity.
  - change (join NL (l :: l' :: ls')) with (l ++ NL ++ join NL (l' :: ls')).
    rewrite !append_assoc, splitlines_keepends_line by assumption.
    simpl map. f_equal. exact IH.
Qed.

Lemma strip_line_end (l : string) : strip (l ++ NL) = strip l.
Proof. apply strip_by_snoc, isspace_LF. Qed.

Lemma read_written_lines (lines : list string) (w : world) :
  Forall (fun l => clean_line l = true) lines ->
  read_database_lines (write_database_lines lines w) = lines.
Proof.
  intros H. unfold read_database_lines, write_database_lines.
  cbn [db]. rewrite (readlines_database_text _ H).
  induction H as [|l ls Hl Hls IH]; [reflexivity|].
  apply clean_line_spec in Hl as (Hne & Hs & _ & _).
  cbn [map filter]. rewrite strip_line_end, Hs, IH.
  destruct l; [contradiction | reflexivity].
Qed.

(* ================================================================== *)
(** * The record store *)
(* ================================================================== *)

Lemma read_database_lines_db (w w' : world) :
  db w = db w' -> read_database_lines w = read_database_lines w'.
Proof. unfold read_database_lines. now intros ->. Qed.

Lemma get_user_servers_db (user : string) (w w' : world) :
  db w = db w' -> get_user_servers user w = get_user_servers user w'.
Proof.
  intros H. unfold get_user_servers. now rewrite (read_database_lines_db w w' H).
Qed.

Lemma user_servers_of_lines_app (user : string) (l1 l2 : list string) :
  user_servers_of_lines user (l1 ++ l2)
  = (user_servers_of_lines user l1 ++ user_servers_of_lines user l2)%list.
Proof.
  induction l1 as [|l l1 IH]; simpl; [reflexivity|].
  now rewrite IH, app_assoc.
Qed.

Lemma user_server_of_line_wrong_count (user line : string) :
  List.length (split PIPE line) <> 4 -> user_server_of_line user line = [].
Proof.
  unfold user_server_of_line.
  destruct (split PIPE line) as [|a [|b [|c [|d [|e r]]]]]; simpl; congruence.
Qed.

Lemma well_formed_spec (r : record) :
  well_formed r = true <->
  plain_field (owner r) = true /\ plain_field (instance_id r) = true
  /\ plain_field (connection_string r) = true
  /\ lstrip_by isspace (owner r) = owner r.
Proof.
  unfold well_formed. rewrite !andb_true_iff, String.eqb_eq. tauto.
Qed.

Lemma plain_field_spec (s : string) :
  plain_field s = true <->
  has_char PIPE s = false /\ has_char LF s = false /\ has_char CR s = false.
Proof.
  unfold plain_field. rewrite !andb_true_iff, !negb_true_iff. tauto.
Qed.

Lemma split_record_line (o c s : string) (ts : Z) :
  has_char PIPE o = false -> has_char PIPE c = false ->
  has_char PIPE s = false ->
  split PIPE (record_line o c s ts) = [o; c; s; str_of_int ts].
Proof.
  intros Ho Hc Hs. unfold record_line. apply split_four; try assumption.
  now apply str_of_int_plain.
Qed.

Lemma rstrip_ends_with_int (a : string) (ts : Z) :
  rstrip_by isspace (a ++ str_of_int ts) = a ++ str_of_int ts.
Proof.
  assert (R : rstrip_by isspace (str_of_int ts) = str_of_int ts).
  { apply rstrip_by_plain.
    apply all_chars_impl with (p := decimal_char); [|apply str_of_int_decimal].
    intros x H. now apply decimal_char_not_space. }
  rewrite rstrip_by_app; rewrite R; [reflexivity | apply str_of_int_nonempty].
Qed.

Lemma record_line_clean (o c s : string) (ts : Z) :
  plain_field o = true -> plain_field c = true -> plain_field s = true ->
  lstrip_by isspace o = o ->
  clean_line (record_line o c s ts) = true.
Proof.
  intros Ho Hc Hs Hl.
  apply plain_field_spec in Ho as (_ & Ho1 & Ho2).
  apply plain_field_spec in Hc as (_ & Hc1 & Hc2).
  apply plain_field_spec in Hs as (_ & Hs1 & Hs2).
  apply clean_line_spec. unfold record_line. repeat split.
  - destruct o; discriminate.
  - apply strip_by_fixed. split.
    + destruct o as [|x o]; [reflexivity|].
      apply (lstrip_by_fixed isspace x). now apply (lstrip_by_fixed isspace x o).
    + rewrite <- !append_assoc. apply rstrip_ends_with_int.
  - rewrite !has_char_app, Ho1, Hc1, Hs1.
    now rewrite (str_of_int_plain LF ts eq_refl).
  - rewrite !has_char_app, Ho2, Hc2, Hs2.
    now rewrite (str_of_int_plain CR ts eq_refl).
Qed.

Lemma line_of_record_clean (r : record) :
  well_formed r = true -> clean_line (line_of_record r) = true.
Proof.
  intros H. apply well_formed_spec in H as (Ho & Hc & Hs & Hl).
  now apply record_line_clean.
Qed.

Lemma split_line_of_record (r : record) :
  well_formed r = true ->
  split PIPE (line_of_record r)
  = [owner r; instance_id r; connection_string r; str_of_int (created_at r)].
Proof.
  intros H. apply well_formed_spec in H as (Ho & Hc & Hs & _).
  apply plain_field_spec in Ho as (Ho & _).
  apply plain_field_spec in Hc as (Hc & _).
  apply plain_field_spec in Hs as (Hs & _).
  now apply split_record_line.
Qed.

Lemma user_servers_of_records (user : string) (records : list record) :
  Forall (fun r => well_formed r = true) records ->
  user_servers_of_lines user (map line_of_record records)
  = map view (filter (owned_by user) records).
Proof.
  induction 1 as [|r rs Hr Hrs IH]; [reflexivity|].
  cbn [map user_servers_of_lines filter]. rewrite IH.
  unfold user_server_of_line. rewrite (split_line_of_record r Hr).
  unfold int_or_zero. rewrite int_str_of_int. unfold owned_by.
  destruct (String.eqb (owner r) user); reflexivity.
Qed.

(** C3 -- Round-trip persistence.  Writing the lines of [N] well-formed
    records (no ['|'] and no line break in a text field, no blank in front
    of the owner) with [write_database_lines] and reading the file again
    gives [N] lines that split into the same four fields, in the same
    order, with the time stamp parsing back to the integer written; so
    [get_user_servers] returns, for every owner, exactly the records of
    that owner.  And in any store, a line that does not split into four
    fields contributes nothing to [get_user_servers]: the records read
    are those of the lines before it followed by those of the lines after
    it, the same as if the line were not in the file. *)
Theorem store_round_trip
  (records : list record) (w v : world) (user : string)
  (before after : list string) (bad : string) :
  Forall (fun r => well_formed r = true) records ->
  read_database_lines v = (before ++ bad :: after)%list ->
  List.length (split PIPE bad) <> 4 ->
  let w' := write_database_lines (map line_of_record records) w in
  List.length (read_database_lines w') = List.length records
  /\ Forall2 (fun l r =>
                split PIPE l = [owner r; instance_id r; connection_string r;
                                str_of_int (created_at r)]
                /\ int (str_of_int (created_at r)) = Some (created_at r))
             (read_database_lines w') records
  /\ get_user_servers user w' = map view (filter (owned_by user) records)
  /\ get_user_servers user v
     = (user_servers_of_lines user before
        ++ user_servers_of_lines user after)%list
  /\ get_user_servers user v
     = get_user_servers user (write_database_lines (before ++ after) v).
Proof.
  intros Hwf Hv Hbad w'.
  assert (Hread : read_database_lines w' = map line_of_record records).
  { apply read_written_lines. apply Forall_map.
    eapply Forall_impl; [|exact Hwf]. apply line_of_record_clean. }
  assert (Hskip : get_user_servers user v
                  = (user_servers_of_lines user before
                     ++ user_servers_of_lines user after)%list).
  { unfold get_user_servers. rewrite Hv, user_servers_of_lines_app.
    cbn [user_servers_of_lines].
    now rewrite (user_server_of_line_wrong_count user bad Hbad). }
  repeat split.
  - now rewrite Hread, length_map.
  - rewrite Hread. clear Hread. induction Hwf as [|r rs Hr Hrs IH].
    + constructor.
    + cbn [map]. constructor; [|exact IH].
      split; [now apply split_line_of_record | apply int_str_of_int].
  - unfold get_user_servers. rewrite Hread.
    now apply user_servers_of_records.
  - exact Hskip.
  - rewrite Hskip. unfold get_user_servers at 1.
    rewrite read_written_lines, user_servers_of_lines_app; [reflexivity|].
    pose proof (read_database_lines_clean v) as Hc. rewrite Hv in Hc.
    apply Forall_app in Hc as [Hb Ha]. apply Forall_app. split; [exact Hb|].
    now inversion Ha.
Qed.

Lemma store_round_trip_witness :
  get_user_servers "alice"
    (write_database_lines
       (map line_of_record
            [mkRecord "alice" "c1" "ssh a@host -p 22" 1700000000;
             mkRecord "bob" "c2" "http://x" 1700000500])
       (mkWorld None []))
  = [("c1", "ssh a@host -p 22", 1700000000%Z)]
  /\ get_user_servers "bob"
       (mkWorld (Some "alice|c1|x|10
junk|c9
bob|c2|y|20
") [])
     = [("c2", "y", 20%Z)].
Proof.
  split.
  - refine (proj1 (proj2 (proj2
      (store_round_trip
         [mkRecord "alice" "c1" "ssh a@host -p 22" 1700000000;
          mkRecord "bob" "c2" "http://x" 1700000500]
         (mkWorld None [])
         (mkWorld (Some "alice|c1|x|10
junk|c9
bob|c2|y|20
") [])
         "alice" ["alice|c1|x|10"] ["bob|c2|y|20"] "junk|c9" _ _ _)))).
    + repeat constructor.
    + reflexivity.
    + vm_compute. discriminate.
  - refine (proj1 (proj2 (proj2 (proj2
      (store_round_trip
         [mkRecord "alice" "c1" "ssh a@host -p 22" 1700000000]
         (mkWorld None [])
         (mkWorld (Some "alice|c1|x|10
junk|c9
bob|c2|y|20
") [])
         "bob" ["alice|c1|x|10"] ["bob|c2|y|20"] "junk|c9" _ _ _))))).
    + repeat constructor.
    + reflexivity.
    + vm_compute. discriminate.
Defined.

Lemma user_server_of_line_plain (user line cid ssh : string) (ts : Z) :
  In (cid, ssh, ts) (user_server_of_line user line) ->
  has_char PIPE ssh = false.
Proof.
  unfold user_server_of_line.
  pose proof (split_pieces_plain PIPE line) as H.
  destruct (split PIPE line) as [|a [|b [|c [|d [|e r]]]]]; try contradiction.
  destruct (String.eqb a user); [|contradiction].
  intros [[= _ <- _] | []].
  apply Forall_cons_iff in H as [_ H]. apply Forall_cons_iff in H as [_ H].
  now apply Forall_cons_iff in H as [H _].
Qed.

Lemma user_servers_of_lines_plain (user : string) (lines : list string)
  (cid ssh : string) (ts : Z) :
  In (cid, ssh, ts) (user_servers_of_lines user lines) ->
  has_char PIPE ssh = false.
Proof.
  induction lines as [|l ls IH]; simpl; [contradiction|].
  intros H. apply in_app_or in H as [H | H]; [|auto].
  now apply user_server_of_line_plain in H.
Qed.

(** ** Appending to a text that ends with a line break *)

Lemma universal_newlines_after_line (a x : string) :
  universal_newlines (a ++ String LF x)
  = universal_newlines (a ++ NL) ++ universal_newlines x.
Proof.
  enough (H : (forall x, universal_newlines (a ++ String LF x)
                         = universal_newlines (a ++ NL) ++ universal_newlines x)
              /\ forall c x, universal_newlines (String c a ++ String LF x)
                             = universal_newlines (String c a ++ NL)
                               ++ universal_newlines x)
    by apply H.
  clear x. induction a as [|b a [IH1 IH2]].
  - split; [reflexivity|]. intros c x. cbn [append universal_newlines].
    destruct (Ascii.eqb c CR); reflexivity.
  - split; [apply IH2|]. intros c x.
    change (String c (String b a) ++ String LF x)
      with (String c (String b (a ++ String LF x))).
    change (String c (String b a) ++ NL) with (String c (String b (a ++ NL))).
    cbn [universal_newlines]. pose proof (IH2 b x) as Hb.
    cbn [append universal_newlines] in Hb.
    destruct (Ascii.eqb c CR).
    + destruct (Ascii.eqb b LF).
      * cbn [append]. now rewrite IH1.
      * cbn [append]. now rewrite Hb.
    + cbn [append]. now rewrite Hb.
Qed.

Lemma universal_newlines_line_end (a : string) :
  exists a', universal_newlines (a ++ NL) = a' ++ NL.
Proof.
  enough (H : (exists a', universal_newlines (a ++ NL) = a' ++ NL)
              /\ forall c, exists a',
                    universal_newlines (String c a ++ NL) = a' ++ NL)
    by apply H.
  induction a as [|b a [IH1 IH2]].
  - split; [now exists ""|]. intros c. cbn [append universal_newlines].
    destruct (Ascii.eqb c CR) eqn:E.
    + exists "". reflexivity.
    + exists (String c ""). cbn. reflexivity.
  - split; [apply IH2|]. intros c.
    change (String c (String b a) ++ NL) with (String c (String b (a ++ NL))).
    cbn [universal_newlines]. destruct (IH2 b) as [a2 H2].
    cbn [append universal_newlines] in H2. destruct IH1 as [a1 H1].
    destruct (Ascii.eqb c CR).
    + destruct (Ascii.eqb b LF).
      * exists (String LF a1). cbn [append]. now rewrite H1.
      * exists (String LF a2). cbn [append]. now rewrite H2.
    + exists (String c a2). cbn [append]. now rewrite H2.
Qed.

Lemma splitlines_keepends_nil (s : string) :
  splitlines_keepends s = [] -> s = "".
Proof.
  destruct s as [|c s]; [reflexivity|]. simpl.
  destruct (Ascii.eqb c LF); [discriminate|].
  destruct (splitlines_keepends s); discriminate.
Qed.

Lemma splitlines_keepends_after_line (a x : string) :
  splitlines_keepends ((a ++ NL) ++ x)
  = (splitlines_keepends (a ++ NL) ++ splitlines_keepends x)%list.
Proof.
  induction a as [|c a IH].
  - reflexivity.
  - change ((String c a ++ NL) ++ x) with (String c ((a ++ NL) ++ x)).
    change (String c a ++ NL) with (String c (a ++ NL)).
    cbn [splitlines_keepends]. rewrite IH.
    destruct (Ascii.eqb c LF); [reflexivity|].
    destruct (splitlines_keepends (a ++ NL)) as [|l ls] eqn:E; [|reflexivity].
    apply splitlines_keepends_nil in E. destruct a; discriminate.
Qed.

Lemma readlines_after_line (a x : string) :
  readlines ((a ++ NL) ++ x) = (readlines (a ++ NL) ++ readlines x)%list.
Proof.
  unfold readlines. rewrite append_assoc.
  change (NL ++ x) with (String LF x).
  rewrite universal_newlines_after_line.
  destruct (universal_newlines_line_end a) as [a' ->].
  apply splitlines_keepends_after_line.
Qed.

Lemma count_char_strip_by (ws : ascii -> bool) (c : ascii) (s : string) :
  ws c = false -> count_char c (strip_by ws s) = count_char c s.
Proof.
  intros Hc.
  assert (Hne : forall a, ws a = true -> Ascii.eqb a c = false).
  { intros a Ha. destruct (Ascii.eqb_spec a c); [congruence | reflexivity]. }
  assert (L : forall t, count_char c (lstrip_by ws t) = count_char c t).
  { induction t as [|a t IH]; [reflexivity|]. simpl.
    destruct (ws a) eqn:Ea; [|reflexivity]. now rewrite IH, (Hne a Ea). }
  assert (R : forall t, count_char c (rstrip_by ws t) = count_char c t).
  { induction t as [|a t IH]; [reflexivity|]. simpl. rewrite <- IH.
    destruct (rstrip_by ws t); [|reflexivity].
    destruct (ws a) eqn:Ea; [now rewrite (Hne a Ea) | reflexivity]. }
  unfold strip_by. now rewrite L, R.
Qed.

(** The lines read once [add_to_database] has appended to a file that is
    absent, empty or ended by a line break. *)
Lemma read_database_lines_added (now : Z) (user cid ssh : string) (w : world) :
  db w = None \/ db w = Some "" \/ (exists text, db w = Some (text ++ NL)) ->
  has_char LF (record_line user cid ssh now) = false ->
  has_char CR (record_line user cid ssh now) = false ->
  read_database_lines (add_to_database now user cid ssh w)
  = (read_database_lines w
     ++ filter nonempty [strip (record_line user cid ssh now)])%list.
Proof.
  intros Hdb Hlf Hcr.
  assert (One : readlines (record_line user cid ssh now ++ NL)
                = [record_line user cid ssh now ++ NL]).
  { unfold readlines. rewrite universal_newlines_id.
    - rewrite <- (append_empty_r (record_line user cid ssh now ++ NL)).
      rewrite append_assoc. now rewrite splitlines_keepends_line.
    - rewrite has_char_app, Hcr. reflexivity. }
  unfold read_database_lines, add_to_database. cbn [db].
  destruct Hdb as [-> | [-> | [text ->]]].
  - rewrite One. cbn [map filter app]. now rewrite strip_line_end.
  - cbn [append]. rewrite One. cbn [map filter app].
    now rewrite strip_line_end.
  - rewrite readlines_after_line, One, map_app, filter_app.
    cbn [map filter]. now rewrite strip_line_end.
Qed.

Lemma read_after_add (now : Z) (user cid ssh : string) (w : world) :
  tidy w ->
  plain_field user = true -> plain_field cid = true ->
  plain_field ssh = true -> lstrip_by isspace user = user ->
  read_database_lines (add_to_database now user cid ssh w)
  = (read_database_lines w ++ [record_line user cid ssh now])%list.
Proof.
  intros Ht Hu Hc Hs Hl.
  pose proof (record_line_clean user cid ssh now Hu Hc Hs Hl) as Hclean.
  apply clean_line_spec in Hclean as (Hne & Hstrip & Hlf & Hcr).
  rewrite read_database_lines_added by assumption.
  rewrite Hstrip. cbn [filter].
  destruct (record_line user cid ssh now); [contradiction | reflexivity].
Qed.

Lemma user_server_of_record_line (u user cid ssh : string) (now : Z) :
  plain_field user = true -> plain_field cid = true ->
  plain_field ssh = true ->
  user_server_of_line u (record_line user cid ssh now)
  = if String.eqb user u then [(cid, ssh, now)] else [].
Proof.
  intros Hu Hc Hs.
  apply plain_field_spec in Hu as (Hu & _).
  apply plain_field_spec in Hc as (Hc & _).
  apply plain_field_spec in Hs as (Hs & _).
  unfold user_server_of_line. rewrite split_record_line by assumption.
  unfold int_or_zero. now rewrite int_str_of_int.
Qed.

(** C4 -- Pipe corruption.  [add_to_database] appends the line to the
    file with the connection string as it is; when that contains ['|']
    the line stored has more than four fields, and no later
    [get_user_servers], for any user, returns a record with that
    connection string: whatever [get_user_servers] returns has no ['|'] in
    its connection string.  When moreover the fields hold no line break
    and the file was absent, empty or ended by a line break, the line is
    the last one read back from the file, with more than four fields, and
    the records read after the append are, for every user, the records
    read before it: the record is in the file and out of every list.  It
    is the ['|'] that does it: the same record with a connection string
    without ['|'] and without line break is listed for its owner. *)
Theorem pipe_in_connection_string_corrupts
  (now : Z) (user cid ssh : string) (w : world) :
  has_char PIPE ssh = true ->
  let line := record_line user cid ssh now in
  let w' := add_to_database now user cid ssh w in
  db w' = Some (file_text w ++ line ++ NL)
  /\ 4 < List.length (split PIPE line)
  /\ (forall (u : string) (ts : Z), ~ In (cid, ssh, ts) (get_user_servers u w'))
  /\ (tidy w -> has_char LF line = false -> has_char CR line = false ->
      read_database_lines w' = (read_database_lines w ++ [strip line])%list
      /\ 4 < List.length (split PIPE (strip line))
      /\ forall u : string, get_user_servers u w' = get_user_servers u w)
  /\ (forall ssh' : string,
        tidy w ->
        plain_field user = true -> plain_field cid = true ->
        plain_field ssh' = true -> lstrip_by isspace user = user ->
        In (cid, ssh', now)
           (get_user_servers user (add_to_database now user cid ssh' w))).
Proof.
  intros H line w'.
  assert (Hcount : 4 <= count_char PIPE line).
  { unfold line, record_line. rewrite !count_char_app.
    apply has_char_count in H. change (count_char PIPE "|") with 1. lia. }
  assert (Hstrip : count_char PIPE (strip line) = count_char PIPE line).
  { unfold strip. apply count_char_strip_by, isspace_PIPE. }
  split; [|split; [|split; [|split]]].
  - unfold w', add_to_database, file_text. cbn [db].
    now destruct (db w).
  - rewrite split_length. lia.
  - intros u ts Hin. unfold get_user_servers in Hin.
    apply user_servers_of_lines_plain in Hin. congruence.
  - intros Hdb Hlf Hcr.
    assert (Hread : read_database_lines w'
                    = (read_database_lines w ++ [strip line])%list).
    { unfold w'. rewrite read_database_lines_added by assumption.
      fold line. cbn [filter].
      destruct (strip line) eqn:E; [|reflexivity].
      simpl in Hstrip. lia. }
    split; [exact Hread|]. split; [rewrite split_length; lia|].
    intros u. unfold get_user_servers. rewrite Hread.
    rewrite user_servers_of_lines_app. cbn [user_servers_of_lines].
    rewrite (user_server_of_line_wrong_count u (strip line));
      [now rewrite !app_nil_r|].
    rewrite split_length. lia.
  - intros ssh' Ht Hu Hc Hs Hl. unfold get_user_servers.
    rewrite read_after_add by assumption.
    rewrite user_servers_of_lines_app. apply in_or_app. right.
    cbn [user_servers_of_lines].
    rewrite user_server_of_record_line by assumption.
    rewrite String.eqb_refl. now left.
Qed.

Lemma pipe_in_connection_string_corrupts_witness :
  let w := mkWorld (Some "bob|c2|ssh b@host|1700000000
") [] in
  let w' := add_to_database 1700000100 "alice" "c1" "ssh a@b | plan=basic" w in
  read_database_lines w'
  = ["bob|c2|ssh b@host|1700000000";
     "alice|c1|ssh a@b | plan=basic|1700000100"]
  /\ ~ In ("c1", "ssh a@b | plan=basic", 1700000100%Z) (get_user_servers "alice" w')
  /\ get_user_servers "alice" w' = get_user_servers "alice" w
  /\ In ("c1", "ssh a@b", 1700000100%Z)
        (get_user_servers "alice"
           (add_to_database 1700000100 "alice" "c1" "ssh a@b" w)).
Proof.
  intros w w'.
  pose proof (pipe_in_connection_string_corrupts 1700000100 "alice" "c1"
                "ssh a@b | plan=basic" w eq_refl) as (_ & _ & H2 & H3 & H4).
  assert (Ht : tidy w).
  { right. right. exists "bob|c2|ssh b@host|1700000000". reflexivity. }
  assert (Hlf : has_char LF (record_line "alice" "c1" "ssh a@b | plan=basic"
                               1700000100) = false)
    by (vm_compute; reflexivity).
  assert (Hcr : has_char CR (record_line "alice" "c1" "ssh a@b | plan=basic"
                               1700000100) = false)
    by (vm_compute; reflexivity).
  destruct (H3 Ht Hlf Hcr) as (Hr & _ & Hg).
  split; [|split; [exact (H2 "alice" 1700000100%Z) | split]].
  - refine (eq_trans Hr _). vm_compute. reflexivity.
  - apply Hg.
  - apply H4; try assumption; vm_compute; reflexivity.
Defined.

(* ================================================================== *)
(** * Deploy *)
(* ================================================================== *)

Lemma emit_db (e : effect) (w : world) : db (emit e w) = db w.
Proof. reflexivity. Qed.

Lemma tell_owner_db (i : interaction) (m : message) (w : world) :
  db (snd (tell_owner i m w)) = db w.
Proof. unfold tell_owner. destruct (dm_ok i); reflexivity. Qed.

Lemma count_user_servers_db (user : string) (w w' : world) :
  db w = db w' -> count_user_servers user w = count_user_servers user w'.
Proof.
  intros H. unfold count_user_servers. now rewrite (get_user_servers_db user w w' H).
Qed.

(** The deploy that gets its line at the first attempt. *)
Lemma create_instance_task_captured
  (i : interaction) (image os_label plan_name mem out : string)
  (proc rest : process) (a : ascii) (s : string) (now : Z) (w : world) :
  plan_to_memory_str plan_name = Some mem ->
  fst (user_has_required_role_for_plan i plan_name) = true ->
  count_user_servers (user_str i) w < SERVER_LIMIT_PER_USER ->
  capture_ssh_session_line_from_process proc 25 = (Some (String a s), rest) ->
  db (create_instance_task i image os_label plan_name (inr out) (inr proc) now w)
  = db (add_to_database now (user_str i) (strip out)
                        (String a s ++ " | plan=" ++ plan_name) w).
Proof.
  intros Hplan Hrole Hquota Hcap. unfold create_instance_task.
  rewrite Hplan.
  destruct (user_has_required_role_for_plan i plan_name) as [allowed req].
  simpl in Hrole. subst allowed. cbn [negb].
  rewrite (count_user_servers_db _ (emit _ w) w (emit_db _ w)).
  destruct (Nat.leb_spec SERVER_LIMIT_PER_USER (count_user_servers (user_str i) w));
    [lia|].
  rewrite Hcap. cbn [truthy nonempty negb]. rewrite tell_owner_db.
  reflexivity.
Qed.

(** C1 -- Deploy scenario, on the code.  Owner "alice" deploys plan
    "basic", the runtime answers "c1" and the helper prints
    "ssh session: alice@host -p 2222".  The line appended to the file is
    "alice|c1|ssh session: alice@host -p 2222 | plan=basic|<ts>": the
    annotation [" | plan=basic"] brings a fifth field, the line is not a
    record for [get_user_servers], and the list of the records of "alice"
    is empty. *)
Theorem deploy_scenario_record_not_listed
  (roles : option (list string)) (dm : bool) (image os_label : string)
  (ms : N) (now : Z) :
  let alice := mkInteraction "alice" roles dm in
  let w' :=
    create_instance_task alice image os_label "basic" (inr "c1")
      (inr [ReadLine ms "ssh session: alice@host -p 2222"]) now
      (mkWorld None []) in
  db w' = Some (record_line "alice" "c1"
                  "ssh session: alice@host -p 2222 | plan=basic" now ++ NL)
  /\ List.length
       (split PIPE (record_line "alice" "c1"
                      "ssh session: alice@host -p 2222 | plan=basic" now)) = 5
  /\ get_user_servers "alice" w' = [].
Proof.
  intros alice w'.
  assert (Hdb : db w' = Some (record_line "alice" "c1"
                  "ssh session: alice@host -p 2222 | plan=basic" now ++ NL)).
  { unfold w'.
    rewrite (create_instance_task_captured alice image os_label "basic" "1g"
               "c1" _ [] "s" "sh session: alice@host -p 2222" now);
      try reflexivity.
    cbn. unfold SERVER_LIMIT_PER_USER. lia. }
  assert (Hlen : List.length
       (split PIPE (record_line "alice" "c1"
                      "ssh session: alice@host -p 2222 | plan=basic" now)) = 5).
  { rewrite split_length. unfold record_line. rewrite !count_char_app.
    rewrite (count_char_zero PIPE (str_of_int now))
      by (now apply str_of_int_plain).
    reflexivity. }
  repeat split; [exact Hdb | exact Hlen |].
  unfold get_user_servers.
  rewrite (read_database_lines_db w'
             (write_database_lines
                [record_line "alice" "c1"
                   "ssh session: alice@host -p 2222 | plan=basic" now]
                (mkWorld None []))) by (rewrite Hdb; reflexivity).
  rewrite read_written_lines.
  - cbn [user_servers_of_lines]. rewrite user_server_of_line_wrong_count.
    + reflexivity.
    + rewrite Hlen. discriminate.
  - constructor; [|constructor].
    apply clean_line_spec. unfold record_line. repeat split.
    + discriminate.
    + apply strip_by_fixed. split; [reflexivity|].
      rewrite <- !append_assoc. apply rstrip_ends_with_int.
    + rewrite !has_char_app. now rewrite (str_of_int_plain LF now eq_refl).
    + rewrite !has_char_app. now rewrite (str_of_int_plain CR now eq_refl).
Qed.

(** C2 -- Provision atomicity.  In a deploy that creates the instance
    (known plan, role held, quota not reached, [docker run] answered) and
    whose two capture attempts, 25 s and then 10 s on the same process, both
    give no line, the file is left as it was and nothing is written to
    it; the commands issued are [docker run], [docker exec ... tmate -F] and
    [docker rm -f] of the identifier [docker run] printed, and the answer
    is the capture failure. *)
Theorem failed_capture_rolls_back
  (i : interaction) (image os_label plan_name mem out : string)
  (proc : process) (now : Z) (w : world) :
  plan_to_memory_str plan_name = Some mem ->
  fst (user_has_required_role_for_plan i plan_name) = true ->
  count_user_servers (user_str i) w < SERVER_LIMIT_PER_USER ->
  fst (capture_ssh_session_line_from_process proc 25) = None ->
  fst (capture_ssh_session_line_from_process
         (snd (capture_ssh_session_line_from_process proc 25)) 10) = None ->
  let w' :=
    create_instance_task i image os_label plan_name (inr out) (inr proc) now w in
  db w' = db w
  /\ trace w'
     = (trace w
        ++ [Respond true (MsgDeploying os_label plan_name mem);
            DockerRun mem image;
            DockerExecTmate (strip out);
            DockerRm (strip out);
            Respond true MsgCaptureFailed])%list.
Proof.
  intros Hplan Hrole Hquota Hc1 Hc2 w'. unfold w', create_instance_task.
  rewrite Hplan.
  destruct (user_has_required_role_for_plan i plan_name) as [allowed req].
  simpl in Hrole. subst allowed. cbn [negb].
  rewrite (count_user_servers_db _ (emit _ w) w (emit_db _ w)).
  destruct (Nat.leb_spec SERVER_LIMIT_PER_USER (count_user_servers (user_str i) w));
    [lia|].
  destruct (capture_ssh_session_line_from_process proc 25) as [r1 p1].
  simpl in Hc1, Hc2. subst r1. cbn [truthy negb]. rewrite Hc2.
  split; [reflexivity|].
  cbn [emit trace]. rewrite <- !app_assoc. reflexivity.
Qed.

Lemma failed_capture_rolls_back_witness :
  let w := mkWorld (Some "bob|c7|ssh b@h|1700000000
") [] in
  let w' :=
    create_instance_task (mkInteraction "alice" (Some ["Basic"]) true)
      "ubuntu-tmate:22.04" "Ubuntu 22.04" "second" (inr "c1
")
      (inr [ReadLine 5 "tmate starting"; ReadEof]) 1700000100 w in
  db w' = db w /\ In (DockerRm "c1") (trace w').
Proof.
  intros w w'.
  pose proof (failed_capture_rolls_back
                (mkInteraction "alice" (Some ["Basic"]) true)
                "ubuntu-tmate:22.04" "Ubuntu 22.04" "second" "2g" "c1
"
                [ReadLine 5 "tmate starting"; ReadEof] 1700000100 w
                eq_refl eq_refl) as H.
  assert (Q : count_user_servers "alice" w < SERVER_LIMIT_PER_USER)
    by (vm_compute; lia).
  specialize (H Q eq_refl eq_refl). destruct H as [H1 H2].
  split; [exact H1|]. unfold w'. refine (eq_ind_r (fun t => In (DockerRm "c1") t) _ H2). vm_compute. tauto.
Defined.

(* ================================================================== *)
(** * Access policy *)
(* ================================================================== *)

Lemma has_role_spec (required : string) (roles : list string) :
  has_role required roles = true <->
  exists r, In r roles /\ same_ignoring_case r required.
Proof.
  unfold same_ignoring_case. induction roles as [|r rs IH]; simpl.
  - split; [discriminate | intros [r [[] _]]].
  - destruct (String.eqb_spec (lower r) (lower required)) as [E|E].
    + split; [intros _; exists r; auto | reflexivity].
    + rewrite IH. split.
      * intros [x [Hx Hl]]. exists x. auto.
      * intros [x [[<- | Hx] Hl]]; [contradiction | exists x; auto].
Qed.

(** C6 -- Capability gate.  For every plan name and every requester,
    [user_has_required_role_for_plan] grants access exactly when the plan
    requires no role or one of the requester's role names equals the
    required one after lower-casing both; with its verdict it returns the
    plan's requirement, so a denial carries the name of the required
    role, and a deploy that is denied answers with the permission
    message naming that role and does nothing else.  A plan that requires
    "Premium" denies the tags {"Basic"} and admits {"Basic","Premium"} and
    {"Basic","premium"}. *)
Theorem capability_gate (i : interaction) (plan_name : string) :
  let verdict := user_has_required_role_for_plan i plan_name in
  snd verdict = required_role_of plan_name
  /\ (fst verdict = true <->
      required_role_of plan_name = None
      \/ exists required r,
           required_role_of plan_name = Some required
           /\ In r (capability_tags i) /\ same_ignoring_case r required)
  /\ (fst verdict = false -> exists required, snd verdict = Some required)
  /\ (fst verdict = false ->
      forall image os_label mem run exec now w,
        plan_to_memory_str plan_name = Some mem ->
        create_instance_task i image os_label plan_name run exec now w
        = emit (Respond true (MsgPermissionDenied plan_name
                                (required_role_of plan_name))) w)
  /\ (required_role_of plan_name = Some "Premium" ->
      forall (u : string) (dm : bool),
        user_has_required_role_for_plan
          (mkInteraction u (Some ["Basic"]) dm) plan_name
        = (false, Some "Premium")
        /\ user_has_required_role_for_plan
             (mkInteraction u (Some ["Basic"; "Premium"]) dm) plan_name
           = (true, Some "Premium")
        /\ user_has_required_role_for_plan
             (mkInteraction u (Some ["Basic"; "premium"]) dm) plan_name
           = (true, Some "Premium")).
Proof.
  assert (Premium : forall roles u dm,
             required_role_of plan_name = Some "Premium" ->
             user_has_required_role_for_plan
               (mkInteraction u (Some roles) dm) plan_name
             = (has_role "Premium" roles, Some "Premium")).
  { intros roles u dm E. unfold user_has_required_role_for_plan.
    rewrite E. cbn [member_roles]. now destruct (has_role "Premium" roles). }
  assert (Snd : snd (user_has_required_role_for_plan i plan_name)
                = required_role_of plan_name).
  { unfold user_has_required_role_for_plan.
    destruct (required_role_of plan_name) as [required|]; [|reflexivity].
    destruct (member_roles i) as [roles|]; [|reflexivity].
    now destruct (has_role required roles). }
  cbv zeta. split; [|split; [|split; [|split]]].
  - exact Snd.
  - unfold user_has_required_role_for_plan, capability_tags.
    destruct (required_role_of plan_name) as [required|].
    + destruct (member_roles i) as [roles|].
      * assert (E : fst (if has_role required roles
                         then (true, Some required)
                         else (false, Some required))
                    = has_role required roles)
          by now destruct (has_role required roles).
        rewrite E, has_role_spec. split.
        -- intros [r [Hr Hl]]. right. now exists required, r.
        -- intros [H | [req [r [[= <-] [Hr Hl]]]]]; [discriminate|].
           now exists r.
      * cbn [fst]. split; [discriminate|].
        intros [H | [req [r [_ [[] _]]]]]. discriminate.
    + cbn [fst]. split; [intros _; now left | reflexivity].
  - unfold user_has_required_role_for_plan.
    destruct (required_role_of plan_name) as [required|]; [|discriminate].
    intros _. exists required.
    destruct (member_roles i) as [roles|]; [|reflexivity].
    now destruct (has_role required roles).
  - intros Hd image os_label mem run exec now w Hplan.
    unfold create_instance_task. rewrite Hplan.
    destruct (user_has_required_role_for_plan i plan_name) as [allowed req].
    cbn [fst snd] in Hd, Snd. now subst.
  - intros E u dm. rewrite !Premium by exact E. repeat split.
Qed.

Lemma capability_gate_witness :
  user_has_required_role_for_plan
    (mkInteraction "alice" (Some ["Basic"]) true) "Prem Basic"
  = (false, Some "Premium")
  /\ user_has_required_role_for_plan
       (mkInteraction "alice" (Some ["Basic"; "premium"]) true) "Prem Basic"
     = (true, Some "Premium").
Proof.
  pose proof (proj2 (proj2 (proj2 (proj2
                (capability_gate (mkInteraction "alice" None true) "Prem Basic"))))
                eq_refl "alice" true) as (H1 & _ & H3).
  split; [exact H1 | exact H3].
Defined.

(* ================================================================== *)
(** * Identifier resolution *)
(* ================================================================== *)

Lemma first_matching_container_spec (ident : string)
  (servers : list (string * string * Z)) :
  match first_matching_container ident servers with
  | Some cid =>
      exists before ssh ts after,
        servers = (before ++ (cid, ssh, ts) :: after)%list
        /\ (ident = cid \/ substring_of ident ssh)
        /\ forall c s t, In (c, s, t) before ->
                         ident <> c /\ ~ substring_of ident s
  | None =>
      forall c s t, In (c, s, t) servers -> ident <> c /\ ~ substring_of ident s
  end.
Proof.
  induction servers as [|[[cid ssh] ts] rest IH]; simpl.
  - intros c s t [].
  - destruct (String.eqb_spec ident cid) as [E|E]; simpl.
    + exists [], ssh, ts, rest.
      split; [reflexivity | split; [now left | intros c s t []]].
    + destruct (contains ident ssh) eqn:Ec.
      * exists [], ssh, ts, rest. apply contains_spec in Ec.
        split; [reflexivity | split; [now right | intros c s t []]].
      * apply contains_false in Ec.
        destruct (first_matching_container ident rest) as [found|].
        -- destruct IH as (before & s0 & t0 & after & -> & Hm & Hb).
           exists ((cid, ssh, ts) :: before), s0, t0, after.
           split; [reflexivity | split; [exact Hm|]].
           intros c s t [[= <- <- <-] | H]; [auto | now apply (Hb c s t)].
        -- intros c s t [[= <- <- <-] | H]; [auto | exact (IH c s t H)].
Qed.

Lemma user_servers_of_lines_In (user : string) (lines : list string)
  (cid ssh : string) (ts : Z) :
  In (cid, ssh, ts) (user_servers_of_lines user lines) <->
  exists l t, In l lines /\ split PIPE l = [user; cid; ssh; t]
              /\ ts = int_or_zero t.
Proof.
  induction lines as [|l ls IH]; simpl.
  - split; [contradiction | intros [l [t [[] _]]]].
  - rewrite in_app_iff, IH. split.
    + intros [H | [l' [t [Hin Hs]]]].
      * exists l. unfold user_server_of_line in H.
        destruct (split PIPE l) as [|a [|b [|c [|d [|e r]]]]];
          try contradiction.
        destruct (String.eqb_spec a user) as [->|]; [|contradiction].
        destruct H as [[= <- <- <-] | []]. exists d. auto.
      * exists l', t. tauto.
    + intros [l' [t [[<- | Hin] [Hs Ht]]]].
      * left. unfold user_server_of_line. rewrite Hs, String.eqb_refl.
        left. now rewrite Ht.
      * right. exists l', t. auto.
Qed.

(** C7 -- Identifier resolution.  The records [get_user_servers] gives
    for a user are those of the four-field lines whose first field is that
    user.  [find_container_for_user_by_name] returns the instance id of
    the first of them whose id equals the identifier or whose connection
    string contains it, and [None] exactly when none of them does --
    whatever the lines of other owners hold. *)
Theorem identifier_resolution (user ident : string) (w : world) :
  (forall cid ssh ts,
      In (cid, ssh, ts) (get_user_servers user w) <->
      exists l t, In l (read_database_lines w)
                  /\ split PIPE l = [user; cid; ssh; t] /\ ts = int_or_zero t)
  /\ (forall cid,
        find_container_for_user_by_name user ident w = Some cid ->
        exists before ssh ts after,
          get_user_servers user w = (before ++ (cid, ssh, ts) :: after)%list
          /\ (ident = cid \/ substring_of ident ssh)
          /\ forall c s t, In (c, s, t) before ->
                           ident <> c /\ ~ substring_of ident s)
  /\ (find_container_for_user_by_name user ident w = None <->
      forall l cid ssh t,
        In l (read_database_lines w) ->
        split PIPE l = [user; cid; ssh; t] ->
        ident <> cid /\ ~ substring_of ident ssh).
Proof.
  unfold find_container_for_user_by_name.
  pose proof (first_matching_container_spec ident (get_user_servers user w)) as S.
  split; [|split].
  - intros cid ssh ts. apply user_servers_of_lines_In.
  - intros cid E. rewrite E in S. exact S.
  - destruct (first_matching_container ident (get_user_servers user w))
      as [found|].
    + split; [discriminate|]. intros H. exfalso.
      destruct S as (before & ssh & ts & after & E & Hm & _).
      assert (Hin : In (found, ssh, ts) (get_user_servers user w)).
      { rewrite E. apply in_or_app. right. now left. }
      apply user_servers_of_lines_In in Hin as (l & t & Hl & Hs & _).
      destruct (H l found ssh t Hl Hs) as [H1 H2].
      destruct Hm; contradiction.
    + split; [|reflexivity]. intros _ l cid ssh t Hl Hs.
      apply (S cid ssh (int_or_zero t)).
      apply user_servers_of_lines_In. now exists l, t.
Qed.

Lemma identifier_resolution_witness :
  let w := mkWorld (Some "alice|c1|ssh a@host|10
bob|c2|ssh b@host|20
") [] in
  find_container_for_user_by_name "alice" "b@host" w = None
  /\ exists before ssh ts after,
       get_user_servers "bob" w = (before ++ ("c2", ssh, ts) :: after)%list
       /\ ("b@host" = "c2" \/ substring_of "b@host" ssh)
       /\ forall c s t, In (c, s, t) before ->
                        "b@host" <> c /\ ~ substring_of "b@host" s.
Proof.
  intros w. split.
  - reflexivity.
  - exact (proj1 (proj2 (identifier_resolution "bob" "b@host" w)) "c2" eq_refl).
Defined.

(* ================================================================== *)
(** * Connection capture *)
(* ================================================================== *)

Lemma looks_like_session_spec (s : string) :
  looks_like_session s = true <-> descriptor s.
Proof.
  unfold looks_like_session, descriptor.
  rewrite <- !contains_spec.
  destruct (contains "ssh session" (lower s)); simpl; [tauto|].
  destruct (contains "ssh" (lower s)); simpl.
  - destruct (contains "@" s); simpl; [tauto|].
    destruct (contains "-p" s); simpl; [tauto|].
    destruct (contains "forwarding" (lower s)); simpl; [tauto|].
    destruct (contains "http" (lower s)); simpl; [tauto|].
    split; [discriminate|]. intros [H|[[_ [H|H]]|[H|H]]]; discriminate.
  - destruct (contains "forwarding" (lower s)); simpl; [tauto|].
    destruct (contains "http" (lower s)); simpl; [tauto|].
    split; [discriminate|]. intros [H|[[H _]|[H|H]]]; discriminate.
Qed.

Lemma lower_app (a b : string) : lower (a ++ b) = lower a ++ lower b.
Proof. induction a as [|c a IH]; simpl; [reflexivity | now rewrite IH]. Qed.

Lemma lower_split (a : string) :
  forall s b,
    lower s = a ++ b ->
    exists a' b', s = a' ++ b' /\ lower a' = a /\ lower b' = b.
Proof.
  induction a as [|c a IH]; intros s b H.
  - exists "", s. auto.
  - destruct s as [|c' s]; [discriminate|].
    simpl in H. injection H as Hc H.
    destruct (IH s b H) as (a' & b' & -> & Ha & Hb).
    exists (String c' a'), b'. simpl. now rewrite Ha, Hc.
Qed.

(** A key word occurs in the lower-cased line when some spelling of it
    occurs in the line. *)
Lemma substring_of_lower (needle s : string) :
  substring_of needle (lower s) <->
  exists spelling, lower spelling = needle /\ substring_of spelling s.
Proof.
  split.
  - intros (before & after & H).
    apply lower_split in H as (b' & r & -> & _ & H).
    apply lower_split in H as (n' & a' & -> & Hn & _).
    exists n'. split; [exact Hn | now exists b', a'].
  - intros (n' & <- & before & after & ->).
    exists (lower before), (lower after). now rewrite !lower_app.
Qed.

Lemma lower_char_at (c : ascii) : lower_char c = "@"%char -> c = "@"%char.
Proof.
  destruct c as [[|] [|] [|] [|] [|] [|] [|] [|]]; vm_compute; intros H;
    first [discriminate H | reflexivity].
Qed.

Lemma lower_char_dash (c : ascii) : lower_char c = "-"%char -> c = "-"%char.
Proof.
  destruct c as [[|] [|] [|] [|] [|] [|] [|] [|]]; vm_compute; intros H;
    first [discriminate H | reflexivity].
Qed.

Lemma lower_char_p (c : ascii) :
  lower_char c = "p"%char -> c = "p"%char \/ c = "P"%char.
Proof.
  destruct c as [[|] [|] [|] [|] [|] [|] [|] [|]]; vm_compute; intros H;
    first [discriminate H | left; reflexivity | right; reflexivity].
Qed.

Lemma substring_of_lower_at (s : string) :
  substring_of "@" (lower s) <-> substring_of "@" s.
Proof.
  rewrite substring_of_lower. split.
  - intros (n & Hn & H). destruct n as [|c [|c' n]]; try discriminate.
    simpl in Hn. injection Hn as Hc. apply lower_char_at in Hc. now subst c.
  - intros H. now exists "@".
Qed.

Lemma substring_of_lower_dash_p (s : string) :
  substring_of "-p" (lower s) <-> substring_of "-p" s \/ substring_of "-P" s.
Proof.
  rewrite substring_of_lower. split.
  - intros (n & Hn & H). destruct n as [|c [|c' [|c'' n]]]; try discriminate.
    simpl in Hn. injection Hn as Hc Hc'.
    apply lower_char_dash in Hc. apply lower_char_p in Hc'. subst c.
    destruct Hc' as [-> | ->]; [now left | now right].
  - intros [H | H]; [now exists "-p" | now exists "-P"].
Qed.

(** The claim, read widely, and the test of the code differ by the lines
    whose only mark beside "ssh" is a capital ["-P"]. *)
Lemma descriptor_as_claimed_spec (s : string) :
  descriptor_as_claimed s <->
  descriptor s \/ (substring_of "ssh" (lower s) /\ substring_of "-P" s).
Proof.
  unfold descriptor_as_claimed, descriptor.
  rewrite substring_of_lower_at, substring_of_lower_dash_p. tauto.
Qed.

Lemma descriptor_nonempty (s : string) : descriptor s -> nonempty s = true.
Proof.
  intros H. destruct s; [|reflexivity]. exfalso.
  apply looks_like_session_spec in H. discriminate.
Qed.

Lemma passed_over_step (ms : N) (text : string) :
  passed_over (ReadLine ms text) <->
  nonempty (strip text) = false \/ looks_like_session (strip text) = false.
Proof.
  simpl. rewrite <- looks_like_session_spec. split.
  - intros H. right. now destruct (looks_like_session (strip text)).
  - intros [H | H] D.
    + apply looks_like_session_spec, descriptor_nonempty in D. congruence.
    + congruence.
Qed.

Lemma capture_loop_found (deadline : N) (proc : process) :
  forall (elapsed : N) (s : string) (rest : process),
    capture_loop deadline elapsed proc = (Some s, rest) <->
    exists before ms text,
      proc = (before ++ ReadLine ms text :: rest)%list
      /\ s = strip text /\ descriptor s
      /\ Forall passed_over before
      /\ (elapsed + waited before < deadline)%N.
Proof.
  induction proc as [|e proc IH]; intros elapsed s rest.
  - simpl. split.
    + destruct (elapsed <? deadline)%N; discriminate.
    + intros (before & ms & text & H & _). destruct before; discriminate.
  - cbn [capture_loop].
    destruct (N.ltb_spec elapsed deadline) as [Hlt|Hge].
    + assert (Skip : capture_loop deadline (elapsed + wait_of e) proc
                     = (Some s, rest) <->
                     exists before ms text,
                       e :: proc = ((e :: before) ++ ReadLine ms text :: rest)%list
                       /\ s = strip text /\ descriptor s
                       /\ Forall passed_over before
                       /\ (elapsed + waited (e :: before) < deadline)%N).
      { rewrite IH. cbn [waited]. split.
        - intros (b & ms & text & -> & H1 & H2 & H3 & H4).
          exists b, ms, text. repeat split; auto. lia.
        - intros (b & ms & text & [= ->] & H1 & H2 & H3 & H4).
          exists b, ms, text. repeat split; auto. lia. }
      assert (Past : passed_over e ->
                     (exists before ms text,
                       e :: proc = ((e :: before) ++ ReadLine ms text :: rest)%list
                       /\ s = strip text /\ descriptor s
                       /\ Forall passed_over before
                       /\ (elapsed + waited (e :: before) < deadline)%N)
                     <->
                     (exists before ms text,
                       e :: proc = (before ++ ReadLine ms text :: rest)%list
                       /\ s = strip text /\ descriptor s
                       /\ Forall passed_over before
                       /\ (elapsed + waited before < deadline)%N)).
      { intros He. split.
        - intros (b & ms & text & H0 & H1 & H2 & H3 & H4).
          exists (e :: b), ms, text. repeat split; auto.
        - intros (b & ms & text & H0 & H1 & H2 & H3 & H4).
          destruct b as [|e' b].
          + simpl in H0. injection H0 as -> ->. simpl in He.
            subst s. contradiction.
          + injection H0 as <- ->. exists b, ms, text.
            apply Forall_cons_iff in H3 as [_ H3]. repeat split; auto. }
      destruct e as [| |ms text].
      * change 1000%N with (wait_of ReadTimeout). rewrite Skip.
        now apply Past.
      * change 100%N with (wait_of ReadEof). rewrite Skip. now apply Past.
      * change ms with (wait_of (ReadLine ms text)) at 1 2.
        destruct (nonempty (strip text)) eqn:En; cbn [negb].
        -- destruct (looks_like_session (strip text)) eqn:El.
           ++ apply looks_like_session_spec in El. split.
              ** intros [= <- <-]. exists [], ms, text.
                 repeat split; auto. simpl. lia.
              ** intros (b & ms' & text' & H0 & H1 & H2 & H3 & H4).
                 destruct b as [|e' b].
                 --- simpl in H0. injection H0 as -> -> ->. now subst s.
                 --- injection H0 as <- ->.
                     apply Forall_cons_iff in H3 as [H3 _]. simpl in H3.
                     contradiction.
           ++ rewrite Skip. apply Past. apply passed_over_step. now right.
        -- rewrite Skip. apply Past. apply passed_over_step. now left.
    + split; [discriminate|].
      intros (b & ms & text & _ & _ & _ & _ & H). lia.
Qed.

Lemma capture_loop_nothing (deadline : N) (proc : process) :
  forall (elapsed : N) (rest : process),
    capture_loop deadline elapsed proc = (None, rest) ->
    exists before,
      proc = (before ++ rest)%list /\ Forall passed_over before
      /\ (rest = [] \/ deadline <= elapsed + waited before)%N.
Proof.
  induction proc as [|e proc IH]; intros elapsed rest.
  - simpl. intros H. exists [].
    destruct (elapsed <? deadline)%N; injection H as <-; auto.
  - cbn [capture_loop].
    destruct (N.ltb_spec elapsed deadline) as [Hlt|Hge].
    + assert (Skip : passed_over e ->
                     capture_loop deadline (elapsed + wait_of e) proc
                     = (None, rest) ->
                     exists before,
                       e :: proc = (before ++ rest)%list
                       /\ Forall passed_over before
                       /\ (rest = [] \/ deadline <= elapsed + waited before)%N).
      { intros He H. apply IH in H as (b & -> & Hb & Hd).
        exists (e :: b). repeat split; auto.
        cbn [waited]. destruct Hd; [now left | right; lia]. }
      destruct e as [| |ms text].
      * now apply Skip.
      * now apply Skip.
      * destruct (nonempty (strip text)) eqn:En; cbn [negb].
        -- destruct (looks_like_session (strip text)) eqn:El; [discriminate|].
           apply Skip. apply passed_over_step. now right.
        -- apply Skip. apply passed_over_step. now left.
    + intros [= <-]. exists []. repeat split; auto. right. simpl. lia.
Qed.

(** C8, as the capture has it.  The test of the capture loop holds of a
    line exactly when the lower-cased line contains "ssh session", or it
    contains "ssh" and the line itself contains "@" or "-p", or the
    lower-cased line contains "forwarding" or "http": it accepts what the
    claim accepts when every key word is looked for without regard to
    case, but for the lines whose only mark beside "ssh" is a capital
    "-P".  A capture returns a line exactly when the process delivers, before the
    deadline, a line whose stripped text is such a descriptor after reads
    that are none (time-outs, end of file, blank and other lines); it
    returns that stripped text and leaves every later read unconsumed.
    When it returns nothing, every read it consumed was none, and it
    stopped at the deadline or at the end of the output. *)
Theorem capture_first_match (proc : process) (timeout : N) :
  (forall s, looks_like_session s = true <-> descriptor s)
  /\ (forall s,
        descriptor_as_claimed s <->
        looks_like_session s = true
        \/ (substring_of "ssh" (lower s) /\ substring_of "-P" s))
  /\ (forall s rest,
        capture_ssh_session_line_from_process proc timeout = (Some s, rest) <->
        exists before ms text,
          proc = (before ++ ReadLine ms text :: rest)%list
          /\ s = strip text /\ descriptor s
          /\ Forall passed_over before
          /\ (waited before < 1000 * timeout)%N)
  /\ (forall rest,
        capture_ssh_session_line_from_process proc timeout = (None, rest) ->
        exists before,
          proc = (before ++ rest)%list /\ Forall passed_over before
          /\ (rest = [] \/ 1000 * timeout <= waited before)%N).
Proof.
  split; [exact looks_like_session_spec | split; [|split]].
  - intros s. rewrite looks_like_session_spec.
    apply descriptor_as_claimed_spec.
  - intros s rest. unfold capture_ssh_session_line_from_process.
    rewrite capture_loop_found.
    split; intros (b & ms & text & H0 & H1 & H2 & H3 & H4);
      exists b, ms, text; repeat split; auto; lia.
  - intros rest H. unfold capture_ssh_session_line_from_process in H.
    apply capture_loop_nothing in H as (b & H0 & H1 & H2).
    exists b. repeat split; auto.
Qed.

Lemma capture_first_match_witness :
  capture_ssh_session_line_from_process
    [ReadTimeout; ReadLine 20 "  Connecting...  "; ReadLine 5 " SSH: ssh a@b -p 22 ";
     ReadLine 3 "web session: https://x"] 25
  = (Some "SSH: ssh a@b -p 22", [ReadLine 3 "web session: https://x"]).
Proof.
  apply (proj1 (proj2 (proj2 (capture_first_match _ 25)))).
  exists [ReadTimeout; ReadLine 20 "  Connecting...  "], 5%N, " SSH: ssh a@b -p 22 ".
  split; [reflexivity | split; [reflexivity | split; [|split]]].
  - apply looks_like_session_spec. reflexivity.
  - constructor; [exact I | constructor; [|constructor]].
    simpl. intros D. apply looks_like_session_spec in D. discriminate.
  - reflexivity.
Defined.

(** C8, as stated, fails under both readings of "case-insensitively".
    Read over the whole sentence, the claim accepts ["ssh -P 22"], which
    the capture passes over: "-p" is looked for in the line as it is.
    Read over "ssh session" alone, the claim rejects ["SSH x@y"], which
    the capture returns: "ssh" is looked for in the lower-cased line. *)
Lemma capture_first_match_as_claimed_counterexample :
  ~ (forall s, nonempty s = true ->
               (looks_like_session s = true <-> descriptor_as_claimed s))
  /\ ~ (forall s, nonempty s = true ->
                  (looks_like_session s = true
                   <-> descriptor_as_claimed_narrowly s))
  /\ capture_ssh_session_line_from_process
       [ReadLine 5 "ssh -P 22"; ReadLine 5 "SSH x@y"] 25
     = (Some "SSH x@y", []).
Proof.
  split; [|split].
  - intros H. specialize (H "ssh -P 22" eq_refl).
    assert (D : descriptor_as_claimed "ssh -P 22").
    { right. left. split; [|right]; apply contains_spec; reflexivity. }
    apply H in D. discriminate D.
  - intros H. specialize (H "SSH x@y" eq_refl).
    assert (A : looks_like_session "SSH x@y" = true) by reflexivity.
    apply H in A. unfold descriptor_as_claimed_narrowly in A.
    rewrite <- !contains_spec in A.
    destruct A as [A | [[A _] | [A | A]]]; discriminate A.
  - vm_compute. reflexivity.
Qed.

(* ================================================================== *)
(** * Removal paths *)
(* ================================================================== *)

Lemma second_field_pipeless (l : string) :
  has_char PIPE l = false -> second_field l = inl IndexError.
Proof. intros H. unfold second_field. now rewrite (split_plain PIPE l H). Qed.

Lemma second_field_raises (l : string) (e : exn) :
  second_field l = inl e -> e = IndexError.
Proof.
  unfold second_field. destruct (split PIPE l) as [|a [|b r]]; congruence.
Qed.

Lemma lines_without_container_raises (cid bad : string) (lines : list string) :
  In bad lines -> has_char PIPE bad = false ->
  lines_without_container cid lines = inl IndexError.
Proof.
  intros Hin Hbad. induction lines as [|l ls IH]; [contradiction|].
  cbn [lines_without_container].
  destruct (second_field l) as [e|f] eqn:E.
  - now rewrite (second_field_raises l e E).
  - destruct Hin as [-> | Hin].
    + rewrite (second_field_pipeless bad Hbad) in E. discriminate.
    + now rewrite (IH Hin).
Qed.

Lemma any_removed_raises (l : string) (removed_items : list removed_item)
  (e : exn) :
  any_removed l removed_items = inl e -> e = IndexError.
Proof.
  induction removed_items as [|[[u c] s] r IH]; simpl; [discriminate|].
  destruct (second_field l) as [e'|f] eqn:E.
  - intros [= <-]. now apply second_field_raises in E.
  - destruct (String.eqb f c); [discriminate | exact IH].
Qed.

Lemma remaining_lines_raises (bad : string) (lines : list string)
  (removed_items : list removed_item) :
  In bad lines -> has_char PIPE bad = false -> removed_items <> [] ->
  remaining_lines lines removed_items = inl IndexError.
Proof.
  intros Hin Hbad Hne. induction lines as [|l ls IH]; [contradiction|].
  cbn [remaining_lines].
  destruct (any_removed l removed_items) as [e|gone] eqn:E.
  - now rewrite (any_removed_raises _ _ _ E).
  - destruct Hin as [-> | Hin].
    + destruct removed_items as [|[[u c] s] r]; [contradiction|].
      simpl in E. rewrite (second_field_pipeless bad Hbad) in E. discriminate.
    + now rewrite (IH Hin).
Qed.

Lemma stop_and_remove_world (run : runner) (cid : string) (w : world) :
  snd (stop_and_remove run cid w)
  = {| db := db w;
       trace := (trace w
                 ++ DockerStop cid
                    :: match run (trace w) (DockerStop cid) with
                       | inr _ => [DockerRm cid]
                       | inl _ => []
                       end)%list |}.
Proof.
  unfold stop_and_remove, try_except, bind, subprocess_run, ret, emit.
  cbn [db trace].
  destruct (run (trace w) (DockerStop cid)) as [e|[]]; [reflexivity|].
  cbn [db trace].
  destruct (run (trace w ++ [DockerStop cid])%list (DockerRm cid));
    cbn [snd]; now rewrite <- app_assoc.
Qed.

Lemma scan_lines_db (run : runner) (now : Z) (lines : list string) :
  forall (acc : list removed_item) (w : world),
    db (snd (scan_lines run now lines acc w)) = db w.
Proof.
  induction lines as [|l ls IH]; intros acc w; [reflexivity|].
  cbn [scan_lines].
  destruct (split PIPE l) as [|a [|b [|c [|d [|e r]]]]]; try apply IH.
  destruct (INSTANCE_TTL_SECONDS <=? now - int_or_zero d)%Z; [|apply IH].
  now rewrite IH, stop_and_remove_world.
Qed.

(** C10 -- Removal paths and lines without separator.  When the store
    holds a line with no ['|'], taking its second field raises
    [IndexError]: [remove_from_database_by_container] raises it, for any
    container, and leaves the file as it was, and so does the filter of
    the sweeper whenever it runs (at least one record to remove), so that
    a sweeper run leaves the file as it was.  Reading records skips the
    line: [get_user_servers] gives the records of the lines before it
    followed by those of the lines after it. *)
Theorem removal_raises_on_pipeless_line
  (w : world) (bad cid user : string) (removed_items : list removed_item)
  (run : runner) (now : Z) :
  In bad (read_database_lines w) ->
  has_char PIPE bad = false ->
  second_field bad = inl IndexError
  /\ remove_from_database_by_container cid w = (inl IndexError, w)
  /\ (removed_items <> [] ->
      remaining_lines (read_database_lines w) removed_items = inl IndexError)
  /\ db (cleanup_old_instances run now w) = db w
  /\ exists before after,
       read_database_lines w = (before ++ bad :: after)%list
       /\ get_user_servers user w
          = (user_servers_of_lines user before
             ++ user_servers_of_lines user after)%list.
Proof.
  intros Hin Hbad. split; [|split; [|split; [|split]]].
  - now apply second_field_pipeless.
  - unfold remove_from_database_by_container, bind, gets, lift.
    now rewrite (lines_without_container_raises cid bad _ Hin Hbad).
  - intros Hne. now apply remaining_lines_raises with bad.
  - unfold cleanup_old_instances.
    destruct (read_database_lines w) as [|l ls] eqn:El; [reflexivity|].
    pose proof (scan_lines_db run now (l :: ls) [] w) as Hdb.
    destruct (scan_lines run now (l :: ls) [] w) as [removed w1]. simpl in Hdb.
    destruct removed as [|it its]; [exact Hdb|].
    rewrite (remaining_lines_raises bad (l :: ls) (it :: its) Hin Hbad)
      by discriminate.
    exact Hdb.
  - apply in_split in Hin as (before & after & E). exists before, after.
    split; [exact E|]. unfold get_user_servers.
    rewrite E, user_servers_of_lines_app. cbn [user_servers_of_lines].
    rewrite (user_server_of_line_wrong_count user bad); [reflexivity|].
    rewrite (split_plain PIPE bad Hbad). discriminate.
Qed.

Lemma removal_raises_on_pipeless_line_witness :
  let w := mkWorld (Some "alice|c1|ssh a@host|10
garbage
bob|c2|ssh b@host|20
") [] in
  remove_from_database_by_container "c1" w = (inl IndexError, w)
  /\ db (cleanup_old_instances docker_runs 1700000000 w) = db w
  /\ get_user_servers "bob" w = [("c2", "ssh b@host", 20%Z)].
Proof.
  intros w.
  assert (Hin : In "garbage" (read_database_lines w))
    by (vm_compute; right; left; reflexivity).
  pose proof (removal_raises_on_pipeless_line w "garbage" "c1" "bob" []
                docker_runs 1700000000 Hin eq_refl) as (_ & H2 & _ & H4 & _).
  split; [exact H2 | split; [exact H4 | vm_compute; reflexivity]].
Defined.

(* ================================================================== *)
(** * Controller *)
(* ================================================================== *)

Lemma append_inv_head (a x y : string) : a ++ x = a ++ y -> x = y.
Proof. induction a as [|c a IH]; simpl; [auto | intros [= H]; auto]. Qed.

Lemma rstrip_by_cons_kept (ws : ascii -> bool) (c : ascii) (r : string) :
  ws c = false -> rstrip_by ws (String c r) <> "".
Proof.
  intros H. simpl. destruct (rstrip_by ws r); [rewrite H|]; discriminate.
Qed.

Lemma four_fields_line (l o c s t : string) :
  split PIPE l = [o; c; s; t] -> l = o ++ "|" ++ c ++ "|" ++ s ++ "|" ++ t.
Proof. intros H. rewrite <- (join_split PIPE l) at 1. now rewrite H. Qed.

Lemma four_fields_plain (l o c s t : string) :
  split PIPE l = [o; c; s; t] ->
  has_char PIPE o = false /\ has_char PIPE c = false
  /\ has_char PIPE s = false /\ has_char PIPE t = false.
Proof.
  intros H. pose proof (split_pieces_plain PIPE l) as F. rewrite H in F.
  apply Forall_cons_iff in F as [Ho F]. apply Forall_cons_iff in F as [Hc F].
  apply Forall_cons_iff in F as [Hs F]. apply Forall_cons_iff in F as [Ht _].
  auto.
Qed.

(** Replacing the third field of a clean four-field line by a plain text
    gives a clean line. *)
Lemma session_line_clean (l o c old t s : string) :
  clean_line l = true -> split PIPE l = [o; c; old; t] ->
  plain_field s = true ->
  clean_line (o ++ "|" ++ c ++ "|" ++ s ++ "|" ++ t) = true.
Proof.
  intros Hl Hsplit Hs. apply four_fields_line in Hsplit. subst l.
  apply clean_line_spec in Hl as (_ & Hstrip & Hlf & Hcr).
  apply plain_field_spec in Hs as (_ & Hs1 & Hs2).
  apply (strip_by_fixed isspace) in Hstrip as [HL HR].
  rewrite !has_char_app in Hlf, Hcr.
  repeat (apply orb_false_iff in Hlf as [? Hlf]).
  repeat (apply orb_false_iff in Hcr as [? Hcr]).
  apply clean_line_spec. repeat split.
  - destruct o; discriminate.
  - apply strip_by_fixed. split.
    + destruct o as [|x o]; [reflexivity|].
      apply (lstrip_by_fixed isspace x).
      now apply (lstrip_by_fixed isspace x) in HL.
    + change ("|" ++ t) with (String PIPE t) in *.
      rewrite <- !append_assoc in HR. rewrite <- !append_assoc.
      rewrite rstrip_by_app in HR
        by (apply rstrip_by_cons_kept, isspace_PIPE).
      apply append_inv_head in HR.
      rewrite rstrip_by_app by (apply rstrip_by_cons_kept, isspace_PIPE).
      now rewrite HR.
  - rewrite !has_char_app.
    repeat (apply orb_false_iff; split); auto.
  - rewrite !has_char_app.
    repeat (apply orb_false_iff; split); auto.
Qed.

Lemma lines_with_session_spec (cid ssh_line : string) (lines : list string) :
  forall new,
    lines_with_session cid ssh_line lines = inr new ->
    Forall2 (line_frame cid ssh_line) lines new
    /\ (plain_field ssh_line = true ->
        (Forall (fun l => clean_line l = true) lines ->
         Forall (fun l => clean_line l = true) new)
        /\ forall user,
             user_servers_of_lines user new
             = map (with_session cid ssh_line) (user_servers_of_lines user lines)).
Proof.
  induction lines as [|l ls IH]; intros new.
  - intros [= <-]. split; [constructor|]. intros _. split; [auto | reflexivity].
  - cbn [lines_with_session].
    destruct (second_field l) as [e|f] eqn:Ef; [discriminate|].
    destruct (lines_with_session cid ssh_line ls) as [e|new'];
      [discriminate|].
    intros [= <-]. destruct (IH new' eq_refl) as [IHf IHp].
    unfold second_field in Ef.
    destruct (String.eqb_spec f cid) as [->|Hne].
    + destruct (split PIPE l) as [|p0 [|p1 [|p2 [|p3 [|p4 r]]]]] eqn:Es;
        try discriminate; injection Ef as ->.
      * (* two fields *)
        split; [constructor; [now left | exact IHf]|].
        intros Hp. destruct (IHp Hp) as [IHc IHs]. split.
        -- intros F. apply Forall_cons_iff in F as [F1 F2].
           constructor; auto.
        -- intros user. cbn [user_servers_of_lines].
           rewrite map_app, <- IHs. f_equal.
           unfold user_server_of_line. now rewrite Es.
      * (* three fields *)
        split; [constructor; [now left | exact IHf]|].
        intros Hp. destruct (IHp Hp) as [IHc IHs]. split.
        -- intros F. apply Forall_cons_iff in F as [F1 F2].
           constructor; auto.
        -- intros user. cbn [user_servers_of_lines].
           rewrite map_app, <- IHs. f_equal.
           unfold user_server_of_line. now rewrite Es.
      * (* four fields: the rewritten line *)
        change (join "|" [p0; cid; ssh_line; p3])
          with (p0 ++ "|" ++ cid ++ "|" ++ ssh_line ++ "|" ++ p3).
        split.
        { constructor; [|exact IHf]. right. now exists p0, p2, p3. }
        intros Hp. destruct (IHp Hp) as [IHc IHs]. split.
        -- intros F. apply Forall_cons_iff in F as [F1 F2].
           constructor; [|auto].
           now apply session_line_clean with l p2.
        -- intros user. cbn [user_servers_of_lines].
           rewrite map_app, <- IHs. f_equal.
           destruct (four_fields_plain _ _ _ _ _ Es) as (H0 & H1 & _ & H3).
           apply plain_field_spec in Hp as (Hp & _).
           unfold user_server_of_line. rewrite Es.
           change (p0 ++ String "|" (cid ++ String "|" (ssh_line ++ String "|" p3)))
             with (p0 ++ "|" ++ cid ++ "|" ++ ssh_line ++ "|" ++ p3).
           rewrite (split_four p0 cid ssh_line p3) by assumption.
           destruct (String.eqb p0 user); [|reflexivity].
           simpl. now rewrite String.eqb_refl.
      * (* more fields *)
        split; [constructor; [now left | exact IHf]|].
        intros Hp. destruct (IHp Hp) as [IHc IHs]. split.
        -- intros F. apply Forall_cons_iff in F as [F1 F2].
           constructor; auto.
        -- intros user. cbn [user_servers_of_lines].
           rewrite map_app, <- IHs. f_equal.
           unfold user_server_of_line. now rewrite Es.
    + split; [constructor; [now left | exact IHf]|].
      intros Hp. destruct (IHp Hp) as [IHc IHs]. split.
      * intros F. apply Forall_cons_iff in F as [F1 F2]. constructor; auto.
      * intros user. cbn [user_servers_of_lines].
        rewrite map_app, <- IHs. f_equal.
        unfold user_server_of_line.
        destruct (split PIPE l) as [|p0 [|p1 [|p2 [|p3 [|p4 r]]]]];
          try reflexivity.
        injection Ef as ->.
        destruct (String.eqb p0 user); [|reflexivity].
        simpl. now rewrite (proj2 (String.eqb_neq f cid) Hne).
Qed.

Lemma store_session_frame (cid ssh_line : string) (w : world) :
  let w' := snd (store_session cid ssh_line w) in
  (fst (store_session cid ssh_line w) = inl IndexError /\ w' = w)
  \/ (fst (store_session cid ssh_line w) = inr tt
      /\ session_frame cid ssh_line w w').
Proof.
  unfold store_session, bind, gets, lift, modify.
  destruct (lines_with_session cid ssh_line (read_database_lines w))
    as [e|new] eqn:E.
  - left. simpl. split; [|reflexivity]. f_equal.
    clear -E. revert E. generalize (read_database_lines w) as lines.
    induction lines as [|l ls IH]; simpl; [discriminate|].
    destruct (second_field l) as [e'|f] eqn:Ef.
    + intros [= <-]. now apply second_field_raises in Ef.
    + destruct (lines_with_session cid ssh_line ls); [|discriminate].
      intros [= <-]. now apply IH.
  - right. simpl. split; [reflexivity|].
    destruct (lines_with_session_spec cid ssh_line _ new E) as [F P].
    exists new. split; [reflexivity | split; [exact F|]].
    intros Hp user. destruct (P Hp) as [Hc Hs].
    unfold get_user_servers at 1. rewrite read_written_lines.
    + apply Hs.
    + apply Hc, read_database_lines_clean.
Qed.

Lemma session_frame_db (cid ssh_line : string) (w0 w w1 w2 : world) :
  db w0 = db w -> db w1 = db w2 ->
  session_frame cid ssh_line w0 w1 -> session_frame cid ssh_line w w2.
Proof.
  intros H0 H12 (new & Hdb & F & P). exists new.
  split; [congruence | split].
  - now rewrite <- (read_database_lines_db w0 w H0).
  - intros Hp user.
    rewrite <- (get_user_servers_db user w1 w2 H12),
            <- (get_user_servers_db user w0 w H0).
    now apply P.
Qed.

Lemma recapture_frame (i : interaction) (cid : string) (exec : exn + process)
  (on_failure : message) (w0 w : world) :
  db w0 = db w ->
  let w' := snd (recapture i cid exec on_failure w0) in
  db w' = db w
  \/ exists ssh_line,
       recaptured exec = Some ssh_line /\ session_frame cid ssh_line w w'.
Proof.
  intros H0. unfold recapture, bind, modify, lift, respond, recaptured.
  destruct exec as [e|proc]; [left; exact H0|].
  destruct (fst (capture_ssh_session_line_from_process proc 15))
    as [[|a s]|]; try (left; exact H0).
  pose proof (store_session_frame cid (String a s)
                (emit (DockerExecTmate cid) w0)) as S.
  cbv zeta in S.
  destruct (store_session cid (String a s) (emit (DockerExecTmate cid) w0))
    as [[e|[]] w1]; simpl in S.
  - left. destruct S as [[_ ->] | [S _]]; [exact H0 | discriminate].
  - destruct S as [[S _] | [_ S]]; [discriminate|].
    right. exists (String a s). split; [reflexivity|].
    simpl. apply session_frame_db with (emit (DockerExecTmate cid) w0) w1;
      [exact H0 | now rewrite tell_owner_db | exact S].
Qed.

Lemma except_CalledProcessError_db (m : M unit) (w : world) :
  db (snd (except_CalledProcessError m w)) = db (snd (m w)).
Proof.
  unfold except_CalledProcessError, try_except.
  destruct (m w) as [[e|[]] w']; [|reflexivity].
  destruct e; reflexivity.
Qed.

Lemma except_Exception_db (m : M unit) (w : world) :
  db (snd (except_Exception m w)) = db (snd (m w)).
Proof.
  unfold except_Exception, try_except.
  destruct (m w) as [[e|[]] w']; reflexivity.
Qed.

Lemma controller_frame_of_db (i : interaction) (name : string)
  (exec : exn + process) (w w1 w2 : world) :
  db w1 = db w2 ->
  controller_frame_of i name exec w w1 -> controller_frame_of i name exec w w2.
Proof.
  intros H [Hdb | (cid & s & Hf & Hr & S)].
  - left. congruence.
  - right. exists cid, s. split; [exact Hf | split; [exact Hr|]].
    now apply session_frame_db with w w1.
Qed.

(** What start and restart share: a docker command, then the recapture. *)
Lemma power_then_recapture_frame (i : interaction) (name cid : string)
  (command : effect) (outcome : exn + unit) (exec : exn + process)
  (w : world) :
  find_container_for_user_by_name (user_str i) name w = Some cid ->
  controller_frame_of i name exec w
    (snd ((modify (emit command) ;;;
           lift outcome ;;;
           recapture i cid exec MsgNoSessionCaptured)%py w)).
Proof.
  intros Hf. unfold bind at 1 2. unfold modify at 1. unfold lift at 1.
  destruct outcome as [e|[]]; [now left|].
  destruct (recapture_frame i cid exec MsgNoSessionCaptured
              (emit command w) w (emit_db command w)) as [H | (s & Hr & S)].
  - now left.
  - right. now exists cid, s.
Qed.

Lemma Forall2_same {A : Type} (R : A -> A -> Prop) (l : list A) :
  (forall x, R x x) -> Forall2 R l l.
Proof. intros H. induction l; constructor; auto. Qed.

(** Where the captured line is a plain field and nobody else has a record
    with the instance id, the frame of the commands is the frame of the
    claim. *)
Lemma controller_frame_of_as_claimed (i : interaction) (name : string)
  (exec : exn + process) (w w' : world) (cid : string) :
  controller_frame_of i name exec w w' ->
  find_container_for_user_by_name (user_str i) name w = Some cid ->
  (forall s, recaptured exec = Some s -> plain_field s = true) ->
  sole_owner (user_str i) cid w ->
  frame_as_claimed (user_str i) cid w w'.
Proof.
  intros [Hdb | (cid' & s & Hf & Hr & new & Hd & F & P)] Hfind Hplain Hsole.
  - split.
    + intros u _. now apply get_user_servers_db.
    + rewrite (get_user_servers_db (user_str i) w' w Hdb).
      apply Forall2_same. intros r. auto.
  - assert (cid' = cid) by congruence. subst cid'.
    specialize (P (Hplain s Hr)). split.
    + intros u Hu. rewrite P. rewrite <- (map_id (get_user_servers u w)) at 2.
      apply map_ext_in. intros [[c o] t] Hin. unfold with_session.
      specialize (Hsole u Hu _ Hin). cbn [fst] in Hsole.
      now rewrite (proj2 (String.eqb_neq c cid) Hsole).
    + rewrite P. induction (get_user_servers (user_str i) w) as [|[[c o] t] rs IH];
        constructor; [|exact IH].
      unfold with_session. cbn [fst snd].
      destruct (String.eqb_spec c cid) as [->|Hne]; cbn [fst snd]; auto.
      repeat split. intros Hc. now contradiction Hc.
Qed.

(** C9, as the commands have it.  start, restart and regen-ssh either
    leave the file as it was, or rewrite it from its lines for the
    container they resolved and the line they captured: every line is kept
    as it is, but the four-field lines with that instance id, whoever
    owns them, whose first, second and fourth field (owner, instance id,
    creation time) are written back around the new line.  When the
    captured line has no ['|'] and no line break, what [get_user_servers]
    returns afterwards, for every user, is what it returned before with
    the connection string of the records of that instance id replaced,
    nothing else; so when moreover no other owner has a record with that
    id, the frame of the claim holds: the records of the other owners and
    the other records of the requester are as they were, and the record
    rewritten keeps its instance id and creation time.  stop never writes
    the file. *)
Theorem controller_frame
  (i : interaction) (container_name : string)
  (started restarted stopped : exn + unit) (exec : exn + process) (w : world) :
  let frame w' :=
    controller_frame_of i container_name exec w w'
    /\ (forall cid,
          find_container_for_user_by_name (user_str i) container_name w
          = Some cid ->
          (forall s, recaptured exec = Some s -> plain_field s = true) ->
          sole_owner (user_str i) cid w ->
          frame_as_claimed (user_str i) cid w w') in
  frame (snd (cmd_start i container_name started exec w))
  /\ frame (snd (cmd_restart i container_name restarted exec w))
  /\ frame (snd (cmd_regen_ssh i container_name exec w))
  /\ db (snd (cmd_stop i container_name stopped w)) = db w.
Proof.
  intros frame.
  assert (Frame : forall w', controller_frame_of i container_name exec w w' ->
                             frame w').
  { intros w' H. split; [exact H|]. intros cid Hf Hp Hs.
    now apply controller_frame_of_as_claimed with container_name exec. }
  unfold cmd_start, cmd_restart, cmd_regen_ssh, cmd_stop.
  destruct (find_container_for_user_by_name (user_str i) container_name w)
    as [[|a cid]|] eqn:Hf;
    try (split; [|split; [|split]]; try reflexivity; apply Frame; now left).
  split; [|split; [|split]]; try apply Frame.
  - eapply controller_frame_of_db;
      [symmetry; apply except_CalledProcessError_db|].
    now apply power_then_recapture_frame.
  - eapply controller_frame_of_db;
      [symmetry; apply except_CalledProcessError_db|].
    now apply power_then_recapture_frame.
  - eapply controller_frame_of_db; [symmetry; apply except_Exception_db|].
    destruct (recapture_frame i (String a cid) exec MsgCaptureFailed w w
                eq_refl) as [H | (s & Hr & S)].
    + now left.
    + right. now exists (String a cid), s.
  - rewrite except_CalledProcessError_db.
    unfold bind, modify, lift, respond. destruct stopped as [e|[]]; reflexivity.
Qed.

Lemma controller_frame_witness :
  let alice := mkInteraction "alice" (Some ["Basic"]) true in
  let w := mkWorld (Some "alice|c1|ssh old@host|100
bob|c2|ssh b@host|200
") [] in
  let w' := snd (cmd_start alice "old@" (inr tt) (inr [ReadLine 5 "ssh new@host"]) w) in
  get_user_servers "alice" w' = [("c1", "ssh new@host", 100%Z)]
  /\ get_user_servers "bob" w' = get_user_servers "bob" w.
Proof.
  intros alice w w'.
  destruct (proj1 (proj1 (controller_frame alice "old@" (inr tt) (inr tt)
                            (inr tt) (inr [ReadLine 5 "ssh new@host"]) w)))
    as [H | (cid & s & Hf & Hr & new & Hdb & F & P)].
  - vm_compute in H. discriminate H.
  - vm_compute in Hf. injection Hf as <-.
    vm_compute in Hr. injection Hr as <-.
    split.
    + exact (P eq_refl "alice").
    + exact (P eq_refl "bob").
Defined.

(** C9, as stated, fails in three ways, here on regen-ssh by "alice" for
    her container "c1".  A record of another owner with the same instance
    id gets the new connection string too.  A captured line with a ['|']
    turns the record into a line of five fields, which no listing returns.
    A captured line with a carriage return inside is written as one line
    and read back as two: the record is lost and another owner gets a
    record that was never created. *)
Lemma controller_frame_as_claimed_counterexample :
  let alice := mkInteraction "alice" None true in
  let regen text w :=
    snd (cmd_regen_ssh alice "c1" (inr [ReadLine 5 text]) w) in
  let shared := mkWorld (Some "alice|c1|ssh old@host|100
bob|c1|ssh b@host|200
") [] in
  let single := mkWorld (Some "alice|c1|ssh old@host|100
") [] in
  ~ frame_as_claimed "alice" "c1" shared (regen "ssh new@host" shared)
  /\ ~ frame_as_claimed "alice" "c1" single
         (regen "ssh new@host | http://x" single)
  /\ ~ frame_as_claimed "alice" "c1" single
         (regen ("http://x" ++ String CR "bob|c9|ssh b@host") single).
Proof.
  intros alice regen shared single. split; [|split].
  - intros [H _]. specialize (H "bob"). vm_compute in H.
    assert (E : "bob" <> "alice") by discriminate.
    specialize (H E). discriminate H.
  - intros [_ H]. vm_compute in H. inversion H.
  - intros [H _]. specialize (H "bob"). vm_compute in H.
    assert (E : "bob" <> "alice") by discriminate.
    specialize (H E). discriminate H.
Qed.

(* ================================================================== *)
(** * Expiry sweeper *)
(* ================================================================== *)

Lemma world_eta (w : world) : {| db := db w; trace := trace w |} = w.
Proof. now destruct w. Qed.

Lemma scan_lines_spec (run : runner) (now : Z) (lines : list string) :
  forall (acc : list removed_item) (w : world),
    scan_lines run now lines acc w
    = ((acc ++ map item_of_line (filter (expired_line now) lines))%list,
       {| db := db w;
          trace := (trace w
                    ++ teardown run (trace w)
                         (filter (expired_line now) lines))%list |}).
Proof.
  induction lines as [|l ls IH]; intros acc w.
  - simpl. now rewrite !app_nil_r, world_eta.
  - cbn [scan_lines filter].
    assert (Hexp : expired_line now l
                   = match split PIPE l with
                     | [_; _; _; ts] =>
                         (INSTANCE_TTL_SECONDS <=? now - int_or_zero ts)%Z
                     | _ => false
                     end) by reflexivity.
    assert (Hitem : item_of_line l
                    = match split PIPE l with
                      | [user; cid; ssh_cmd; _] => (user, cid, ssh_cmd)
                      | _ => (EmptyString, line_cid l, EmptyString)
                      end) by reflexivity.
    assert (Hcid : line_cid l
                   = match split PIPE l with
                     | _ :: cid :: _ => cid
                     | _ => EmptyString
                     end) by reflexivity.
    destruct (split PIPE l) as [|a [|b [|c [|d [|e r]]]]];
      try (rewrite Hexp; apply IH).
    rewrite Hexp.
    destruct (INSTANCE_TTL_SECONDS <=? now - int_or_zero d)%Z; [|apply IH].
    rewrite IH, stop_and_remove_world. cbn [map teardown db trace].
    rewrite Hitem, Hcid. now rewrite <- !app_assoc.
Qed.

Lemma teardown_stops_return (run : runner) (gone : list string) :
  stops_return run ->
  forall t, teardown run t gone = flat_map teardown_of gone.
Proof.
  intros Hr. induction gone as [|l ls IH]; intros t; [reflexivity|].
  cbn [teardown flat_map]. rewrite (Hr t (line_cid l)), IH. reflexivity.
Qed.

Lemma teardown_stops (run : runner) (gone : list string) (l : string) :
  In l gone -> forall t, In (DockerStop (line_cid l)) (teardown run t gone).
Proof.
  induction gone as [|g gs IH]; [contradiction|].
  intros [-> | Hin] t; cbn [teardown].
  - now left.
  - apply in_or_app. right. now apply IH.
Qed.

(** The calls of a run are about the containers of the expired lines, and
    a [docker rm -f] is made only where the stop returned. *)
Lemma teardown_targets (run : runner) (gone : list string) (e : effect) :
  forall t,
    In e (teardown run t gone) ->
    exists l, In l gone
              /\ (e = DockerStop (line_cid l)
                  \/ e = DockerRm (line_cid l)
                     /\ exists t', run t' (DockerStop (line_cid l)) = inr tt).
Proof.
  induction gone as [|g gs IH]; intros t; [contradiction|].
  cbn [teardown]. intros H. apply in_app_or in H as [H | H].
  - exists g. split; [now left|].
    destruct H as [<- | H]; [now left|].
    destruct (run t (DockerStop (line_cid g))) as [x|[]] eqn:E;
      [contradiction|].
    destruct H as [<- | []]. right. split; [reflexivity | now exists t].
  - destruct (IH _ H) as (l & Hl & Hd). exists l. split; [now right | exact Hd].
Qed.

Lemma teardown_docker_missing (gone : list string) (t : list effect) :
  teardown docker_missing t gone
  = map (fun l => DockerStop (line_cid l)) gone.
Proof.
  revert t. induction gone as [|g gs IH]; intros t; [reflexivity|].
  cbn [teardown map]. unfold docker_missing at 1. cbn [app].
  now rewrite IH.
Qed.

Lemma second_field_cid (l : string) :
  has_char PIPE l = true -> second_field l = inr (line_cid l).
Proof.
  intros H. apply has_char_count in H.
  pose proof (split_length PIPE l) as L.
  unfold second_field, line_cid.
  destruct (split PIPE l) as [|a [|b r]]; simpl in L; try lia. reflexivity.
Qed.

Lemma any_removed_spec (l : string) (gone : list string) :
  has_char PIPE l = true ->
  Forall (fun g => expired_line 0 g = expired_line 0 g) gone ->
  (forall g, In g gone -> List.length (split PIPE g) = 4) ->
  any_removed l (map item_of_line gone) = inr (shares_instance gone l).
Proof.
  intros Hl _ Hg. induction gone as [|g gs IH]; [reflexivity|].
  cbn [map any_removed shares_instance existsb].
  assert (E : item_of_line g = (fst (fst (item_of_line g)), line_cid g,
                                snd (item_of_line g))).
  { specialize (Hg g (or_introl eq_refl)).
    unfold item_of_line, line_cid.
    destruct (split PIPE g) as [|a [|b [|c [|d [|e r]]]]]; try discriminate.
    reflexivity. }
  rewrite E, (second_field_cid l Hl).
  destruct (String.eqb (line_cid l) (line_cid g)); [reflexivity|].
  apply IH. intros g' H. apply Hg. now right.
Qed.

Lemma remaining_lines_spec (lines gone : list string) :
  (forall l, In l lines -> has_char PIPE l = true) ->
  (forall g, In g gone -> List.length (split PIPE g) = 4) ->
  remaining_lines lines (map item_of_line gone)
  = inr (filter (fun l => negb (shares_instance gone l)) lines).
Proof.
  intros Hl Hg. induction lines as [|l ls IH]; [reflexivity|].
  cbn [remaining_lines filter].
  rewrite any_removed_spec; auto.
  - rewrite IH by (intros x Hx; apply Hl; now right).
    now destruct (shares_instance gone l).
  - apply Hl. now left.
  - now apply Forall_forall.
Qed.

Lemma notify_removed_spec (items : list removed_item) :
  forall w,
    notify_removed items w
    = {| db := db w;
         trace := (trace w
                   ++ map (fun it : removed_item =>
                             let '(u, c, s) := it in NotifyDeletion u c s)
                          items)%list |}.
Proof.
  induction items as [|[[u c] s] its IH]; intros w.
  - simpl. now rewrite app_nil_r, world_eta.
  - cbn [notify_removed map]. rewrite IH. cbn [emit db trace].
    now rewrite <- app_assoc.
Qed.

Lemma expired_line_four (now : Z) (l : string) :
  expired_line now l = true -> List.length (split PIPE l) = 4.
Proof.
  unfold expired_line.
  destruct (split PIPE l) as [|a [|b [|c [|d [|e r]]]]]; try discriminate.
  reflexivity.
Qed.

Lemma expired_record_line (now : Z) (u c s : string) (created : Z) :
  has_char PIPE u = false -> has_char PIPE c = false ->
  has_char PIPE s = false ->
  expired_line now (record_line u c s created)
  = (INSTANCE_TTL_SECONDS <=? now - created)%Z.
Proof.
  intros Hu Hc Hs. unfold expired_line.
  rewrite split_record_line by assumption.
  unfold int_or_zero. now rewrite int_str_of_int.
Qed.

Lemma unique_instance_filter (now : Z) (lines : list string) :
  NoDup (map line_cid lines) ->
  filter (fun l => negb (shares_instance (filter (expired_line now) lines) l))
         lines
  = filter (fun l => negb (expired_line now l)) lines.
Proof.
  intros Hnd. apply filter_ext_in. intros l Hl. f_equal.
  unfold shares_instance.
  destruct (expired_line now l) eqn:E.
  - apply existsb_exists. exists l. split.
    + apply filter_In. auto.
    + apply String.eqb_refl.
  - destruct (existsb _ _) eqn:X; [|reflexivity].
    apply existsb_exists in X as (g & Hg & Heq).
    apply filter_In in Hg as [Hg Eg]. apply String.eqb_eq in Heq.
    assert (l = g); [|congruence].
    clear -Hnd Hl Hg Heq. induction lines as [|x xs IH]; [contradiction|].
    simpl in Hnd. apply NoDup_cons_iff in Hnd as [Hx Hnd].
    destruct Hl as [-> | Hl], Hg as [-> | Hg]; auto.
    + exfalso. apply Hx. rewrite Heq. now apply in_map.
    + exfalso. apply Hx. rewrite <- Heq. now apply in_map.
Qed.

(** C5, as the sweeper has it.  In a store whose lines all have a ['|'],
    with [gone] the four-field lines such that [now - created_at >= TTL]
    (in the order of the file) and [kept] the lines that carry the
    instance id of none of them, one run of [cleanup_old_instances]
    - calls [docker stop] for each line of [gone] and, when that call
      returns, [docker rm -f] (so both for every line when no stop
      raises), and makes no other docker call;
    - when [gone] is empty, does nothing else: the file is not written;
    - otherwise writes the file once, after these calls, with the lines
      [kept], and then calls [notify_deletion] once for each line of
      [gone]; what is read back is [kept].
    When the instance ids of the lines are pairwise distinct, [kept] is the
    list of the lines that are not expired records.  A record created at
    [created] is expired at [created + TTL] and is not at
    [created + TTL - 1]. *)
Theorem sweeper_run (run : runner) (now : Z) (w : world) :
  (forall l, In l (read_database_lines w) -> has_char PIPE l = true) ->
  let lines := read_database_lines w in
  let gone := filter (expired_line now) lines in
  let kept := filter (fun l => negb (shares_instance gone l)) lines in
  let w' := cleanup_old_instances run now w in
  trace w'
  = (trace w ++ teardown run (trace w) gone
     ++ match gone with
        | [] => []
        | _ => FileRewrite (database_text kept) :: map notification_of gone
        end)%list
  /\ (forall l, In l gone ->
                In (DockerStop (line_cid l)) (teardown run (trace w) gone))
  /\ (stops_return run ->
      teardown run (trace w) gone = flat_map teardown_of gone)
  /\ db w' = match gone with
             | [] => db w
             | _ => Some (database_text kept)
             end
  /\ (gone <> [] -> read_database_lines w' = kept)
  /\ (NoDup (map line_cid lines) ->
      kept = filter (fun l => negb (expired_line now l)) lines)
  /\ (forall u c s created,
        has_char PIPE u = false -> has_char PIPE c = false ->
        has_char PIPE s = false ->
        (expired_line now (record_line u c s created) = true <->
         (INSTANCE_TTL_SECONDS <= now - created)%Z)
        /\ expired_line (created + INSTANCE_TTL_SECONDS)
                        (record_line u c s created) = true
        /\ expired_line (created + INSTANCE_TTL_SECONDS - 1)
                        (record_line u c s created) = false).
Proof.
  intros Hpipe lines gone kept w'.
  assert (Hrun : w' = match gone with
                      | [] => {| db := db w;
                                 trace := (trace w
                                           ++ teardown run (trace w) gone)%list |}
                      | _ => {| db := Some (database_text kept);
                                trace := (trace w
                                          ++ teardown run (trace w) gone
                                          ++ FileRewrite (database_text kept)
                                             :: map notification_of gone)%list |}
                      end).
  { unfold w', cleanup_old_instances. fold lines.
    destruct lines as [|l ls] eqn:El.
    - simpl. now rewrite app_nil_r, world_eta.
    - rewrite scan_lines_spec. fold gone. cbn [app].
      destruct gone as [|g gs] eqn:Eg; [reflexivity|].
      cbn [map]. change (item_of_line g :: map item_of_line gs)
        with (map item_of_line (g :: gs)).
      rewrite remaining_lines_spec.
      + fold kept. rewrite notify_removed_spec.
        cbn [write_database_lines db trace]. f_equal.
        rewrite <- !app_assoc. f_equal. f_equal. cbn [app]. f_equal.
        rewrite map_map.
        change (notification_of g :: map notification_of gs)
          with (map notification_of (g :: gs)).
        apply map_ext. intros x. unfold notification_of.
        now destruct (item_of_line x) as [[u c] s].
      + intros x Hx. apply Hpipe. fold lines. now rewrite El.
      + intros x Hx. apply expired_line_four with now.
        assert (Hin : In x gone) by now rewrite Eg.
        now apply filter_In in Hin. }
  split; [|split; [|split; [|split; [|split; [|split]]]]].
  - rewrite Hrun. destruct gone; [|reflexivity]. simpl. now rewrite !app_nil_r.
  - intros l Hl. now apply teardown_stops.
  - intros Hr. now apply teardown_stops_return.
  - rewrite Hrun. now destruct gone.
  - intros Hne.
    rewrite (read_database_lines_db w' (write_database_lines kept w)).
    + apply read_written_lines. unfold kept.
      apply Forall_forall. intros l Hl. apply filter_In in Hl as [Hl _].
      pose proof (read_database_lines_clean w) as C.
      now apply (proj1 (Forall_forall _ _) C).
    + rewrite Hrun. destruct gone; [contradiction | reflexivity].
  - intros Hnd. now apply unique_instance_filter.
  - intros u c s created Hu Hc Hs.
    rewrite !expired_record_line by assumption. repeat split.
    + apply Z.leb_le.
    + apply Z.leb_le.
    + apply Z.leb_le. lia.
    + apply Z.leb_gt. lia.
Qed.

Lemma sweeper_run_witness :
  let w := mkWorld (Some "alice|c1|ssh a@host|100
note|c9
bob|c2|ssh b@host|2600000
") [] in
  trace (cleanup_old_instances docker_runs 2592100 w)
  = [DockerStop "c1"; DockerRm "c1";
     FileRewrite "note|c9
bob|c2|ssh b@host|2600000
";
     NotifyDeletion "alice" "c1" "ssh a@host"]
  /\ read_database_lines (cleanup_old_instances docker_runs 2592100 w)
     = ["note|c9"; "bob|c2|ssh b@host|2600000"].
Proof.
  intros w.
  assert (Hpipe : forall l, In l (read_database_lines w) -> has_char PIPE l = true).
  { intros l Hl. vm_compute in Hl.
    destruct Hl as [<- | [<- | [<- | []]]]; vm_compute; reflexivity. }
  destruct (sweeper_run docker_runs 2592100 w Hpipe) as (Ht & _ & _ & _ & Hr & _).
  split.
  - refine (eq_trans Ht _). vm_compute. reflexivity.
  - refine (eq_trans (Hr _) _).
    + vm_compute. discriminate.
    + vm_compute. reflexivity.
Defined.

(** C5, as stated, fails in three ways.  A run that finds no record old
    enough does not write the file at all.  Removal is by instance id: a
    record that is not expired but carries the id of one that is leaves
    the file with it.  And when [docker stop] cannot be run, [docker rm]
    is not called for the expired record, which is removed from the file
    all the same. *)
Lemma sweeper_run_as_stated_counterexample :
  ~ rewrites_exactly_once docker_runs 1700000000
      (mkWorld (Some "alice|c1|ssh a@host|1700000000
") [])
  /\ ~ keeps_all_non_expired docker_runs 2592100
         (mkWorld (Some "alice|c1|ssh a@host|100
bob|c1|ssh b@host|2592000
") [])
  /\ ~ destroys_each_expired docker_missing 2592100
         (mkWorld (Some "alice|c1|ssh a@host|100
") []).
Proof.
  split; [|split].
  - vm_compute. discriminate.
  - intros H.
    specialize (H "bob|c1|ssh b@host|2592000").
    assert (Hin : In "bob|c1|ssh b@host|2592000"
                     (read_database_lines
                        (mkWorld (Some "alice|c1|ssh a@host|100
bob|c1|ssh b@host|2592000
") []))) by (vm_compute; right; left; reflexivity).
    assert (Hexp : expired_line 2592100 "bob|c1|ssh b@host|2592000" = false)
      by (vm_compute; reflexivity).
    specialize (H Hin Hexp). vm_compute in H. exact H.
  - intros H.
    specialize (H "alice|c1|ssh a@host|100").
    assert (Hin : In "alice|c1|ssh a@host|100"
                     (read_database_lines
                        (mkWorld (Some "alice|c1|ssh a@host|100
") []))) by (vm_compute; left; reflexivity).
    assert (Hexp : expired_line 2592100 "alice|c1|ssh a@host|100" = true)
      by (vm_compute; reflexivity).
    destruct (H Hin Hexp) as [_ Hrm]. vm_compute in Hrm.
    destruct Hrm as [Hrm | [Hrm | [Hrm | []]]]; discriminate.
Qed.

(* ================================================================== *)
(** * More on the record store *)
(* ================================================================== *)

(** X1 -- Insert, then look up.  A record whose text fields hold no
    ['|'] and no line break and whose owner does not start with a blank,
    added to a file that is absent, empty or ended by a line break, is the
    last record [get_user_servers] returns for its owner, with the time of
    the call as creation time; the records of the other users are
    unchanged and the owner's count grows by one. *)
Theorem add_to_database_then_list
  (now : Z) (user cid ssh u : string) (w : world) :
  tidy w ->
  plain_field user = true -> plain_field cid = true ->
  plain_field ssh = true -> lstrip_by isspace user = user ->
  let w' := add_to_database now user cid ssh w in
  get_user_servers user w'
  = (get_user_servers user w ++ [(cid, ssh, now)])%list
  /\ (u <> user -> get_user_servers u w' = get_user_servers u w)
  /\ count_user_servers user w' = S (count_user_servers user w).
Proof.
  intros Ht Hu Hc Hs Hl w'.
  assert (G : forall x, get_user_servers x w'
                        = (get_user_servers x w
                           ++ if String.eqb user x then [(cid, ssh, now)]
                              else [])%list).
  { intros x. unfold get_user_servers, w'.
    rewrite read_after_add by assumption.
    rewrite user_servers_of_lines_app. cbn [user_servers_of_lines].
    rewrite user_server_of_record_line by assumption.
    now rewrite app_nil_r. }
  split; [|split].
  - now rewrite G, String.eqb_refl.
  - intros Hne. rewrite G.
    destruct (String.eqb_spec user u) as [E|_]; [congruence|].
    now rewrite app_nil_r.
  - unfold count_user_servers. rewrite G, String.eqb_refl, length_app.
    simpl. lia.
Qed.

Lemma add_to_database_then_list_witness :
  let w := mkWorld (Some "alice|c1|ssh a@host|10
") [] in
  get_user_servers "alice" (add_to_database 20 "alice" "c2" "ssh b@host" w)
  = [("c1", "ssh a@host", 10%Z); ("c2", "ssh b@host", 20%Z)].
Proof.
  intros w.
  refine (eq_trans
            (proj1 (add_to_database_then_list 20 "alice" "c2" "ssh b@host"
                      "bob" w _ eq_refl eq_refl eq_refl eq_refl)) _).
  - right. right. exists "alice|c1|ssh a@host|10". reflexivity.
  - vm_compute. reflexivity.
Defined.

Lemma tidy_db (w w' : world) : db w = db w' -> tidy w -> tidy w'.
Proof. unfold tidy. now intros ->. Qed.

Lemma tidy_added (now : Z) (user cid ssh : string) (w : world) :
  tidy (add_to_database now user cid ssh w).
Proof.
  right. right. unfold add_to_database. cbn [db].
  destruct (db w) as [old|].
  - exists (old ++ record_line user cid ssh now). now rewrite append_assoc.
  - now exists (record_line user cid ssh now).
Qed.

Lemma tidy_written (lines : list string) (w : world) :
  tidy (write_database_lines lines w).
Proof.
  unfold tidy, write_database_lines, database_text. cbn [db].
  destruct lines as [|l ls]; [now right; left|].
  right. right. now exists (join NL (l :: ls)).
Qed.

Lemma create_instance_task_db (i : interaction)
  (image os_label plan_name : string) (run : exn + string)
  (exec : exn + process) (now : Z) (w : world) :
  let w' := create_instance_task i image os_label plan_name run exec now w in
  db w' = db w
  \/ exists out ssh_line,
       run = inr out
       /\ db w' = db (add_to_database now (user_str i) (strip out)
                        (ssh_line ++ " | plan=" ++ plan_name) w).
Proof.
  unfold create_instance_task.
  destruct (plan_to_memory_str plan_name) as [mem|]; [|now left].
  destruct (user_has_required_role_for_plan i plan_name) as [[|] req];
    cbn [negb]; [|now left].
  destruct (SERVER_LIMIT_PER_USER <=? _)%nat; [now left|].
  destruct run as [[| |]|out]; try (now left).
  destruct exec as [e|proc]; [now left|].
  destruct (capture_ssh_session_line_from_process proc 25) as [r1 p1].
  destruct (if negb (truthy r1)
            then fst (capture_ssh_session_line_from_process p1 10)
            else r1) as [[|a s]|]; try (now left).
  right. exists out, (String a s). split; [reflexivity|].
  now rewrite tell_owner_db.
Qed.

Lemma cleanup_old_instances_db (run : runner) (now : Z) (w : world) :
  db (cleanup_old_instances run now w) = db w
  \/ exists lines, db (cleanup_old_instances run now w)
                   = Some (database_text lines).
Proof.
  unfold cleanup_old_instances.
  destruct (read_database_lines w) as [|l ls]; [now left|].
  pose proof (scan_lines_db run now (l :: ls) [] w) as Hdb.
  destruct (scan_lines run now (l :: ls) [] w) as [removed w1]. simpl in Hdb.
  destruct removed as [|it its]; [now left|].
  destruct (remaining_lines (l :: ls) (it :: its)) as [e|remain];
    [now left|].
  right. exists remain. rewrite notify_removed_spec. reflexivity.
Qed.

Lemma controller_frame_of_tidy (i : interaction) (name : string)
  (exec : exn + process) (w w' : world) :
  controller_frame_of i name exec w w' -> tidy w -> tidy w'.
Proof.
  intros [H | (cid & s & _ & _ & new & Hdb & _)] Ht.
  - now apply tidy_db with w.
  - apply tidy_db with (write_database_lines new w); [now rewrite Hdb|].
    apply tidy_written.
Qed.

Lemma controller_commands_frame
  (i : interaction) (container_name : string)
  (started restarted : exn + unit) (exec : exn + process) (w : world) :
  controller_frame_of i container_name exec w
    (snd (cmd_start i container_name started exec w))
  /\ controller_frame_of i container_name exec w
       (snd (cmd_restart i container_name restarted exec w))
  /\ controller_frame_of i container_name exec w
       (snd (cmd_regen_ssh i container_name exec w)).
Proof.
  unfold cmd_start, cmd_restart, cmd_regen_ssh.
  destruct (find_container_for_user_by_name (user_str i) container_name w)
    as [[|a cid]|] eqn:Hf; try (repeat split; now left).
  split; [|split].
  - eapply controller_frame_of_db;
      [symmetry; apply except_CalledProcessError_db|].
    now apply power_then_recapture_frame.
  - eapply controller_frame_of_db;
      [symmetry; apply except_CalledProcessError_db|].
    now apply power_then_recapture_frame.
  - eapply controller_frame_of_db; [symmetry; apply except_Exception_db|].
    destruct (recapture_frame i (String a cid) exec MsgCaptureFailed w w
                eq_refl) as [H | (s & Hr & S)].
    + now left.
    + right. now exists (String a cid), s.
Qed.

Lemma remove_from_database_by_container_db (cid : string) (w : world) :
  let w' := snd (remove_from_database_by_container cid w) in
  db w' = db w \/ exists lines, db w' = Some (database_text lines).
Proof.
  unfold remove_from_database_by_container, bind, gets, lift, modify.
  destruct (lines_without_container cid (read_database_lines w)) as [e|new].
  - now left.
  - right. now exists new.
Qed.

(** X2 -- The file stays line-terminated.  Whatever is written to the
    file, by append or by rewrite, leaves it empty or ended by a line
    break; so a file that is absent, empty or ended by a line break stays so
    through a deploy, a start, a restart, a regen-ssh, a removal from the
    store and a sweeper run, and the next appended record starts on a line
    of its own. *)
Theorem file_stays_line_terminated
  (i : interaction) (image os_label plan_name container_name cid : string)
  (run : exn + string) (exec : exn + process)
  (started restarted : exn + unit) (docker : runner) (now : Z) (w : world) :
  tidy w ->
  tidy (create_instance_task i image os_label plan_name run exec now w)
  /\ tidy (snd (cmd_start i container_name started exec w))
  /\ tidy (snd (cmd_restart i container_name restarted exec w))
  /\ tidy (snd (cmd_regen_ssh i container_name exec w))
  /\ tidy (snd (remove_from_database_by_container cid w))
  /\ tidy (cleanup_old_instances docker now w).
Proof.
  intros Ht.
  destruct (controller_commands_frame i container_name started restarted
              exec w) as (F1 & F2 & F3).
  split; [|split; [|split; [|split; [|split]]]].
  - destruct (create_instance_task_db i image os_label plan_name run exec
                now w) as [H | (out & s & _ & H)].
    + now apply tidy_db with w.
    + eapply tidy_db; [symmetry; exact H | apply tidy_added].
  - now apply controller_frame_of_tidy with i container_name exec w.
  - now apply controller_frame_of_tidy with i container_name exec w.
  - now apply controller_frame_of_tidy with i container_name exec w.
  - destruct (remove_from_database_by_container_db cid w) as [H | [ls H]].
    + now apply tidy_db with w.
    + apply tidy_db with (write_database_lines ls w);
        [now rewrite H | apply tidy_written].
  - destruct (cleanup_old_instances_db docker now w) as [H | [ls H]].
    + now apply tidy_db with w.
    + apply tidy_db with (write_database_lines ls w);
        [now rewrite H | apply tidy_written].
Qed.

Lemma file_stays_line_terminated_witness :
  tidy (cleanup_old_instances docker_runs 2592100
          (mkWorld (Some "alice|c1|ssh a@host|100
bob|c2|ssh b@host|2600000
") [])).
Proof.
  refine (proj2 (proj2 (proj2 (proj2 (proj2
            (file_stays_line_terminated
               (mkInteraction "alice" None true) "" "" "" "" ""
               (inl IndexError) (inl IndexError) (inr tt) (inr tt)
               docker_runs 2592100 _ _)))))).
  right. right. exists "alice|c1|ssh a@host|100
bob|c2|ssh b@host|2600000". reflexivity.
Defined.

Lemma lines_without_container_spec (cid : string) (lines : list string) :
  (forall l, In l lines -> has_char PIPE l = true) ->
  lines_without_container cid lines
  = inr (filter (fun l => negb (String.eqb (line_cid l) cid)) lines).
Proof.
  induction lines as [|l ls IH]; intros H; [reflexivity|].
  cbn [lines_without_container filter].
  rewrite (second_field_cid l) by (apply H; now left).
  rewrite IH by (intros x Hx; apply H; now right).
  now destruct (String.eqb (line_cid l) cid).
Qed.

Lemma user_server_of_line_cid (u l cid ssh : string) (ts : Z) :
  In (cid, ssh, ts) (user_server_of_line u l) -> line_cid l = cid.
Proof.
  unfold user_server_of_line, line_cid.
  destruct (split PIPE l) as [|a [|b [|c [|d [|e r]]]]]; try contradiction.
  destruct (String.eqb a u); [|contradiction].
  now intros [[= -> _ _] | []].
Qed.

Lemma user_servers_without_container (u cid : string) (lines : list string) :
  user_servers_of_lines u
    (filter (fun l => negb (String.eqb (line_cid l) cid)) lines)
  = filter (other_container cid) (user_servers_of_lines u lines).
Proof.
  induction lines as [|l ls IH]; [reflexivity|].
  cbn [filter user_servers_of_lines]. rewrite filter_app, <- IH.
  assert (Hone : forall x, In x (user_server_of_line u l) ->
                           other_container cid x
                           = negb (String.eqb (line_cid l) cid)).
  { intros [[c s] t] Hx. apply user_server_of_line_cid in Hx.
    unfold other_container. cbn [fst]. now rewrite Hx. }
  destruct (String.eqb (line_cid l) cid); cbn [negb] in *.
  - rewrite (filter_ext_in _ (fun _ => false) _ Hone), filter_false.
    reflexivity.
  - cbn [user_servers_of_lines]. f_equal.
    now rewrite (filter_ext_in _ (fun _ => true) _ Hone), filter_true.
Qed.

(** X3 -- Removal from the store.  When every line of the file has a
    ['|'], [remove_from_database_by_container] returns normally after
    rewriting the file once with the lines whose second field is not the
    container id, in their order; reading the file back gives these
    lines, and for every user the records listed afterwards are the
    records listed before less those of that container. *)
Theorem remove_from_database_by_container_spec
  (cid u : string) (w : world) :
  (forall l, In l (read_database_lines w) -> has_char PIPE l = true) ->
  let kept := filter (fun l => negb (String.eqb (line_cid l) cid))
                     (read_database_lines w) in
  let w' := snd (remove_from_database_by_container cid w) in
  remove_from_database_by_container cid w
  = (inr tt, write_database_lines kept w)
  /\ read_database_lines w' = kept
  /\ get_user_servers u w'
     = filter (other_container cid) (get_user_servers u w)
  /\ forall ssh ts, ~ In (cid, ssh, ts) (get_user_servers u w').
Proof.
  intros Hp kept w'.
  assert (E : remove_from_database_by_container cid w
              = (inr tt, write_database_lines kept w)).
  { unfold remove_from_database_by_container, bind, gets, lift, modify.
    now rewrite lines_without_container_spec. }
  assert (R : read_database_lines w' = kept).
  { unfold w'. rewrite E. cbn [snd]. apply read_written_lines.
    apply Forall_forall. intros l Hl. apply filter_In in Hl as [Hl _].
    exact (proj1 (Forall_forall _ _) (read_database_lines_clean w) l Hl). }
  assert (G : get_user_servers u w'
              = filter (other_container cid) (get_user_servers u w)).
  { unfold get_user_servers. rewrite R. apply user_servers_without_container. }
  split; [exact E | split; [exact R | split; [exact G|]]].
  intros ssh ts Hin. rewrite G in Hin. apply filter_In in Hin as [_ Hin].
  unfold other_container in Hin. cbn [fst] in Hin.
  now rewrite String.eqb_refl in Hin.
Qed.

Lemma remove_from_database_by_container_spec_witness :
  let w := mkWorld (Some "alice|c1|ssh a@host|10
bob|c2|ssh b@host|20
alice|c3|ssh c@host|30
") [] in
  get_user_servers "alice" (snd (remove_from_database_by_container "c1" w))
  = [("c3", "ssh c@host", 30%Z)].
Proof.
  intros w.
  refine (eq_trans
            (proj1 (proj2 (proj2
               (remove_from_database_by_container_spec "c1" "alice" w _)))) _).
  - intros l Hl. vm_compute in Hl.
    destruct Hl as [<- | [<- | [<- | []]]]; vm_compute; reflexivity.
  - vm_compute. reflexivity.
Defined.

Lemma line_cid_record_line (user cid ssh : string) (now : Z) :
  plain_field user = true -> plain_field cid = true ->
  plain_field ssh = true ->
  line_cid (record_line user cid ssh now) = cid.
Proof.
  intros Hu Hc Hs.
  apply plain_field_spec in Hu as (Hu & _).
  apply plain_field_spec in Hc as (Hc & _).
  apply plain_field_spec in Hs as (Hs & _).
  unfold line_cid. now rewrite split_record_line.
Qed.

(** X4 -- Insert, then delete.  In a line-terminated file whose lines all
    have a ['|'] and none of which carries the container id, adding a
    record of that container whose owner, id and connection string hold
    no ['|'] and no line break and whose owner has no leading blank, and
    then removing the container from the store, returns normally and
    gives back the lines there were: the removal undoes the addition and
    nothing else. *)
Theorem add_then_remove_restores
  (now : Z) (user cid ssh : string) (w : world) :
  tidy w ->
  (forall l, In l (read_database_lines w) ->
             has_char PIPE l = true /\ line_cid l <> cid) ->
  plain_field user = true -> plain_field cid = true ->
  plain_field ssh = true -> lstrip_by isspace user = user ->
  let w1 := add_to_database now user cid ssh w in
  fst (remove_from_database_by_container cid w1) = inr tt
  /\ read_database_lines (snd (remove_from_database_by_container cid w1))
     = read_database_lines w.
Proof.
  intros Ht Hl Hu Hc Hs Hstrip w1.
  assert (R1 : read_database_lines w1
               = (read_database_lines w ++ [record_line user cid ssh now])%list)
    by now apply read_after_add.
  assert (Hp : forall l, In l (read_database_lines w1) ->
                         has_char PIPE l = true).
  { intros l Hin. rewrite R1 in Hin. apply in_app_or in Hin as [Hin | [<- | []]].
    - now apply Hl.
    - unfold record_line. rewrite !has_char_app. cbn [has_char].
      rewrite Ascii.eqb_refl. now rewrite !orb_true_r. }
  unfold remove_from_database_by_container, bind, gets, lift, modify.
  rewrite (lines_without_container_spec cid _ Hp). cbn [fst snd].
  split; [reflexivity|]. rewrite read_written_lines.
  - rewrite R1, filter_app. cbn [filter].
    rewrite line_cid_record_line by assumption.
    rewrite String.eqb_refl. cbn [negb]. rewrite app_nil_r.
    apply forallb_filter_id, forallb_forall. intros l Hin.
    apply negb_true_iff, String.eqb_neq. now apply Hl.
  - apply Forall_forall. intros l Hin. apply filter_In in Hin as [Hin _].
    exact (proj1 (Forall_forall _ _) (read_database_lines_clean w1) l Hin).
Qed.

Lemma add_then_remove_restores_witness :
  let w := mkWorld (Some "bob|c2|ssh b@host|20
") [] in
  read_database_lines
    (snd (remove_from_database_by_container "c1"
            (add_to_database 30 "alice" "c1" "ssh a@host" w)))
  = ["bob|c2|ssh b@host|20"].
Proof.
  intros w.
  refine (eq_trans
            (proj2 (add_then_remove_restores 30 "alice" "c1" "ssh a@host" w
                      _ _ eq_refl eq_refl eq_refl eq_refl)) _).
  - right. right. exists "bob|c2|ssh b@host|20". reflexivity.
  - intros l Hl. vm_compute in Hl. destruct Hl as [<- | []].
    split; [vm_compute; reflexivity | vm_compute; discriminate].
  - vm_compute. reflexivity.
Defined.

(** X5 -- Rewriting what was read loses nothing.  Writing the lines
    just read back to the file (what every rewriting command does with the
    lines it does not touch) leaves the lines read, and so the records of
    every user, as they were, whatever blank lines, surrounding blanks or
    CR LF line ends the file had; and a second rewrite writes the same
    text. *)
Theorem rewrite_is_stable (u : string) (w v : world) :
  let w' := write_database_lines (read_database_lines w) v in
  read_database_lines w' = read_database_lines w
  /\ get_user_servers u w' = get_user_servers u w
  /\ db (write_database_lines (read_database_lines w') w') = db w'.
Proof.
  intros w'.
  assert (R : read_database_lines w' = read_database_lines w)
    by apply read_written_lines, read_database_lines_clean.
  split; [exact R | split].
  - unfold get_user_servers. now rewrite R.
  - now rewrite R.
Qed.

(* ================================================================== *)
(** * More on deploy *)
(* ================================================================== *)

(** X6 -- A refused deploy only answers.  The plan is looked up first,
    then the role, then the quota.  For an unknown plan the only effect is
    the unknown-plan answer; at the quota (the owner already has
    [SERVER_LIMIT_PER_USER] records or more) the only effects are the
    "creating" answer and the limit answer; and in each of the three
    refusals the file is untouched and nothing but answers to the
    requester is issued: no docker command is run. *)
Theorem deploy_refused_only_answers
  (i : interaction) (image os_label plan_name : string)
  (run : exn + string) (exec : exn + process) (now : Z) (w : world) :
  let w' := create_instance_task i image os_label plan_name run exec now w in
  (plan_to_memory_str plan_name = None ->
   w' = emit (Respond true (MsgUnknownPlan plan_name)) w)
  /\ (forall mem,
        plan_to_memory_str plan_name = Some mem ->
        fst (user_has_required_role_for_plan i plan_name) = true ->
        SERVER_LIMIT_PER_USER <= count_user_servers (user_str i) w ->
        w' = emit (Respond true MsgLimitReached)
                  (emit (Respond true (MsgDeploying os_label plan_name mem)) w))
  /\ (plan_to_memory_str plan_name = None
      \/ fst (user_has_required_role_for_plan i plan_name) = false
      \/ SERVER_LIMIT_PER_USER <= count_user_servers (user_str i) w ->
      db w' = db w
      /\ forall e, In e (trace w') ->
                   In e (trace w) \/ exists m, e = Respond true m).
Proof.
  intros w'.
  assert (Quota : forall mem,
             plan_to_memory_str plan_name = Some mem ->
             fst (user_has_required_role_for_plan i plan_name) = true ->
             SERVER_LIMIT_PER_USER <= count_user_servers (user_str i) w ->
             w' = emit (Respond true MsgLimitReached)
                    (emit (Respond true (MsgDeploying os_label plan_name mem)) w)).
  { intros mem Hplan Hrole Hq. unfold w', create_instance_task. rewrite Hplan.
    destruct (user_has_required_role_for_plan i plan_name) as [allowed req].
    cbn [fst] in Hrole. subst allowed. cbn [negb].
    rewrite (count_user_servers_db _ (emit _ w) w (emit_db _ w)).
    now rewrite (proj2 (Nat.leb_le _ _) Hq). }
  assert (Unknown : plan_to_memory_str plan_name = None ->
                    w' = emit (Respond true (MsgUnknownPlan plan_name)) w).
  { intros Hplan. unfold w', create_instance_task. now rewrite Hplan. }
  split; [exact Unknown | split; [exact Quota|]].
  intros H.
  assert (Only : exists replies,
             db w' = db w
             /\ trace w' = (trace w ++ map (Respond true) replies)%list).
  { destruct (plan_to_memory_str plan_name) as [mem|] eqn:Hplan.
    - destruct (fst (user_has_required_role_for_plan i plan_name)) eqn:Hrole.
      + destruct H as [H | [H | H]]; try discriminate.
        rewrite (Quota mem eq_refl eq_refl H).
        exists [MsgDeploying os_label plan_name mem; MsgLimitReached].
        split; [reflexivity|]. cbn [emit trace map]. now rewrite <- app_assoc.
      + exists [MsgPermissionDenied plan_name
                  (snd (user_has_required_role_for_plan i plan_name))].
        unfold w', create_instance_task. rewrite Hplan.
        destruct (user_has_required_role_for_plan i plan_name) as [allowed req].
        cbn [fst] in Hrole. subst allowed. split; reflexivity.
    - rewrite (Unknown eq_refl). exists [MsgUnknownPlan plan_name].
      split; reflexivity. }
  destruct Only as (replies & Hdb & Ht). split; [exact Hdb|].
  intros e He. rewrite Ht in He. apply in_app_or in He as [He | He].
  - now left.
  - right. apply in_map_iff in He as (m & <- & _). now exists m.
Qed.

Lemma deploy_refused_only_answers_witness :
  let w := mkWorld (Some "bob|c2|ssh b@host|20
") [] in
  create_instance_task (mkInteraction "alice" None true) "img" "Ubuntu"
    "gigantic" (inr "c1") (inr []) 30 w
  = emit (Respond true (MsgUnknownPlan "gigantic")) w.
Proof.
  intros w.
  exact (proj1 (deploy_refused_only_answers
                  (mkInteraction "alice" None true) "img" "Ubuntu"
                  "gigantic" (inr "c1") (inr []) 30 w) eq_refl).
Defined.



Lemma lower_char_keeps_breaks (x : ascii) :
  Ascii.eqb (lower_char x) LF = Ascii.eqb x LF
  /\ Ascii.eqb (lower_char x) CR = Ascii.eqb x CR.
Proof.
  destruct x as [[|] [|] [|] [|] [|] [|] [|] [|]]; vm_compute; split;
    reflexivity.
Qed.

Lemma no_break_spec (s : string) :
  no_break s = true <-> has_char LF s = false /\ has_char CR s = false.
Proof. unfold no_break. rewrite andb_true_iff, !negb_true_iff. tauto. Qed.

Lemma no_break_plan_key (p : string) : no_break (plan_key p) = no_break p.
Proof.
  unfold no_break, plan_key.
  assert (L : forall c, c = LF \/ c = CR ->
                        has_char c (remove_spaces (lower p)) = has_char c p).
  { intros c Hc. induction p as [|x p IH]; [reflexivity|].
    cbn [lower remove_spaces has_char].
    assert (E : Ascii.eqb (lower_char x) c = Ascii.eqb x c).
    { destruct Hc as [-> | ->]; apply lower_char_keeps_breaks. }
    destruct (Ascii.eqb_spec (lower_char x) " ") as [Hsp|Hsp].
    - rewrite IH. rewrite <- E, Hsp.
      destruct Hc as [-> | ->]; reflexivity.
    - cbn [has_char]. now rewrite IH, E. }
  now rewrite (L LF (or_introl eq_refl)), (L CR (or_intror eq_refl)).
Qed.

Lemma known_plan_no_break (p mem : string) :
  plan_to_memory_str p = Some mem -> no_break p = true.
Proof.
  unfold plan_to_memory_str. destruct p as [|x p]; [discriminate|].
  rewrite <- no_break_plan_key.
  generalize (plan_key (String x p)) as k. intros k.
  unfold PLANS, dict_lookup.
  repeat match goal with
         | |- context [String.eqb ?a k] =>
             destruct (String.eqb_spec a k) as [<-|_]; [reflexivity|]
         end.
  discriminate.
Qed.

Lemma capture_prints (proc : process) (timeout : N) (s : string)
  (rest : process) :
  capture_ssh_session_line_from_process proc timeout = (Some s, rest) ->
  exists ms text, In (ReadLine ms text) proc /\ s = strip text.
Proof.
  unfold capture_ssh_session_line_from_process. intros H.
  apply capture_loop_found in H as (before & ms & text & -> & -> & _).
  exists ms, text. split; [|reflexivity].
  apply in_or_app. right. now left.
Qed.

Lemma capture_rest (proc : process) (timeout : N) (r : option string)
  (rest : process) :
  capture_ssh_session_line_from_process proc timeout = (r, rest) ->
  forall e, In e rest -> In e proc.
Proof.
  unfold capture_ssh_session_line_from_process. intros H e He.
  destruct r as [s|].
  - apply capture_loop_found in H as (before & ms & text & -> & _).
    apply in_or_app. right. now right.
  - apply capture_loop_nothing in H as (before & -> & _).
    apply in_or_app. now right.
Qed.

(** The line a deploy stores is a stripped line the helper printed. *)
Lemma create_instance_task_db_line (i : interaction)
  (image os_label plan_name : string) (run : exn + string)
  (exec : exn + process) (now : Z) (w : world) :
  let w' := create_instance_task i image os_label plan_name run exec now w in
  db w' = db w
  \/ exists mem out proc ms text,
       plan_to_memory_str plan_name = Some mem
       /\ run = inr out /\ exec = inr proc
       /\ In (ReadLine ms text) proc
       /\ db w' = db (add_to_database now (user_str i) (strip out)
                        (strip text ++ " | plan=" ++ plan_name) w).
Proof.
  unfold create_instance_task.
  destruct (plan_to_memory_str plan_name) as [mem|]; [|now left].
  destruct (user_has_required_role_for_plan i plan_name) as [[|] req];
    cbn [negb]; [|now left].
  destruct (SERVER_LIMIT_PER_USER <=? _)%nat; [now left|].
  destruct run as [[| |]|out]; try (now left).
  destruct exec as [e|proc]; [now left|].
  destruct (capture_ssh_session_line_from_process proc 25) as [r1 p1] eqn:E1.
  destruct (capture_ssh_session_line_from_process p1 10) as [r2 p2] eqn:E2.
  assert (From : forall a s,
             (if negb (truthy r1) then fst (r2, p2) else r1)
             = Some (String a s) ->
             exists ms text, In (ReadLine ms text) proc
                             /\ String a s = strip text).
  { intros a s H. destruct (truthy r1); cbn [negb fst] in H; subst.
    - now apply capture_prints in E1.
    - destruct (capture_prints _ _ _ _ E2) as (ms & text & Hin & Hs).
      exists ms, text. split; [|exact Hs].
      now apply (capture_rest _ _ _ _ E1). }
  destruct (if negb (truthy r1) then fst (r2, p2) else r1) as [[|a s]|];
    try (now left).
  right. destruct (From a s eq_refl) as (ms & text & Hin & Hs).
  exists mem, out, proc, ms, text. repeat split; auto.
  now rewrite tell_owner_db, Hs.
Qed.

Lemma get_user_servers_added_with_pipe (now : Z) (user cid ssh u : string)
  (w : world) :
  tidy w -> has_char PIPE ssh = true ->
  no_break (record_line user cid ssh now) = true ->
  get_user_servers u (add_to_database now user cid ssh w)
  = get_user_servers u w.
Proof.
  intros Ht Hp Hb. apply no_break_spec in Hb as [Hlf Hcr].
  unfold get_user_servers.
  rewrite read_database_lines_added by assumption.
  rewrite user_servers_of_lines_app. cbn [filter].
  assert (Hskip : user_server_of_line u (strip (record_line user cid ssh now))
                  = []).
  { apply user_server_of_line_wrong_count. rewrite split_length.
    unfold strip. rewrite count_char_strip_by by apply isspace_PIPE.
    unfold record_line. rewrite !count_char_app. apply has_char_count in Hp.
    change (count_char PIPE "|") with 1. lia. }
  destruct (nonempty (strip (record_line user cid ssh now)));
    cbn [user_servers_of_lines]; rewrite ?Hskip; now rewrite ?app_nil_r.
Qed.

(** X8 -- A deploy does not change what the store lists.  The line a
    deploy appends carries the annotation [" | plan=<name>"] in its third
    field, hence a fifth field.  So in a line-terminated file, when the
    requester's name and the id that [docker run] prints hold no line
    break and the helper prints lines without a line break inside, the
    records and the count [get_user_servers] and [count_user_servers] give
    are, for every user, those of before the deploy, whatever path the
    deploy takes: the limit check of the next deploy sees the same
    count. *)
Theorem deploy_leaves_listing_unchanged
  (i : interaction) (image os_label plan_name u : string)
  (run : exn + string) (exec : exn + process) (now : Z) (w : world) :
  tidy w ->
  no_break (user_str i) = true ->
  (forall out, run = inr out -> no_break (strip out) = true) ->
  (forall proc, exec = inr proc -> prints_single_lines proc) ->
  let w' := create_instance_task i image os_label plan_name run exec now w in
  get_user_servers u w' = get_user_servers u w
  /\ count_user_servers u w' = count_user_servers u w.
Proof.
  intros Ht Hu Hout Hproc w'.
  assert (G : get_user_servers u w' = get_user_servers u w).
  { destruct (create_instance_task_db_line i image os_label plan_name run
                exec now w)
      as [H | (mem & out & proc & ms & text & Hplan & -> & -> & Hin & H)].
    - now apply get_user_servers_db.
    - fold w' in H. rewrite (get_user_servers_db u w' _ H).
      apply get_user_servers_added_with_pipe; [exact Ht | |].
      + rewrite !has_char_app. cbn [has_char].
        change (Ascii.eqb "|" PIPE) with true.
        now rewrite !orb_true_r.
      + apply no_break_spec.
        apply no_break_spec in Hu as [Hu1 Hu2].
        destruct (proj1 (no_break_spec _) (Hout out eq_refl)) as [Ho1 Ho2].
        destruct (proj1 (no_break_spec _) (Hproc proc eq_refl ms text Hin))
          as [Hs1 Hs2].
        destruct (proj1 (no_break_spec _) (known_plan_no_break _ _ Hplan))
          as [Hp1 Hp2].
        unfold record_line. rewrite !has_char_app.
        rewrite Hu1, Hu2, Ho1, Ho2, Hs1, Hs2, Hp1, Hp2.
        rewrite (str_of_int_plain LF now eq_refl),
                (str_of_int_plain CR now eq_refl).
        split; reflexivity. }
  split; [exact G|]. unfold count_user_servers. now rewrite G.
Qed.

Lemma deploy_leaves_listing_unchanged_witness :
  let w := mkWorld (Some "alice|c0|ssh z@host|5
") [] in
  let w' := create_instance_task (mkInteraction "alice" None true)
              "img" "Ubuntu" "basic" (inr "c1
") (inr [ReadLine 5 "ssh session: ssh a@host"]) 30 w in
  db w' <> db w /\ count_user_servers "alice" w' = 1.
Proof.
  intros w w'. split.
  - vm_compute. discriminate.
  - refine (eq_trans
              (proj2 (deploy_leaves_listing_unchanged
                        (mkInteraction "alice" None true) "img" "Ubuntu"
                        "basic" "alice" (inr "c1
") (inr [ReadLine 5 "ssh session: ssh a@host"]) 30 w _ eq_refl _ _)) _).
    + right. right. exists "alice|c0|ssh z@host|5". reflexivity.
    + intros out [= <-]. vm_compute. reflexivity.
    + intros proc [= <-] ms text [[= <- <-] | []]. vm_compute. reflexivity.
    + vm_compute. reflexivity.
Defined.

(* ================================================================== *)
(** * More on the capture *)
(* ================================================================== *)

(** X9 -- A longer wait finds what a shorter one finds.  If a capture
    with some timeout returns a line, a capture of the same output with a
    timeout at least as long returns the same line and leaves the same
    reads unconsumed. *)
Theorem capture_monotone_in_timeout
  (proc rest : process) (t1 t2 : N) (s : string) :
  (t1 <= t2)%N ->
  capture_ssh_session_line_from_process proc t1 = (Some s, rest) ->
  capture_ssh_session_line_from_process proc t2 = (Some s, rest).
Proof.
  unfold capture_ssh_session_line_from_process. intros Hle H.
  apply capture_loop_found in H as (b & ms & text & H0 & H1 & H2 & H3 & H4).
  apply capture_loop_found. exists b, ms, text. repeat split; auto. lia.
Qed.

Lemma capture_monotone_in_timeout_witness :
  capture_ssh_session_line_from_process
    [ReadTimeout; ReadLine 500 "web session: https://t/x"] 15
  = (Some "web session: https://t/x", []).
Proof.
  refine (capture_monotone_in_timeout _ _ 10 15 _ _ _).
  - vm_compute. discriminate.
  - vm_compute. reflexivity.
Defined.

(** X10 -- What a capture returns.  A returned line is never empty, has
    no blank at either end and passes the descriptor test, so testing the
    result for truth is testing that a line was found; and the capture
    has consumed at least the read that gave it. *)
Theorem capture_returns_stripped_descriptor
  (proc rest : process) (timeout : N) (s : string) :
  capture_ssh_session_line_from_process proc timeout = (Some s, rest) ->
  nonempty s = true /\ strip s = s /\ looks_like_session s = true
  /\ truthy (Some s) = true
  /\ List.length rest < List.length proc.
Proof.
  unfold capture_ssh_session_line_from_process. intros H.
  apply capture_loop_found in H as (b & ms & text & -> & -> & Hd & _).
  pose proof (descriptor_nonempty _ Hd) as Hn.
  split; [exact Hn | split; [apply strip_by_idem | split; [|split]]].
  - now apply looks_like_session_spec.
  - exact Hn.
  - rewrite length_app. simpl. lia.
Qed.

Lemma capture_returns_stripped_descriptor_witness :
  strip "ssh session: ssh a@host" = "ssh session: ssh a@host".
Proof.
  exact (proj1 (proj2 (capture_returns_stripped_descriptor
                         [ReadLine 5 "  ssh session: ssh a@host "] []
                         25 "ssh session: ssh a@host" eq_refl))).
Defined.

(** X11 -- A capture that finds nothing.  With a timeout of zero nothing
    is read and the output is left whole.  Whatever the timeout, an output
    without a descriptor line (time-outs, end of file, blank lines, other
    text) gives no line. *)
Theorem capture_without_descriptor (proc : process) (timeout : N) :
  capture_ssh_session_line_from_process proc 0 = (None, proc)
  /\ (Forall passed_over proc ->
      fst (capture_ssh_session_line_from_process proc timeout) = None).
Proof.
  split.
  - unfold capture_ssh_session_line_from_process. now destruct proc.
  - intros Hall.
    destruct (capture_ssh_session_line_from_process proc timeout)
      as [[s|] rest] eqn:E; [|reflexivity].
    exfalso. unfold capture_ssh_session_line_from_process in E.
    apply capture_loop_found in E as (b & ms & text & -> & -> & Hd & _).
    apply Forall_app in Hall as [_ Hall].
    apply Forall_cons_iff in Hall as [Hp _]. now apply Hp.
Qed.

Lemma capture_without_descriptor_witness :
  fst (capture_ssh_session_line_from_process
         [ReadLine 5 "tmate starting"; ReadLine 5 "   "; ReadEof] 25) = None.
Proof.
  refine (proj2 (capture_without_descriptor _ 25) _).
  repeat constructor; simpl; intros D;
    apply looks_like_session_spec in D; discriminate.
Defined.

(* ================================================================== *)
(** * More on the controller *)
(* ================================================================== *)











Lemma find_container_owned (user ident cid : string) (w : world) :
  find_container_for_user_by_name user ident w = Some cid -> owns user cid w.
Proof.
  unfold find_container_for_user_by_name. intros H.
  pose proof (first_matching_container_spec ident (get_user_servers user w))
    as S.
  rewrite H in S. destruct S as (before & ssh & ts & after & E & _).
  assert (Hin : In (cid, ssh, ts) (get_user_servers user w)).
  { rewrite E. apply in_or_app. right. now left. }
  apply user_servers_of_lines_In in Hin as (l & t & Hl & Hs & _).
  now exists l, ssh, t.
Qed.



Lemma capture_returns_nonempty (proc rest : process) (timeout : N)
  (s : string) :
  capture_ssh_session_line_from_process proc timeout = (Some s, rest) ->
  nonempty s = true.
Proof.
  unfold capture_ssh_session_line_from_process. intros H.
  apply capture_loop_found in H as (b & ms & text & _ & -> & Hd & _).
  now apply descriptor_nonempty.
Qed.

Lemma lines_with_session_raises (cid ssh_line bad : string)
  (lines : list string) :
  In bad lines -> has_char PIPE bad = false ->
  lines_with_session cid ssh_line lines = inl IndexError.
Proof.
  intros Hin Hbad. induction lines as [|l ls IH]; [contradiction|].
  cbn [lines_with_session].
  destruct (second_field l) as [e|f] eqn:E.
  - now rewrite (second_field_raises l e E).
  - destruct Hin as [-> | Hin].
    + rewrite (second_field_pipeless bad Hbad) in E. discriminate.
    + now rewrite (IH Hin).
Qed.

(** X13 -- A line without separator and a new session.  When the store
    holds a line with no ['|'], the requester's container resolves and the
    helper gives a line, the rewrite of the store raises [IndexError]
    before anything is written.  start and restart, which only handle
    [CalledProcessError], let it escape: the container has been started
    (restarted), the file is as it was, and the requester gets neither the
    new line nor an answer.  regen-ssh catches it and answers with the
    error. *)
Theorem session_rewrite_fails_on_pipeless_line
  (i : interaction) (container_name cid ssh_line bad : string)
  (proc : process) (w : world) :
  find_container_for_user_by_name (user_str i) container_name w = Some cid ->
  nonempty cid = true ->
  In bad (read_database_lines w) -> has_char PIPE bad = false ->
  fst (capture_ssh_session_line_from_process proc 15) = Some ssh_line ->
  cmd_start i container_name (inr tt) (inr proc) w
  = (inl IndexError,
     {| db := db w;
        trace := (trace w ++ [DockerStart cid; DockerExecTmate cid])%list |})
  /\ cmd_restart i container_name (inr tt) (inr proc) w
     = (inl IndexError,
        {| db := db w;
           trace := (trace w ++ [DockerRestart cid; DockerExecTmate cid])%list |})
  /\ cmd_regen_ssh i container_name (inr proc) w
     = (inr tt,
        {| db := db w;
           trace := (trace w ++ [DockerExecTmate cid;
                                 Respond true (MsgCommandError IndexError)])%list |}).
Proof.
  intros Hf Hne Hin Hbad Hcap.
  assert (Hs : nonempty ssh_line = true).
  { destruct (capture_ssh_session_line_from_process proc 15) as [r rest] eqn:E.
    cbn [fst] in Hcap. subst r.
    now apply capture_returns_nonempty in E. }
  destruct cid as [|a cid]; [discriminate|].
  destruct ssh_line as [|b ssh_line]; [discriminate|].
  unfold cmd_start, cmd_restart, cmd_regen_ssh. rewrite Hf.
  unfold except_CalledProcessError, except_Exception, try_except, recapture,
    store_session, respond.
  unfold bind, modify, lift, gets, raise.
  rewrite Hcap.
  rewrite !(read_database_lines_db (emit _ _) w) by reflexivity.
  rewrite (lines_with_session_raises _ _ bad _ Hin Hbad).
  unfold emit. cbn [db trace]. rewrite <- !app_assoc.
  split; [reflexivity | split; reflexivity].
Qed.

Lemma session_rewrite_fails_on_pipeless_line_witness :
  let w := mkWorld (Some "alice|c1|ssh a@host|10
garbage
") [] in
  fst (cmd_start (mkInteraction "alice" None true) "c1" (inr tt)
         (inr [ReadLine 5 "ssh session: ssh n@host"]) w)
  = inl IndexError.
Proof.
  intros w.
  refine (f_equal fst
            (proj1 (session_rewrite_fails_on_pipeless_line
                      (mkInteraction "alice" None true) "c1" "c1"
                      "ssh session: ssh n@host" "garbage"
                      [ReadLine 5 "ssh session: ssh n@host"] w _ eq_refl _
                      eq_refl _))).
  - vm_compute. reflexivity.
  - vm_compute. right. left. reflexivity.
  - vm_compute. reflexivity.
Defined.

(* ================================================================== *)
(** * More on the sweeper *)
(* ================================================================== *)

Lemma cleanup_nothing_expired (run : runner) (now : Z) (w : world) :
  filter (expired_line now) (read_database_lines w) = [] ->
  cleanup_old_instances run now w = w.
Proof.
  intros Hg. unfold cleanup_old_instances.
  destruct (read_database_lines w) as [|l ls] eqn:El; [reflexivity|].
  rewrite scan_lines_spec, Hg. cbn [map teardown app].
  now rewrite app_nil_r, world_eta.
Qed.

Lemma cleanup_old_instances_rewrites (run : runner) (now : Z) (w : world) :
  (forall l, In l (read_database_lines w) -> has_char PIPE l = true) ->
  let lines := read_database_lines w in
  let gone := filter (expired_line now) lines in
  let kept := filter (fun l => negb (shares_instance gone l)) lines in
  gone <> [] ->
  cleanup_old_instances run now w
  = {| db := Some (database_text kept);
       trace := (trace w ++ teardown run (trace w) gone
                 ++ FileRewrite (database_text kept)
                    :: map notification_of gone)%list |}.
Proof.
  intros Hpipe lines gone kept Hne. unfold cleanup_old_instances.
  fold lines. destruct lines as [|l ls] eqn:El; [contradiction|].
  rewrite scan_lines_spec. fold gone. cbn [app].
  destruct gone as [|g gs] eqn:Eg; [contradiction|].
  cbn [map]. change (item_of_line g :: map item_of_line gs)
    with (map item_of_line (g :: gs)).
  rewrite remaining_lines_spec.
  - fold kept. rewrite notify_removed_spec.
    cbn [write_database_lines db trace]. f_equal.
    rewrite <- !app_assoc. f_equal. f_equal. cbn [app]. f_equal.
    rewrite map_map.
    change (notification_of g :: map notification_of gs)
      with (map notification_of (g :: gs)).
    apply map_ext. intros x. unfold notification_of.
    now destruct (item_of_line x) as [[u c] s].
  - intros x Hx. apply Hpipe. fold lines. now rewrite El.
  - intros x Hx. apply expired_line_four with now.
    assert (Hin : In x gone) by now rewrite Eg.
    now apply filter_In in Hin.
Qed.

(** X14 -- A second sweep does nothing.  In a store whose lines all have
    a ['|'], a sweeper run leaves no expired record behind, whatever
    became of its docker calls: running the sweeper again at the same time
    makes no call, writes nothing and notifies nobody -- the world is the
    one the first run left. *)
Theorem sweeper_run_twice (run run' : runner) (now : Z) (w : world) :
  (forall l, In l (read_database_lines w) -> has_char PIPE l = true) ->
  let w1 := cleanup_old_instances run now w in
  filter (expired_line now) (read_database_lines w1) = []
  /\ cleanup_old_instances run' now w1 = w1.
Proof.
  intros Hpipe w1.
  assert (Hnone : filter (expired_line now) (read_database_lines w1) = []).
  { destruct (filter (expired_line now) (read_database_lines w)) as [|g gs]
      eqn:Eg.
    - unfold w1. now rewrite (cleanup_nothing_expired run now w Eg).
    - unfold w1. rewrite cleanup_old_instances_rewrites by
        (auto; rewrite Eg; discriminate).
      rewrite (read_database_lines_db _
                 (write_database_lines
                    (filter (fun l => negb (shares_instance
                               (filter (expired_line now)
                                       (read_database_lines w)) l))
                            (read_database_lines w)) w)) by reflexivity.
      rewrite read_written_lines.
      + rewrite (filter_ext_in _ (fun _ => false)); [apply filter_false|].
        intros l Hl. apply filter_In in Hl as [Hl Hk].
        destruct (expired_line now l) eqn:E; [|reflexivity].
        apply negb_true_iff in Hk. rewrite <- Hk. symmetry.
        unfold shares_instance. apply existsb_exists. exists l.
        split; [apply filter_In; auto | apply String.eqb_refl].
      + apply Forall_forall. intros l Hl. apply filter_In in Hl as [Hl _].
        exact (proj1 (Forall_forall _ _) (read_database_lines_clean w) l Hl). }
  split; [exact Hnone | now apply cleanup_nothing_expired].
Qed.

Lemma sweeper_run_twice_witness :
  let w := mkWorld (Some "alice|c1|ssh a@host|100
bob|c2|ssh b@host|2600000
") [] in
  cleanup_old_instances docker_runs 2592100
    (cleanup_old_instances docker_missing 2592100 w)
  = cleanup_old_instances docker_missing 2592100 w.
Proof.
  intros w.
  refine (proj2 (sweeper_run_twice docker_missing docker_runs 2592100 w _)).
  intros l Hl. vm_compute in Hl.
  destruct Hl as [<- | [<- | []]]; vm_compute; reflexivity.
Defined.

(** X15 -- A sweep over a line without separator.  When the store holds a
    line with no ['|'] and at least one expired record, a run calls
    [docker stop] for the container of every expired record, and
    [docker rm -f] where the stop returned (so both for every expired
    record when no stop raises), then fails in the filter: the file is not
    written, nobody is notified, the error is printed.  The expired
    records stay in the file, so the next run finds them expired again. *)
Theorem sweeper_run_on_pipeless_line
  (run : runner) (now : Z) (bad : string) (w : world) :
  In bad (read_database_lines w) -> has_char PIPE bad = false ->
  let gone := filter (expired_line now) (read_database_lines w) in
  gone <> [] ->
  let w1 := cleanup_old_instances run now w in
  w1 = {| db := db w;
          trace := (trace w ++ teardown run (trace w) gone
                    ++ [Print "Cleanup error:"])%list |}
  /\ (forall l, In l gone -> In (DockerStop (line_cid l)) (trace w1))
  /\ (stops_return run ->
      trace w1 = (trace w ++ flat_map teardown_of gone
                  ++ [Print "Cleanup error:"])%list)
  /\ filter (expired_line now) (read_database_lines w1) = gone.
Proof.
  intros Hin Hbad gone Hne w1.
  assert (E : w1 = {| db := db w;
                      trace := (trace w ++ teardown run (trace w) gone
                                ++ [Print "Cleanup error:"])%list |}).
  { unfold w1, cleanup_old_instances.
    destruct (read_database_lines w) as [|l ls] eqn:El; [contradiction|].
    rewrite scan_lines_spec. fold gone. cbn [app].
    destruct (map item_of_line gone) as [|it its] eqn:Em.
    - destruct gone; [contradiction | discriminate].
    - rewrite (remaining_lines_raises bad (l :: ls) (it :: its) Hin Hbad)
        by discriminate.
      unfold emit. cbn [db trace]. now rewrite <- app_assoc. }
  split; [exact E|]. split; [|split].
  - intros l Hl. rewrite E. cbn [trace].
    apply in_or_app. right. apply in_or_app. left. now apply teardown_stops.
  - intros Hr. rewrite E. cbn [trace].
    now rewrite (teardown_stops_return run gone Hr).
  - now rewrite (read_database_lines_db w1 w) by (rewrite E; reflexivity).
Qed.

Lemma sweeper_run_on_pipeless_line_witness :
  let w := mkWorld (Some "alice|c1|ssh a@host|100
garbage
") [] in
  cleanup_old_instances docker_missing 2592100 w
  = {| db := db w;
       trace := [DockerStop "c1"; Print "Cleanup error:"] |}.
Proof.
  intros w.
  refine (eq_trans
            (proj1 (sweeper_run_on_pipeless_line docker_missing 2592100
                      "garbage" w _ eq_refl _))
            _).
  - vm_compute. right. left. reflexivity.
  - vm_compute. discriminate.
  - vm_compute. reflexivity.
Defined.

Lemma cleanup_old_instances_teardown (run : runner) (now : Z) (w : world) :
  exists tail,
    trace (cleanup_old_instances run now w)
    = (trace w
       ++ teardown run (trace w)
                   (filter (expired_line now) (read_database_lines w))
       ++ tail)%list
    /\ Forall (fun e => docker_target e = None) tail.
Proof.
  unfold cleanup_old_instances.
  destruct (read_database_lines w) as [|l ls] eqn:El.
  - exists []. split; [now rewrite !app_nil_r | constructor].
  - rewrite scan_lines_spec. cbn [app].
    destruct (map item_of_line (filter (expired_line now) (l :: ls)))
      as [|it its] eqn:Em.
    + exists []. split; [cbn [trace]; now rewrite app_nil_r | constructor].
    + destruct (remaining_lines (l :: ls) (it :: its)) as [e|remain].
      * exists [Print "Cleanup error:"]. split.
        -- unfold emit. cbn [db trace]. now rewrite <- app_assoc.
        -- now repeat constructor.
      * rewrite notify_removed_spec.
        exists (FileRewrite (database_text remain)
                  :: map (fun it : removed_item =>
                            let '(u, c, s) := it in NotifyDeletion u c s)
                         (it :: its)).
        split.
        -- cbn [write_database_lines db trace]. now rewrite <- !app_assoc.
        -- constructor; [reflexivity|]. apply Forall_forall.
           intros e He. apply in_map_iff in He as ([[u c] s] & <- & _).
           reflexivity.
Qed.

(** X16 -- A creation time that is no integer literal.  A four-field line
    whose fourth field is no integer literal (an optional sign and decimal
    digits, single underscores between digits, blanks around) is a record
    created at time 0, for the listing as for the sweeper: it is listed
    with creation time 0, and once the clock has reached the TTL a sweeper
    run calls [docker stop] for its container, and [docker rm -f] too
    when no stop raises, whatever else the file holds. *)
Theorem unparsable_creation_time_is_zero
  (run : runner) (now : Z) (l user cid ssh ts : string) (w : world) :
  In l (read_database_lines w) ->
  split PIPE l = [user; cid; ssh; ts] ->
  int ts = None ->
  In (cid, ssh, 0%Z) (get_user_servers user w)
  /\ ((INSTANCE_TTL_SECONDS <= now)%Z ->
      In (DockerStop cid) (trace (cleanup_old_instances run now w))
      /\ (stops_return run ->
          In (DockerRm cid) (trace (cleanup_old_instances run now w)))).
Proof.
  intros Hin Hs Hint. split.
  - apply user_servers_of_lines_In. exists l, ts.
    unfold int_or_zero. now rewrite Hint.
  - intros Hnow.
    destruct (cleanup_old_instances_teardown run now w) as (tail & -> & _).
    assert (Hg : In l (filter (expired_line now) (read_database_lines w))).
    { apply filter_In. split; [exact Hin|].
      unfold expired_line, int_or_zero. rewrite Hs, Hint.
      apply Z.leb_le. lia. }
    assert (Hc : line_cid l = cid) by (unfold line_cid; now rewrite Hs).
    split.
    + apply in_or_app. right. apply in_or_app. left.
      rewrite <- Hc. now apply teardown_stops.
    + intros Hr. rewrite (teardown_stops_return run _ Hr).
      apply in_or_app. right. apply in_or_app. left.
      apply in_flat_map. exists l. split; [exact Hg|].
      unfold teardown_of. rewrite Hc. right. now left.
Qed.

Lemma unparsable_creation_time_is_zero_witness :
  let w := mkWorld (Some "alice|c1|ssh a@host|yesterday
") [] in
  In ("c1", "ssh a@host", 0%Z) (get_user_servers "alice" w)
  /\ In (DockerRm "c1") (trace (cleanup_old_instances docker_runs 2592000 w)).
Proof.
  intros w.
  destruct (unparsable_creation_time_is_zero docker_runs 2592000
              "alice|c1|ssh a@host|yesterday" "alice" "c1" "ssh a@host"
              "yesterday" w) as [H1 H2].
  - vm_compute. left. reflexivity.
  - vm_compute. reflexivity.
  - vm_compute. reflexivity.
  - split; [exact H1|]. apply H2.
    + vm_compute. discriminate.
    + intros t c. reflexivity.
Defined.

(* ================================================================== *)
(** * More on plans and roles *)
(* ================================================================== *)

Lemma role_table_of_plan (k : string) :
  match dict_lookup PLANS k with
  | Some gb =>
      (1 <= gb <= 12)%Z
      /\ dict_lookup PLAN_ROLE_REQUIREMENTS k
         = Some (if (gb =? 1)%Z then None
                 else if (gb <=? 7)%Z then Some "Basic" else Some "Premium")
  | None => dict_lookup PLAN_ROLE_REQUIREMENTS k = None
  end.
Proof.
  unfold PLANS, PLAN_ROLE_REQUIREMENTS, dict_lookup.
  repeat match goal with
         | |- context [String.eqb ?a k] =>
             destruct (String.eqb a k); [split; [lia | reflexivity]|]
         end.
  reflexivity.
Qed.

(** X17 -- Plans, sizes and roles.  A known plan gets a memory size of
    the form ["<n>g"] with [n] from 1 to 12, and the role it requires is a
    matter of the size alone: none for 1 GB, "Basic" from 2 to 7 GB,
    "Premium" from 8 GB on.  The two tables have the same keys: for a name
    that is no plan the role check alone grants access to everybody (it is
    the plan lookup, made first, that refuses the deploy). *)
Theorem plan_size_decides_role (i : interaction) (plan_name : string) :
  match plan_to_memory_str plan_name with
  | Some mem =>
      exists gb,
        dict_lookup PLANS (plan_key plan_name) = Some gb
        /\ mem = str_of_int gb ++ "g"
        /\ (1 <= gb <= 12)%Z
        /\ required_role_of plan_name
           = (if (gb =? 1)%Z then None
              else if (gb <=? 7)%Z then Some "Basic" else Some "Premium")
  | None =>
      required_role_of plan_name = None
      /\ user_has_required_role_for_plan i plan_name = (true, None)
  end.
Proof.
  pose proof (role_table_of_plan (plan_key plan_name)) as T.
  unfold plan_to_memory_str, user_has_required_role_for_plan, required_role_of.
  destruct plan_name as [|x p].
  - split; reflexivity.
  - destruct (dict_lookup PLANS (plan_key (String x p))) as [gb|].
    + destruct T as [Hr T]. exists gb. rewrite T.
      repeat split; try lia.
      destruct (gb =? 1)%Z; [reflexivity|].
      now destruct (gb <=? 7)%Z.
    + rewrite T. split; reflexivity.
Qed.

(** X18 -- More roles never hurt.  If the role check grants a plan to a
    requester, it grants the plan to every requester who holds, up to
    case, each role name the first one holds. *)
Theorem role_check_monotone (i i' : interaction) (plan_name : string) :
  (forall r, In r (capability_tags i) ->
             exists r', In r' (capability_tags i') /\ same_ignoring_case r r') ->
  fst (user_has_required_role_for_plan i plan_name) = true ->
  fst (user_has_required_role_for_plan i' plan_name) = true.
Proof.
  unfold user_has_required_role_for_plan, capability_tags.
  intros Hsub. destruct (required_role_of plan_name) as [required|];
    [|reflexivity].
  destruct (member_roles i) as [roles|]; [|discriminate].
  destruct (has_role required roles) eqn:Eh; [|discriminate]. intros _.
  apply has_role_spec in Eh as (r & Hr & Hl).
  destruct (Hsub r Hr) as (r' & Hr' & Hl').
  destruct (member_roles i') as [roles'|]; [|contradiction].
  assert (E : has_role required roles' = true).
  { apply has_role_spec. exists r'. split; [exact Hr'|].
    unfold same_ignoring_case in *. congruence. }
  now rewrite E.
Qed.

Lemma role_check_monotone_witness :
  fst (user_has_required_role_for_plan
         (mkInteraction "alice" (Some ["@everyone"; "BASIC"; "Premium"]) true)
         "akama") = true.
Proof.
  refine (role_check_monotone
            (mkInteraction "bob" (Some ["Basic"]) true)
            (mkInteraction "alice" (Some ["@everyone"; "BASIC"; "Premium"]) true)
            "akama" _ eq_refl).
  intros r [<- | []]. exists "BASIC". split; [right; left; reflexivity|].
  reflexivity.
Defined.

Lemma lower_char_idem (c : ascii) : lower_char (lower_char c) = lower_char c.
Proof.
  destruct c as [[|] [|] [|] [|] [|] [|] [|] [|]]; vm_compute; reflexivity.
Qed.

Lemma lower_idem (s : string) : lower (lower s) = lower s.
Proof.
  induction s as [|c s IH]; [reflexivity|]. simpl.
  now rewrite lower_char_idem, IH.
Qed.

Lemma remove_spaces_app (a b : string) :
  remove_spaces (a ++ b) = remove_spaces a ++ remove_spaces b.
Proof.
  induction a as [|c a IH]; simpl; [reflexivity|].
  destruct (Ascii.eqb c " "); simpl; now rewrite IH.
Qed.

Lemma plan_key_space (a b : string) :
  plan_key (a ++ " " ++ b) = plan_key (a ++ b).
Proof.
  unfold plan_key. now rewrite !lower_app, !remove_spaces_app.
Qed.

Lemma plan_key_lower (p : string) : plan_key (lower p) = plan_key p.
Proof. unfold plan_key. now rewrite lower_idem. Qed.

Lemma plan_to_memory_str_key (p : string) :
  plan_to_memory_str p
  = match dict_lookup PLANS (plan_key p) with
    | Some gb => Some (str_of_int gb ++ "g")
    | None => None
    end.
Proof. destruct p; reflexivity. Qed.

(** X19 -- Plan names ignore case and spaces.  Looking a plan up gives
    the same size and the same required role whether or not a space is
    inserted anywhere in the name and whether or not the name is
    lower-cased first; in particular the empty name and a name made of
    spaces are no plan. *)
Theorem plan_name_ignores_case_and_spaces (a b p : string) :
  plan_to_memory_str (a ++ " " ++ b) = plan_to_memory_str (a ++ b)
  /\ required_role_of (a ++ " " ++ b) = required_role_of (a ++ b)
  /\ plan_to_memory_str (lower p) = plan_to_memory_str p
  /\ required_role_of (lower p) = required_role_of p
  /\ plan_to_memory_str "" = None
  /\ plan_to_memory_str "   " = None.
Proof.
  unfold required_role_of.
  rewrite !plan_to_memory_str_key, plan_key_space, plan_key_lower.
  repeat split.
Qed.

(* ================================================================== *)
(** * More on identifier resolution *)
(* ================================================================== *)

Lemma first_matching_container_found (ident : string)
  (servers : list (string * string * Z)) (cid ssh : string) (ts : Z) :
  In (cid, ssh, ts) servers ->
  ident = cid \/ substring_of ident ssh ->
  first_matching_container ident servers <> None.
Proof.
  intros Hin Hm H.
  pose proof (first_matching_container_spec ident servers) as S.
  rewrite H in S. destruct (S cid ssh ts Hin) as [H1 H2].
  destruct Hm; contradiction.
Qed.

(** X20 -- What an identifier resolves to.  An identifier that is the id
    of one of the requester's records, or a part of one of their
    connection strings, always resolves, and to a container the requester
    owns.  The first record that matches wins: if the first record of the
    requester matches (by id, or because its connection string contains
    the identifier -- as it does for the empty identifier), it is the one
    resolved, even when the identifier is the exact id of a later
    record. *)
Theorem resolution_takes_first_match
  (user ident : string) (w : world) :
  (forall cid ssh ts,
      In (cid, ssh, ts) (get_user_servers user w) ->
      ident = cid \/ substring_of ident ssh ->
      exists found,
        find_container_for_user_by_name user ident w = Some found
        /\ owns user found w)
  /\ (forall cid ssh ts rest,
        get_user_servers user w = (cid, ssh, ts) :: rest ->
        (ident = cid \/ substring_of ident ssh ->
         find_container_for_user_by_name user ident w = Some cid)
        /\ find_container_for_user_by_name user "" w = Some cid).
Proof.
  split.
  - intros cid ssh ts Hin Hm.
    destruct (find_container_for_user_by_name user ident w) as [found|] eqn:E.
    + exists found. split; [reflexivity|].
      now apply find_container_owned with ident.
    + exfalso. unfold find_container_for_user_by_name in E.
      now apply (first_matching_container_found ident _ cid ssh ts Hin Hm).
  - intros cid ssh ts rest E.
    unfold find_container_for_user_by_name. rewrite E.
    cbn [first_matching_container]. split.
    + intros [-> | Hs].
      * now rewrite String.eqb_refl.
      * apply contains_spec in Hs. rewrite Hs. now rewrite orb_true_r.
    + assert (C : contains "" ssh = true).
      { apply contains_spec. now exists "", ssh. }
      rewrite C. now rewrite orb_true_r.
Qed.

Lemma resolution_takes_first_match_witness :
  let w := mkWorld (Some "alice|c1|ssh a@c2.host|10
alice|c2|ssh b@host|20
") [] in
  find_container_for_user_by_name "alice" "c2" w = Some "c1".
Proof.
  intros w.
  refine (proj1 (proj2 (resolution_takes_first_match "alice" "c2" w)
                   "c1" "ssh a@c2.host" 10%Z [("c2", "ssh b@host", 20%Z)] _) _).
  - vm_compute. reflexivity.
  - right. exists "ssh a@", ".host". reflexivity.
Defined.

(* ================================================================== *)
(** * Utilities and console blocks *)
(* ================================================================== *)

Lemma split_joined (sep : ascii) (ls : list string) (rest : string) :
  ls <> [] -> Forall (fun l => has_char sep l = false) ls ->
  split sep (join (String sep "") ls ++ String sep rest)
  = (ls ++ split sep rest)%list.
Proof.
  intros Hne H. induction H as [|l ls Hl Hls IH]; [contradiction|].
  destruct ls as [|l' ls'].
  - cbn [join app]. now apply split_app_sep.
  - change (join (String sep "") (l :: l' :: ls'))
      with (l ++ String sep "" ++ join (String sep "") (l' :: ls')).
    rewrite !append_assoc. cbn [append].
    rewrite split_app_sep by assumption.
    cbn [app]. f_equal. apply IH. discriminate.
Qed.

Lemma console_block_split (lines : list string) :
  Forall (fun l => has_char LF l = false) lines ->
  split LF (console_block lines)
  = ((FENCE ++ "text")%string
     :: match lines with
        | [] => [""%string]
        | _ => map (fun l => ("| " ++ l)%string) lines
        end
     ++ [FENCE])%list.
Proof.
  intros H. unfold console_block. cbv zeta.
  rewrite <- append_assoc. unfold NL at 1.
  change (String LF "" ++ ?x) with (String LF x).
  rewrite split_app_sep by reflexivity. f_equal.
  destruct lines as [|l ls]; [reflexivity|].
  change (NL ++ FENCE) with (String LF FENCE). unfold NL.
  rewrite split_joined.
  - reflexivity.
  - discriminate.
  - apply Forall_map. eapply Forall_impl; [|exact H].
    intros x Hx. cbn. exact Hx.
Qed.

(** X21 -- The lines of a console block.  For lines without line break,
    the block is the opening fence, one line per given line made of
    ["| "] and the line, and the closing fence (for no line at all: one
    empty line between the fences); and two lists of lines that give the
    same block are the same list. *)
Theorem console_block_lines (lines lines' : list string) :
  Forall (fun l => has_char LF l = false) lines ->
  Forall (fun l => has_char LF l = false) lines' ->
  split LF (console_block lines)
  = ((FENCE ++ "text")%string
     :: match lines with
        | [] => [""%string]
        | _ => map (fun l => ("| " ++ l)%string) lines
        end
     ++ [FENCE])%list
  /\ (console_block lines = console_block lines' -> lines = lines').
Proof.
  intros H H'. split; [now apply console_block_split|].
  intros E. apply (f_equal (split LF)) in E.
  rewrite (console_block_split lines H), (console_block_split lines' H') in E.
  injection E as E. apply app_inj_tail in E as [E _].
  assert (Inj : forall a b : list string,
             map (fun l => ("| " ++ l)%string) a = map (fun l => ("| " ++ l)%string) b -> a = b).
  { induction a as [|x a IH]; intros [|y b]; try discriminate; [reflexivity|].
    cbn [map]. intros [= Hx Hab]. f_equal; [exact Hx | now apply IH]. }
  destruct lines as [|l ls], lines' as [|l' ls']; try discriminate.
  - reflexivity.
  - now apply Inj.
Qed.

Lemma console_block_lines_witness :
  split LF (console_block ["Instance stopped"; "Container: c1"])
  = ["```text"; "| Instance stopped"; "| Container: c1"; "```"].
Proof.
  refine (eq_trans
            (proj1 (console_block_lines ["Instance stopped"; "Container: c1"]
                      [] _ _)) _).
  - repeat constructor.
  - constructor.
  - vm_compute. reflexivity.
Defined.

Lemma first_answer_spec (check_output : string -> exn + string)
  (cmds : list string) :
  nonempty (first_answer check_output cmds) = true
  /\ strip (first_answer check_output cmds) = first_answer check_output cmds
  /\ ((forall cmd, In cmd cmds -> no_answer (check_output cmd)) ->
      first_answer check_output cmds = "0.0.0.0")
  /\ (first_answer check_output cmds = "0.0.0.0"
      \/ exists cmd out, In cmd cmds /\ check_output cmd = inr out
                         /\ first_answer check_output cmds = strip out).
Proof.
  induction cmds as [|cmd rest (IH1 & IH2 & IH3 & IH4)].
  - repeat split; auto.
  - cbn [first_answer]. destruct (check_output cmd) as [e|out] eqn:E.
    + repeat split; auto.
      * intros H. apply IH3. intros c Hc. apply H. now right.
      * destruct IH4 as [H | (c & o & Hc & Ho & H)]; [now left|].
        right. exists c, o. repeat split; auto. now right.
    + destruct (nonempty (strip out)) eqn:En.
      * repeat split; auto.
        -- apply strip_by_idem.
        -- intros H. specialize (H cmd (or_introl eq_refl)).
           rewrite E in H. simpl in H. rewrite H in En. discriminate.
        -- right. exists cmd, out. repeat split; auto. now left.
      * repeat split; auto.
        -- intros H. apply IH3. intros c Hc. apply H. now right.
        -- destruct IH4 as [H | (c & o & Hc & Ho & H)]; [now left|].
           right. exists c, o. repeat split; auto. now right.
Qed.

(** X22 -- The public address is never empty.  [get_public_ip] returns a
    text that is not empty and has no blank around it: the stripped output
    of one of the three probes, or ["0.0.0.0"] -- which is what it returns
    when every probe fails or prints only blanks.  A first probe that
    prints something decides. *)
Theorem get_public_ip_never_empty (check_output : string -> exn + string) :
  nonempty (get_public_ip check_output) = true
  /\ strip (get_public_ip check_output) = get_public_ip check_output
  /\ ((forall cmd, In cmd probes -> no_answer (check_output cmd)) ->
      get_public_ip check_output = "0.0.0.0")
  /\ (get_public_ip check_output = "0.0.0.0"
      \/ exists cmd out, In cmd probes /\ check_output cmd = inr out
                         /\ get_public_ip check_output = strip out)
  /\ (forall out,
        check_output "curl -s ifconfig.me" = inr out ->
        nonempty (strip out) = true ->
        get_public_ip check_output = strip out).
Proof.
  destruct (first_answer_spec check_output probes) as (H1 & H2 & H3 & H4).
  repeat split; auto.
  intros out E En. unfold get_public_ip, probes. cbn [first_answer].
  now rewrite E, En.
Qed.

(* ================================================================== *)
(** * Notifications and manual removal *)
(* ================================================================== *)

Lemma channels_named_instance_logs_spec (gs : list guild) (ch : text_channel) :
  In ch (channels_named_instance_logs gs) <->
  channel_name ch = "instance-logs"
  /\ exists g, In g gs /\ In ch (text_channels g).
Proof.
  induction gs as [|g gs IH]; simpl.
  - split; [contradiction | intros [_ [g [[] _]]]].
  - rewrite in_app_iff, filter_In, String.eqb_eq, IH. split.
    + intros [[Hin Hn] | [Hn [g' [Hg Hin]]]].
      * split; [exact Hn | exists g; auto].
      * split; [exact Hn | exists g'; auto].
    + intros [Hn [g' [[<- | Hg] Hin]]].
      * left. auto.
      * right. split; [exact Hn | exists g'; auto].
Qed.

(** X23 -- Where the log goes.  A configured channel id that is not 0 and
    that the gateway resolves to a text channel is the one log channel.
    Otherwise -- no id, id 0, unknown id, or a channel that is no text
    channel -- the log channels are exactly the text channels named
    "instance-logs" of the guilds, none if there is none. *)
Theorem find_log_channels_spec (bot : gateway) :
  (forall id ch,
      LOG_CHANNEL_ID bot = Some id -> id <> 0%Z ->
      get_channel bot id = Some (TextChannel ch) ->
      find_log_channels bot = [ch])
  /\ ((forall id ch,
         LOG_CHANNEL_ID bot = Some id -> id <> 0%Z ->
         get_channel bot id <> Some (TextChannel ch)) ->
      forall ch,
        In ch (find_log_channels bot) <->
        channel_name ch = "instance-logs"
        /\ exists g, In g (guilds bot) /\ In ch (text_channels g)).
Proof.
  unfold find_log_channels. split.
  - intros id ch -> Hid ->.
    now rewrite (proj2 (Z.eqb_neq id 0) Hid).
  - intros H ch.
    destruct (LOG_CHANNEL_ID bot) as [id|];
      [|apply channels_named_instance_logs_spec].
    destruct (Z.eqb_spec id 0) as [->|Hid];
      [apply channels_named_instance_logs_spec|].
    destruct (get_channel bot id) as [[c|]|] eqn:E;
      try apply channels_named_instance_logs_spec.
    exfalso. exact (H id c eq_refl Hid E).
Qed.

Lemma find_log_channels_spec_witness :
  let logs := mkTextChannel 7 "ops" true in
  let bot := mkGateway (Some 7%Z)
               (fun id => if (id =? 7)%Z then Some (TextChannel logs) else None)
               [mkGuild (fun _ => None) [mkTextChannel 9 "instance-logs" true]] in
  find_log_channels bot = [logs].
Proof.
  intros logs bot.
  refine (proj1 (find_log_channels_spec bot) 7%Z logs eq_refl _ eq_refl).
  discriminate.
Defined.

Lemma count_member_messages_posts (chs : list text_channel) (n : note)
  (tail : list delivery) :
  count_member_messages (post_to chs n ++ tail) = count_member_messages tail.
Proof.
  unfold post_to. induction (filter accepts_post chs) as [|c cs IH];
    [reflexivity | exact IH].
Qed.

(** X24 -- Who hears of a deletion.  [notify_deletion] sends at most one
    direct message, to the member the first guild that knows the owner's
    name gives, and one post to each log channel that accepts it.  It
    prints the log text exactly when there is no log channel and no
    direct message got through.  Nothing at all comes out exactly when
    there are log channels, all of them refuse the post, and no direct
    message got through. *)
Theorem notify_deletion_spec (bot : gateway)
  (user cid ssh reason : string) :
  let ds := notify_deletion bot user cid ssh reason in
  let log := AutoDeletedToLog user cid ssh in
  count_member_messages ds <= 1
  /\ (forall ch, In (ToChannel ch log) ds <->
                 In ch (find_log_channels bot) /\ accepts_post ch = true)
  /\ (In (ToStdout log) ds <->
      find_log_channels bot = [] /\ dm_delivered bot user = false)
  /\ (ds = [] <->
      find_log_channels bot <> []
      /\ Forall (fun ch => accepts_post ch = false) (find_log_channels bot)
      /\ dm_delivered bot user = false).
Proof.
  unfold notify_deletion, dm_delivered. cbv zeta.
  set (chs := find_log_channels bot).
  set (log := AutoDeletedToLog user cid ssh).
  assert (Posts : forall ch, In (ToChannel ch log) (post_to chs log) <->
                             In ch chs /\ accepts_post ch = true).
  { intros ch. unfold post_to. rewrite in_map_iff. split.
    - intros (c & [= ->] & Hc). now apply filter_In in Hc.
    - intros Hc. exists ch. split; [reflexivity | now apply filter_In]. }
  assert (NoPost : post_to chs log = [] <->
                   Forall (fun ch => accepts_post ch = false) chs).
  { unfold post_to. clear Posts. induction chs as [|c cs IH]; simpl.
    - split; [constructor | reflexivity].
    - destruct (accepts_post c) eqn:E; simpl.
      + split; [discriminate|]. intros F.
        apply Forall_cons_iff in F as [F _]. congruence.
      + rewrite IH. split.
        * intros F. now constructor.
        * intros F. now apply Forall_cons_iff in F as [_ F]. }
  assert (NotPost : forall n, ~ In (ToStdout n) (post_to chs log)).
  { intros n Hin. unfold post_to in Hin.
    apply in_map_iff in Hin as (c & Hc & _). discriminate. }
  destruct (first_member_named user (guilds bot)) as [m|];
    [destruct (accepts_dm m)|].
  - (* the message got through *)
    split; [|split; [|split]].
    + cbn [app count_member_messages].
      rewrite count_member_messages_posts. destruct chs; simpl; lia.
    + intros ch. cbn [app]. rewrite <- Posts. split.
      * intros [H | H]; [discriminate|].
        apply in_app_or in H as [H | H]; [exact H|].
        destruct chs; simpl in H; intuition discriminate.
      * intros H. right. apply in_or_app. now left.
    + cbn [app]. split.
      * intros [H | H]; [discriminate|].
        apply in_app_or in H as [H | H]; [now apply NotPost in H|].
        destruct chs; simpl in H; intuition discriminate.
      * intros [_ H]. discriminate.
    + cbn [app]. split; [discriminate | intros (_ & _ & H); discriminate].
  - (* the member refuses the message *)
    split; [|split; [|split]].
    + cbn [app]. rewrite count_member_messages_posts.
      destruct chs; simpl; lia.
    + intros ch. cbn [app]. rewrite <- Posts. split.
      * intros H. apply in_app_or in H as [H | H]; [exact H|].
        destruct chs; simpl in H; intuition discriminate.
      * intros H. apply in_or_app. now left.
    + cbn [app]. split.
      * intros H. apply in_app_or in H as [H | H]; [now apply NotPost in H|].
        destruct chs; [auto | simpl in H; intuition discriminate].
      * intros [-> _]. now left.
    + cbn [app]. split.
      * intros H. apply app_eq_nil in H as [H1 H2].
        destruct chs as [|c cs]; [discriminate|].
        split; [discriminate | split; [now apply NoPost | reflexivity]].
      * intros (Hne & F & _). apply NoPost in F. rewrite F.
        destruct chs; [contradiction | reflexivity].
  - (* no guild knows the name *)
    split; [|split; [|split]].
    + cbn [app]. rewrite count_member_messages_posts.
      destruct chs; simpl; lia.
    + intros ch. cbn [app]. rewrite <- Posts. split.
      * intros H. apply in_app_or in H as [H | H]; [exact H|].
        destruct chs; simpl in H; intuition discriminate.
      * intros H. apply in_or_app. now left.
    + cbn [app]. split.
      * intros H. apply in_app_or in H as [H | H]; [now apply NotPost in H|].
        destruct chs; [auto | simpl in H; intuition discriminate].
      * intros [-> _]. now left.
    + cbn [app]. split.
      * intros H. apply app_eq_nil in H as [H1 H2].
        destruct chs as [|c cs]; [discriminate|].
        split; [discriminate | split; [now apply NoPost | reflexivity]].
      * intros (Hne & F & _). apply NoPost in F. rewrite F.
        destruct chs; [contradiction | reflexivity].
Qed.

Lemma notify_deletion_spec_witness :
  let bot := mkGateway None (fun _ => None)
               [mkGuild (fun _ => Some (mkMember 1 false))
                        [mkTextChannel 9 "instance-logs" false]] in
  notify_deletion bot "alice" "c1" "ssh a@host" "Expired (>= 30 days)" = [].
Proof.
  intros bot.
  refine (proj2 (proj2 (proj2 (proj2
            (notify_deletion_spec bot "alice" "c1" "ssh a@host"
               "Expired (>= 30 days)")))) _).
  split; [vm_compute; discriminate | split; [|reflexivity]].
  vm_compute. repeat constructor.
Defined.

(** X25 -- Manual removal.  When every line of the file has a ['|'],
    the identifier resolves to a container of the requester and the two
    docker calls return, /remove calls [docker stop] and [docker rm -f]
    for it and rewrites the file once, without the lines of that
    container; afterwards no user has a record of that container and
    every other record is listed as before.  The requester is told
    directly if that is possible, each log channel that accepts it gets a
    post, and the answer comes last. *)
Theorem cmd_remove_removes
  (run : runner) (bot : gateway) (i : interaction)
  (container_name cid u : string) (w : world) :
  (forall l, In l (read_database_lines w) -> has_char PIPE l = true) ->
  find_container_for_user_by_name (user_str i) container_name w = Some cid ->
  nonempty cid = true ->
  run (trace w) (DockerStop cid) = inr tt ->
  run (trace w ++ [DockerStop cid])%list (DockerRm cid) = inr tt ->
  let kept := filter (fun l => negb (String.eqb (line_cid l) cid))
                     (read_database_lines w) in
  let w' := fst (cmd_remove run bot i container_name w) in
  w' = {| db := Some (database_text kept);
          trace := (trace w ++ [DockerStop cid; DockerRm cid;
                                FileRewrite (database_text kept)])%list |}
  /\ read_database_lines w' = kept
  /\ get_user_servers u w'
     = filter (other_container cid) (get_user_servers u w)
  /\ (forall ssh ts, ~ In (cid, ssh, ts) (get_user_servers u w'))
  /\ snd (cmd_remove run bot i container_name w)
     = ((if dm_ok i then [ToRequester (RemovedToOwner cid)] else [])
        ++ post_to (find_log_channels bot) (RemovedToLog (user_str i) cid)
        ++ [Answer true (RemovedAnswer cid)])%list.
Proof.
  intros Hp Hf Hne Hstop Hrm kept w'.
  destruct cid as [|a cid]; [discriminate|].
  set (w1 := emit (DockerRm (String a cid))
                  (emit (DockerStop (String a cid)) w)).
  assert (R1 : read_database_lines w1 = read_database_lines w)
    by now apply read_database_lines_db.
  assert (E : (subprocess_run run (DockerStop (String a cid)) ;;;
               subprocess_run run (DockerRm (String a cid)) ;;;
               remove_from_database_by_container (String a cid))%py w
              = (inr tt, write_database_lines kept w1)).
  { unfold bind at 1 2, subprocess_run. rewrite Hstop.
    unfold emit at 1. cbn [db trace]. rewrite Hrm.
    unfold remove_from_database_by_container, bind, gets, lift, modify.
    fold (emit (DockerStop (String a cid)) w).
    fold (emit (DockerRm (String a cid)) (emit (DockerStop (String a cid)) w)).
    fold w1. rewrite R1. now rewrite lines_without_container_spec. }
  assert (W : w' = write_database_lines kept w1).
  { unfold w', cmd_remove. rewrite Hf. now rewrite E. }
  assert (R : read_database_lines w' = kept).
  { rewrite W. apply read_written_lines.
    apply Forall_forall. intros l Hl. apply filter_In in Hl as [Hl _].
    exact (proj1 (Forall_forall _ _) (read_database_lines_clean w) l Hl). }
  assert (G : get_user_servers u w'
              = filter (other_container (String a cid)) (get_user_servers u w)).
  { unfold get_user_servers. rewrite R. apply user_servers_without_container. }
  split; [|split; [exact R | split; [exact G | split]]].
  - rewrite W. unfold write_database_lines, w1, emit. cbn [db trace].
    now rewrite <- !app_assoc.
  - intros ssh ts Hin. rewrite G in Hin. apply filter_In in Hin as [_ Hin].
    unfold other_container in Hin. cbn [fst] in Hin.
    now rewrite String.eqb_refl in Hin.
  - unfold cmd_remove. rewrite Hf. now rewrite E.
Qed.

Lemma cmd_remove_removes_witness :
  let w := mkWorld (Some "alice|c1|ssh a@host|10
bob|c2|ssh b@host|20
") [] in
  let bot := mkGateway None (fun _ => None) [] in
  read_database_lines
    (fst (cmd_remove docker_runs bot (mkInteraction "alice" None false)
            "a@host" w))
  = ["bob|c2|ssh b@host|20"].
Proof.
  intros w bot.
  refine (eq_trans
            (proj1 (proj2 (cmd_remove_removes docker_runs bot
                             (mkInteraction "alice" None false) "a@host" "c1"
                             "alice" w _ _ eq_refl eq_refl eq_refl))) _).
  - intros l Hl. vm_compute in Hl.
    destruct Hl as [<- | [<- | []]]; vm_compute; reflexivity.
  - vm_compute. reflexivity.
  - vm_compute. reflexivity.
Defined.

(** X26 -- A manual removal that fails.  When the identifier resolves
    and [docker stop] raises, or [docker rm -f] raises, or the store holds
    a line with no ['|'], /remove ends in its handler: [docker rm -f] is
    not called after a stop that raised, the file is as it was, the only
    message is the answer with the error (of the first call that raised, or
    [IndexError] from the rewrite), and the record still resolves for its
    owner, also where the container has been stopped and removed. *)
Theorem cmd_remove_on_pipeless_line
  (run : runner) (bot : gateway) (i : interaction)
  (container_name cid : string) (w : world) :
  find_container_for_user_by_name (user_str i) container_name w = Some cid ->
  nonempty cid = true ->
  let stop := run (trace w) (DockerStop cid) in
  let rm := run (trace w ++ [DockerStop cid])%list (DockerRm cid) in
  (exists e, stop = inl e) \/ (exists e, rm = inl e)
  \/ (exists bad, In bad (read_database_lines w)
                  /\ has_char PIPE bad = false) ->
  cmd_remove run bot i container_name w
  = ({| db := db w;
        trace := (trace w
                  ++ DockerStop cid
                     :: match stop with
                        | inr _ => [DockerRm cid]
                        | inl _ => []
                        end)%list |},
     [Answer true
        (RemoveErrorAnswer
           match stop, rm with
           | inl e, _ => e
           | inr _, inl e => e
           | inr _, inr _ => IndexError
           end)])
  /\ find_container_for_user_by_name (user_str i) container_name
       (fst (cmd_remove run bot i container_name w)) = Some cid.
Proof.
  intros Hf Hne stop rm Hfail.
  destruct cid as [|a cid]; [discriminate|].
  assert (E : cmd_remove run bot i container_name w
              = ({| db := db w;
                    trace := (trace w
                              ++ DockerStop (String a cid)
                                 :: match stop with
                                    | inr _ => [DockerRm (String a cid)]
                                    | inl _ => []
                                    end)%list |},
                 [Answer true
                    (RemoveErrorAnswer
                       match stop, rm with
                       | inl e, _ => e
                       | inr _, inl e => e
                       | inr _, inr _ => IndexError
                       end)])).
  { unfold cmd_remove. rewrite Hf.
    unfold bind at 1 2, subprocess_run. fold stop.
    destruct stop as [e|[]] eqn:Es; [reflexivity|].
    unfold emit at 1. cbn [db trace]. fold rm.
    destruct rm as [e|[]] eqn:Er.
    - unfold emit. cbn [db trace]. now rewrite <- app_assoc.
    - destruct Hfail as [[e He] | [[e He] | (bad & Hin & Hbad)]];
        try discriminate.
      unfold remove_from_database_by_container, bind, gets, lift, modify.
      rewrite (read_database_lines_db (emit _ (emit _ w)) w) by reflexivity.
      rewrite (lines_without_container_raises _ bad _ Hin Hbad).
      unfold emit. cbn [db trace]. now rewrite <- app_assoc. }
  split; [exact E|]. rewrite E. cbn [fst].
  rewrite <- Hf. reflexivity.
Qed.

Lemma cmd_remove_on_pipeless_line_witness :
  let w := mkWorld (Some "alice|c1|ssh a@host|10
") [] in
  cmd_remove docker_missing (mkGateway None (fun _ => None) [])
    (mkInteraction "alice" None true) "c1" w
  = ({| db := db w; trace := [DockerStop "c1"] |},
     [Answer true (RemoveErrorAnswer (OtherException "FileNotFoundError"))]).
Proof.
  intros w.
  refine (proj1 (cmd_remove_on_pipeless_line docker_missing
                   (mkGateway None (fun _ => None) [])
                   (mkInteraction "alice" None true) "c1" "c1" w
                   _ eq_refl _)).
  - vm_compute. reflexivity.
  - left. eexists. reflexivity.
Defined.

Lemma get_public_ip_never_empty_witness :
  get_public_ip
    (fun cmd => if String.eqb cmd "curl -s icanhazip.com"
                then inr "   " else inl (OtherException "timeout"))
  = "0.0.0.0".
Proof.
  refine (proj1 (proj2 (proj2 (get_public_ip_never_empty _))) _).
  intros cmd [<- | [<- | [<- | []]]]; vm_compute; exact I || reflexivity.
Defined.

(* ================================================================== *)
(** * Start-up *)
(* ================================================================== *)

(** X27 -- Making sure the file exists.  At the call the module makes
    while it is loaded, [DATABASE_FILE] is not bound yet: [NameError]
    escapes, from the handler, and nothing is created or printed.  Called
    with the name bound, the function returns, and the file exists
    afterwards if it could be opened.  In every case the lines read and
    the records listed for a user are the same before and after the call,
    a file that exists keeps its content, and a record added afterwards
    gives the same file as one added without the call. *)
Theorem ensure_database_file_exists_invisible
  (DATABASE_FILE_bound can_open : bool) (w : world) (now : Z)
  (u cid ssh : string) :
  let r := ensure_database_file_exists DATABASE_FILE_bound can_open w in
  let w' := snd r in
  module_load can_open w = (inl NameError, w)
  /\ (fst r = inr tt <-> DATABASE_FILE_bound = true)
  /\ (DATABASE_FILE_bound = true -> can_open = true -> db w' <> None)
  /\ read_database_lines w' = read_database_lines w
  /\ get_user_servers u w' = get_user_servers u w
  /\ (db w <> None -> db w' = db w)
  /\ db (add_to_database now u cid ssh w')
     = db (add_to_database now u cid ssh w).
Proof.
  intros r w'.
  assert (D : db w' = db w
              \/ (db w = None /\ db w' = Some "" /\ DATABASE_FILE_bound = true
                  /\ can_open = true)).
  { unfold w', r, ensure_database_file_exists.
    destruct DATABASE_FILE_bound; [|now left].
    destruct can_open; [|now left].
    unfold modify. cbn [snd db].
    destruct (db w); [now left | right; auto]. }
  assert (R : read_database_lines w' = read_database_lines w).
  { unfold read_database_lines.
    destruct D as [-> | (-> & -> & _)]; reflexivity. }
  split; [reflexivity|]. split; [|split; [|split; [exact R | split; [|split]]]].
  - unfold r, ensure_database_file_exists.
    destruct DATABASE_FILE_bound.
    + destruct can_open; split; reflexivity.
    + split; discriminate.
  - intros -> ->. unfold w', r, ensure_database_file_exists, modify.
    cbn [snd db]. discriminate.
  - unfold get_user_servers. now rewrite R.
  - intros Hdb. destruct D as [H | (H & _)]; [exact H | contradiction].
  - unfold add_to_database. cbn [db].
    destruct D as [-> | (-> & -> & _)]; reflexivity.
Qed.

Lemma ensure_database_file_exists_invisible_witness :
  db (snd (ensure_database_file_exists true true
             (mkWorld (Some "alice|c1|ssh a@host|10
") [])))
  = Some "alice|c1|ssh a@host|10
".
Proof.
  refine (proj1 (proj2 (proj2 (proj2 (proj2 (proj2
            (ensure_database_file_exists_invisible true true
               (mkWorld (Some "alice|c1|ssh a@host|10
") []) 0 "alice" "c1" "ssh")))))) _).
  discriminate.
Defined.

(** X28 -- The configured log channel.  The decimal text of an integer
    in the environment gives that integer, also with blanks around it; a
    variable that is not set, or is blank, gives none.  When the value
    read is none or 0, the log channels are the text channels named
    "instance-logs", whatever the gateway would resolve. *)
Theorem log_channel_id_of_env_spec (n : Z) (raw : string) (bot : gateway) :
  LOG_CHANNEL_ID_of_env (Some (str_of_int n)) = Some n
  /\ LOG_CHANNEL_ID_of_env (Some (" " ++ str_of_int n ++ " ")) = Some n
  /\ LOG_CHANNEL_ID_of_env None = None
  /\ (strip raw = "" -> LOG_CHANNEL_ID_of_env (Some raw) = None)
  /\ (LOG_CHANNEL_ID bot = None \/ LOG_CHANNEL_ID bot = Some 0%Z ->
      find_log_channels bot = channels_named_instance_logs (guilds bot)).
Proof.
  assert (E : LOG_CHANNEL_ID_of_env (Some (str_of_int n)) = Some n).
  { unfold LOG_CHANNEL_ID_of_env. cbv zeta. rewrite strip_str_of_int.
    destruct (str_of_int n) eqn:En; [now apply str_of_int_nonempty in En|].
    cbn [nonempty]. rewrite <- En. apply int_str_of_int. }
  split; [exact E|]. split; [|split; [reflexivity | split]].
  - unfold LOG_CHANNEL_ID_of_env in *. cbv zeta in *.
    assert (S : strip (" " ++ str_of_int n ++ " ") = str_of_int n).
    { change (" " ++ str_of_int n ++ " ")
        with (String " " (str_of_int n) ++ String " " "").
      unfold strip. rewrite strip_by_snoc by reflexivity.
      destruct (proj1 (strip_by_fixed isspace (str_of_int n))
                  (strip_str_of_int n)) as [L R].
      unfold strip_by.
      assert (R' : rstrip_by isspace (String " " (str_of_int n))
                   = String " " (str_of_int n)).
      { cbn [rstrip_by]. rewrite R.
        destruct (str_of_int n) eqn:En;
          [now apply str_of_int_nonempty in En | reflexivity]. }
      rewrite R'. exact L. }
    rewrite S. now rewrite strip_str_of_int in E.
  - intros H. unfold LOG_CHANNEL_ID_of_env. cbv zeta. now rewrite H.
  - unfold find_log_channels. intros [-> | ->]; reflexivity.
Qed.

Lemma log_channel_id_of_env_spec_witness :
  LOG_CHANNEL_ID_of_env (Some "  ") = None.
Proof.
  refine (proj1 (proj2 (proj2 (proj2
            (log_channel_id_of_env_spec 0 "  "
               (mkGateway None (fun _ => None) []))))) _).
  vm_compute. reflexivity.
Defined.
